(** * ECM Assistant: the report rendering pipeline of [server.js]

    A shallow embedding of the text-to-document pipeline of [server.js]
    (retrieval lookup, report assembly, the fixed-layout PDF renderer with its
    word wrapper and page breaks, the DOCX line classifier, the footers and
    the [/ask] handler), with the properties of the specification stated and
    proved over it.

    JavaScript strings are sequences of UTF-16 code units; they are modelled
    as lists of code units ([N]).  JavaScript numbers (page coordinates, text
    widths, relevance scores, the random draw) are binary64 values; every
    finite one is a rational, so they are modelled as rationals, and each
    arithmetic operation of the program rounds its exact result to binary64
    ([Float64.round]). *)

From Stdlib Require Import List Bool Arith NArith ZArith QArith Qround Qpower.
From Stdlib Require Import Lia Lqa.
From Stdlib Require Import Strings.Ascii Strings.String.
Import ListNotations.

Set Implicit Arguments.

(* ================================================================== *)
(** * JavaScript strings *)
(* ================================================================== *)

Module JS.

Definition jsstring := list N.

(** An ASCII literal as code units. *)
Definition js (s : string) : jsstring :=
  List.map N_of_ascii (list_ascii_of_string s).

(** Truthiness of a string: every string but the empty one. *)
Definition truthy (s : jsstring) : bool :=
  match s with [] => false | _ :: _ => true end.

Definition code_eq_dec : forall a b : jsstring, {a = b} + {a <> b} :=
  list_eq_dec N.eq_dec.

Definition str_eqb (a b : jsstring) : bool :=
  if code_eq_dec a b then true else false.

(** [\s] of a regular expression, which is also what [trim] removes:
    WhiteSpace and LineTerminator code points. *)
Definition is_space (c : N) : bool :=
  (((9 <=? c) && (c <=? 13)) || (c =? 32) || (c =? 160) || (c =? 5760)
   || ((8192 <=? c) && (c <=? 8202)) || (c =? 8232) || (c =? 8233)
   || (c =? 8239) || (c =? 8287) || (c =? 12288) || (c =? 65279))%N.

(** What [.] refuses: the line terminators. *)
Definition is_line_terminator (c : N) : bool :=
  ((c =? 10) || (c =? 13) || (c =? 8232) || (c =? 8233))%N.

(** [\d] *)
Definition is_digit (c : N) : bool := ((48 <=? c) && (c <=? 57))%N.

(** [[A-Z]] *)
Definition is_upper (c : N) : bool := ((65 <=? c) && (c <=? 90))%N.

Fixpoint drop_while (p : N -> bool) (s : jsstring) : jsstring :=
  match s with
  | [] => []
  | c :: s' => if p c then drop_while p s' else s
  end.

Definition trimStart (s : jsstring) : jsstring := drop_while is_space s.
Definition trimEnd (s : jsstring) : jsstring :=
  rev (drop_while is_space (rev s)).

(** [s.trim()] *)
Definition trim (s : jsstring) : jsstring := trimEnd (trimStart s).

(** [s.startsWith(p)] *)
Fixpoint startsWith (p s : jsstring) : bool :=
  match p, s with
  | [], _ => true
  | _ :: _, [] => false
  | a :: p', b :: s' => (a =? b)%N && startsWith p' s'
  end.

(** [parts.join(sep)] *)
Fixpoint join (sep : jsstring) (parts : list jsstring) : jsstring :=
  match parts with
  | [] => []
  | [p] => p
  | p :: rest => p ++ sep ++ join sep rest
  end.

(** [s.split(/\s+/)]: the pieces between maximal runs of whitespace.  The
    flag tells whether the previous code unit was whitespace, so that a run
    separates once.  A string that starts (ends) with whitespace has an empty
    first (last) piece, and the empty string splits into one empty piece. *)
Fixpoint split_ws_from (inrun : bool) (s : jsstring) : list jsstring :=
  match s with
  | [] => [[]]
  | c :: s' =>
      if is_space c then
        if inrun then split_ws_from true s' else [] :: split_ws_from true s'
      else
        match split_ws_from false s' with
        | piece :: rest => (c :: piece) :: rest
        | [] => [[c]]
        end
  end.

Definition split_ws (s : jsstring) : list jsstring := split_ws_from false s.

(** [String(n)] for an integer. *)
Fixpoint uint_codes (d : Decimal.uint) : jsstring :=
  match d with
  | Decimal.Nil => []
  | Decimal.D0 d => 48%N :: uint_codes d
  | Decimal.D1 d => 49%N :: uint_codes d
  | Decimal.D2 d => 50%N :: uint_codes d
  | Decimal.D3 d => 51%N :: uint_codes d
  | Decimal.D4 d => 52%N :: uint_codes d
  | Decimal.D5 d => 53%N :: uint_codes d
  | Decimal.D6 d => 54%N :: uint_codes d
  | Decimal.D7 d => 55%N :: uint_codes d
  | Decimal.D8 d => 56%N :: uint_codes d
  | Decimal.D9 d => 57%N :: uint_codes d
  end.

Definition String_of_int (z : Z) : jsstring :=
  match z with
  | Z0 => [48%N]
  | Zpos p => uint_codes (Pos.to_uint p)
  | Zneg p => 45%N :: uint_codes (Pos.to_uint p)
  end.

(** [s.slice(n)] for a non-negative start. *)
Definition slice_from (n : nat) (s : jsstring) : jsstring := skipn n s.

(** [s.padStart(n, "0")] *)
Definition padStart0 (n : nat) (s : jsstring) : jsstring :=
  repeat 48%N (n - List.length s) ++ s.

End JS.
Import JS.

(** The result of a call that may throw. *)
Inductive Result (E A : Type) : Type :=
| Ok (a : A)
| Throw (e : E).
Arguments Ok {E A} a.
Arguments Throw {E A} e.

Definition bind {E A B} (m : Result E A) (k : A -> Result E B) : Result E B :=
  match m with
  | Ok a => k a
  | Throw e => Throw e
  end.

(** [try { m } catch (e) { h e }] *)
Definition try_catch {E A} (m : Result E A) (h : E -> A) : A :=
  match m with
  | Ok a => a
  | Throw e => h e
  end.

Notation "x <- m ;; k" := (bind m (fun x => k))
  (at level 61, m at next level, right associativity).

(** A JavaScript [Error]: what the program reads of it is its message. *)
Record Error : Type := { message : jsstring }.

(* ================================================================== *)
(** * JavaScript numbers: binary64 arithmetic *)
(* ================================================================== *)

(** A finite JavaScript number is a rational [m * 2^e] with [|m| < 2^53] and
    [-1074 <= e].  [a + b], [a - b] and [a * b] are the exact result rounded
    to the nearest such value, ties to the even [m] (IEEE 754 binary64,
    round to nearest even); a decimal literal such as [1.4] denotes the
    nearest such value to it.  Results beyond the largest finite binary64
    value (about 1.8e308), which JavaScript turns into [Infinity], do not
    arise from the magnitudes of this program and are not modelled. *)
Module Float64.

Definition pow2 (e : Z) : Q := 2 ^ e.

(** The [k] with [2^k <= x < 2^(k+1)], for a positive [x]. *)
Definition ilog2 (x : Q) : Z :=
  let k := (Z.log2 (Qnum x) - Z.log2 (Zpos (Qden x)))%Z in
  if Qle_bool (pow2 k) x then k else (k - 1)%Z.

(** The nearest integer to a non-negative [t], a tie going to the even
    one. *)
Definition rne (t : Q) : Z :=
  let f := Qfloor t in
  match Qcompare (t - inject_Z f) (1 # 2) with
  | Lt => f
  | Gt => (f + 1)%Z
  | Eq => if Z.even f then f else (f + 1)%Z
  end.

(** The exponent of the unit in the last place of the binary64 values
    around a positive [x]: 53 significant bits, and no exponent below that
    of the subnormal values. *)
Definition ulp_exp (x : Q) : Z := Z.max (ilog2 x - 52) (-1074).

Definition round_pos (x : Q) : Q :=
  inject_Z (rne (x / pow2 (ulp_exp x))) * pow2 (ulp_exp x).

(** The binary64 value nearest to [x]. *)
Definition round (x : Q) : Q :=
  match Qcompare x 0 with
  | Eq => 0
  | Gt => round_pos x
  | Lt => - round_pos (- x)
  end.

(** [a + b], [a - b] and [a * b] of two JavaScript numbers. *)
Definition add (a b : Q) : Q := round (a + b).
Definition sub (a b : Q) : Q := round (a - b).
Definition mul (a b : Q) : Q := round (a * b).

(** The greatest binary64 value below 1, [1 - 2^-53]: the greatest value
    [Math.random()] can return. *)
Definition below_one : Q := 9007199254740991 # 9007199254740992.

End Float64.

(* ================================================================== *)
(** * Retrieval: [queryFaissIndex] *)
(* ================================================================== *)

Module Retrieval.

(** One search hit of [searchIndex]. *)
Record Match : Type := { score : Q; text : jsstring }.

(** What [queryFaissIndex] returns. *)
Record Context : Type := { joined : jsstring; count : Z }.

Section Query.
(** [vector_store.js] is an external collaborator: the type of the index
    entries and the two calls, each of which may throw. *)
Variable Vec : Type.
Variable loadIndex : Z -> Result Error (list Vec).
Variable searchIndex : jsstring -> list Vec -> Result Error (list Match).

(** [globalIndex || (await loadIndex(10000))] *)
Definition obtainIndex (globalIndex : option (list Vec))
  : Result Error (list Vec) :=
  match globalIndex with
  | Some index => Ok index
  | None => loadIndex 10000
  end.

(** The body of the [try] block. *)
Definition lookup (globalIndex : option (list Vec)) (question : jsstring)
  : Result Error Context :=
  index <- obtainIndex globalIndex ;;
  matches <- searchIndex question index ;;
  let filtered :=
    filter (fun m => Qle_bool (Float64.round (3 # 100)) (score m)) matches in
  let texts := List.map text filtered in
  Ok {| joined := join [10; 10]%N texts;
        count := Z.of_nat (List.length filtered) |}.

Definition emptyContext : Context := {| joined := []; count := 0 |}.

Definition queryFaissIndex (globalIndex : option (list Vec))
  (question : jsstring) : Context :=
  try_catch (lookup globalIndex question) (fun _ => emptyContext).
End Query.

End Retrieval.

(* ================================================================== *)
(** * Report generation: [generateECMAssistant] *)
(* ================================================================== *)

Module Report.
Import Retrieval.

(** The local calendar fields the program reads of [new Date()]. *)
Record Date : Type := { getFullYear : Z; getMonth : Z; getDate : Z }.

(** [`${String(now.getFullYear()).slice(2)}${String(now.getMonth() + 1)
     .padStart(2, "0")}${String(now.getDate()).padStart(2, "0")}`] *)
Definition dateSeed (now : Date) : jsstring :=
  slice_from 2 (String_of_int (getFullYear now))
  ++ padStart0 2 (String_of_int (getMonth now + 1))
  ++ padStart0 2 (String_of_int (getDate now)).

(** [Math.floor(1000 + Math.random() * 9000)], for the value [r] that
    [Math.random()] returned: the product and the sum are each rounded to
    binary64 before the floor is taken. *)
Definition randomPart (r : Q) : Z :=
  Qfloor (Float64.add 1000 (Float64.mul r 9000)).

(** [`${dateSeed}-${randomPart}`] *)
Definition regRand (now : Date) (r : Q) : jsstring :=
  dateSeed now ++ [45%N] ++ String_of_int (randomPart r).

Definition nl : jsstring := [10%N].

Definition boilerplate : list jsstring :=
  [ js "This report was prepared using the AIVS FAISS-indexed ECM knowledge base,";
    js "derived entirely from verified UK Government, HSE, DEFRA and professional manuals.";
    js "It is provided for internal compliance and advisory purposes only and should not";
    js "be relied upon as a substitute for professional environmental or compliance advice." ].

(** [© AIVS Software Limited 2025 — All rights reserved.] *)
Definition copyrightLine : jsstring :=
  [169%N] ++ js " AIVS Software Limited 2025 " ++ [8212%N]
  ++ js " All rights reserved.".

(** [`Reg. No. AIVS/UK/${regRand}/${n}`] *)
Definition regLine (reg : jsstring) (n : Z) : jsstring :=
  js "Reg. No. AIVS/UK/" ++ reg ++ [47%N] ++ String_of_int n.

(** The footer template of [generateECMAssistant]. *)
Definition footer (fairnessResult reg : jsstring) (n : Z) : jsstring :=
  join nl
    ([ []; [] ] ++ boilerplate
     ++ [ [];
          js "ISO 42001 Fairness Verification: " ++ fairnessResult;
          regLine reg n;
          copyrightLine ]).

(** The prompt template, before [.trim()]. *)
Definition promptTemplate (query context : jsstring) : jsstring :=
  join nl
    [ []; [];
      js "You are a UK corporate finance adviser specialising in Equity Capital Markets (ECM) and public company transactions.";
      js "You work to the professional standards of a London-based firm providing FCA-regulated ECM, financial and Takeover Code advisory services.";
      [];
      js "Use the verified UK Government, FCA, Takeover Panel, FRC, HMRC, AIM, Aquis and London Stock Exchange guidance provided in the Context section as your primary source.";
      js "If the Context is limited, you may supplement it with accurate, well-established professional knowledge of ECM practice,";
      js "but clearly indicate where information reflects market convention rather than specific regulatory text.";
      [];
      js "You must:";
      js "- Write only the finished report text.";
      js "- Do not offer to draft documents or perform legal tasks.";
      js "- Keep answers factual, neutral and practical.";
      js "- Reflect the tone and scope appropriate for FCA-regulated corporate finance advisers.";
      js "- Follow the exact structure shown.";
      [];
      js "Question: " ++ [34%N] ++ query ++ [34%N];
      [];
      js "Structure:";
      js "1. Query";
      js "2. Applicability / Scope";
      js "3. Relevant Guidance";
      js "4. Evidence Requirements";
      js "5. Common Non-Compliance Factors";
      js "6. Key Reference Materials (FCA, Takeover Panel, FRC, HMRC, LSE, UK Gov, AIM, Aquis)";
      js "7. Practical Wrap-Up";
      [];
      js "Context:";
      context;
      [] ].

(** Case folding of [/i] on the ASCII letters of [Appendix]. *)
Definition lower_ascii (c : N) : N := if is_upper c then (c + 32)%N else c.

Fixpoint startsWith_ci (p s : jsstring) : bool :=
  match p, s with
  | [], _ => true
  | _ :: _, [] => false
  | a :: p', b :: s' =>
      (lower_ascii a =? lower_ascii b)%N && startsWith_ci p' s'
  end.

(** Does [/8\)\s*Appendix/i] match at the head of [s]? *)
Definition appendix_here (s : jsstring) : bool :=
  match s with
  | 56%N :: 41%N :: s' =>
      startsWith_ci (js "Appendix") (drop_while is_space s')
  | _ => false
  end.

(** [text.replace(/8\)\s*Appendix[\s\S]*$/gi, "")]: the text is cut at the
    first place where the pattern matches. *)
Fixpoint strip_appendix (s : jsstring) : jsstring :=
  match s with
  | [] => []
  | c :: s' => if appendix_here s then [] else c :: strip_appendix s'
  end.

Record ChatMessage : Type := { role : jsstring; content : jsstring }.

Definition fairnessInstruction : jsstring :=
  js "You are an ISO 42001 fairness auditor. Identify any gender, age, racial, or cultural bias in the text below. Respond 'No bias detected' if compliant.".

Section Generate.
Variable Vec : Type.
Variable loadIndex : Z -> Result Error (list Vec).
Variable searchIndex : jsstring -> list Vec -> Result Error (list Match).
(** [openai.chat.completions.create({ model, messages })], read through
    [choices[0].message.content]. *)
Variable chat : jsstring -> list ChatMessage -> Result Error jsstring.

Definition truncateContext (joined : jsstring) : jsstring :=
  if (50000 <? N.of_nat (List.length joined))%N
  then firstn (N.to_nat 50000) joined else joined.

Definition fairnessOf (text : jsstring) : jsstring :=
  try_catch
    (c <- chat (js "gpt-5")
            [ {| role := js "system"; content := fairnessInstruction |};
              {| role := js "user"; content := text |} ] ;;
     Ok (trim c))
    (fun e => js "Fairness verification not completed (" ++ message e
              ++ js ")").

(** [now] and [r] are what [new Date()] and [Math.random()] return in
    this call. *)
Definition generateECMAssistant (globalIndex : option (list Vec))
  (now : Date) (r : Q) (query : jsstring) : Result Error jsstring :=
  let ctx := queryFaissIndex loadIndex searchIndex globalIndex query in
  let context := truncateContext (joined ctx) in
  let prompt := trim (promptTemplate query context) in
  completion <- chat (js "gpt-5")
                  [ {| role := js "user"; content := prompt |} ] ;;
  let text := trim completion in
  let text := trim (strip_appendix text) in
  let fairnessResult := fairnessOf text in
  let footer := footer fairnessResult (regRand now r) (count ctx) in
  Ok (text ++ [10; 10]%N ++ footer).
End Generate.

End Report.

(* ================================================================== *)
(** * The fixed-layout renderer: [buildPdfBufferStructured] *)
(* ================================================================== *)

Module Pdf.

Inductive Font : Type := Helvetica | HelveticaBold.

(** [page.drawText(txt, { x, y, size, font })] *)
Record DrawOp : Type :=
  { op_text : jsstring; op_x : Q; op_y : Q; op_size : Q; op_font : Font }.

(** A page is what has been drawn on it, in drawing order. *)
Definition Page := list DrawOp.

(** The variables the helpers close over: the pages of [pdfDoc] before the
    current one, the current [page], its [width] and [height], and the
    cursor [y]. *)
Record Layout : Type :=
  { finished : list Page; page : Page; width : Q; height : Q; y : Q }.

Definition pagesOf (st : Layout) : list Page := finished st ++ [page st].

(** The texts drawn so far, over all pages, in order. *)
Definition drawnTexts (st : Layout) : list jsstring :=
  List.map op_text (List.concat (pagesOf st)).

Definition fsTitle : Q := 16.
Definition fsBody : Q := 11.
Definition margin : Q := 50.

(** The literal [1.4]: the binary64 value nearest to 14/10. *)
Definition lineFactor : Q := Float64.round (14 # 10).

(** [fsBody * 1.4], which is 15.399999999999999 (just below 15.4). *)
Definition lh : Q := Float64.mul fsBody lineFactor.

Definition Qltb (a b : Q) : bool := negb (Qle_bool b a).

(** [String(txt).replace(/[^\x09\x0A\x0D\x20-\x7E£–—]/g, "").trim()] *)
Definition pdf_safe (c : N) : bool :=
  ((c =? 9) || (c =? 10) || (c =? 13) || ((32 <=? c) && (c <=? 126))
   || (c =? 163) || (c =? 8211) || (c =? 8212))%N.

Definition sanitizeForPdf (txt : jsstring) : jsstring :=
  trim (filter pdf_safe txt).

(** [a || b] on strings. *)
Definition or_else (a : option jsstring) (b : jsstring) : jsstring :=
  match a with
  | Some s => if truthy s then s else b
  | None => b
  end.

Section Renderer.
(** [font.widthOfTextAtSize(text, size)] of pdf-lib, and the size
    [page.getSize()] reports for a page made by [pdfDoc.addPage()]. *)
Variable widthOfTextAtSize : Font -> jsstring -> Q -> Q.
Variable pageWidth pageHeight : Q.

Definition draw (txt : jsstring) (x yy size : Q) (font : Font)
  (st : Layout) : Layout :=
  {| finished := finished st;
     page := page st ++ [ {| op_text := txt; op_x := x; op_y := yy;
                             op_size := size; op_font := font |} ];
     width := width st; height := height st; y := y st |}.

Definition setY (yy : Q) (st : Layout) : Layout :=
  {| finished := finished st; page := page st;
     width := width st; height := height st; y := yy |}.

(** [pdfDoc.addPage()] followed by reading the new page's size and
    resetting the cursor. *)
Definition newPage (st : Layout) : Layout :=
  {| finished := finished st ++ [page st]; page := [];
     width := pageWidth; height := pageHeight;
     y := Float64.sub pageHeight margin |}.

(** [if (y - need < margin) { ... }] *)
Definition ensure (need : Q) (st : Layout) : Layout :=
  if Qltb (Float64.sub (y st) need) margin then newPage st else st.

(** One turn of the loop of [wrap] over the word [w]. *)
Definition wrap_step (maxWidth size : Q) (font : Font)
  (acc : list jsstring * jsstring) (w : jsstring)
  : list jsstring * jsstring :=
  let '(rows, cur) := acc in
  let test := if truthy cur then cur ++ [32%N] ++ w else w in
  if Qltb maxWidth (widthOfTextAtSize font test size) && truthy cur
  then (rows ++ [cur], w)
  else (rows, test).

Definition wrap (txt : jsstring) (x maxWidth size : Q) (font : Font)
  : list jsstring :=
  let words := split_ws txt in
  let '(rows, cur) :=
    fold_left (wrap_step maxWidth size font) words ([], []) in
  rows ++ [cur].

(** One turn of the loop of [para] over the row [r]. *)
Definition place (x size : Q) (font : Font) (st : Layout) (r : jsstring)
  : Layout :=
  let st := ensure lh st in
  let st := draw r x (y st) size font st in
  setY (Float64.sub (y st) lh) st.

Definition para (txt : jsstring) (x size : Q) (font : Font)
  (st : Layout) : Layout :=
  let safe := sanitizeForPdf txt in
  let rows :=
    wrap safe x (Float64.sub (Float64.sub (width st) x) margin) size font in
  fold_left (place x size font) rows st.

Definition firstPage : Layout :=
  {| finished := []; page := []; width := pageWidth; height := pageHeight;
     y := Float64.sub pageHeight margin |}.

(** The drawing part of [buildPdfBufferStructured]. *)
Definition layoutReport (fullName : option jsstring)
  (ts question reportText : jsstring) : Layout :=
  let st := firstPage in
  let st := draw (js "ECM Assistant Report") margin (y st) fsTitle
              HelveticaBold st in
  let st := setY (Float64.sub (y st) (Float64.mul fsTitle lineFactor)) st in
  let st := para (js "Prepared for: " ++ or_else fullName (js "N/A"))
              margin fsBody Helvetica st in
  let st := para (js "Timestamp (UK): " ++ ts) margin fsBody Helvetica st in
  let st := setY (Float64.sub (y st) lh) st in
  let st := para question margin fsBody Helvetica st in
  para reportText margin fsBody Helvetica st.

(** [pdfDoc.save()], which may throw, wrapped into a buffer. *)
Variable Buffer : Type.
Variable save : list Page -> Result Error Buffer.

Definition buildPdfBufferStructured (fullName : option jsstring)
  (ts question reportText : jsstring) : Result Error Buffer :=
  save (pagesOf (layoutReport fullName ts question reportText)).
End Renderer.

End Pdf.

(* ================================================================== *)
(** * The flowable renderer: the paragraphs of the DOCX document *)
(* ================================================================== *)

Module Docx.
Local Open Scope Z_scope.

(** [new TextRun({ text, bold, italics, size })] *)
Record TextRun : Type :=
  { run_text : jsstring; run_bold : bool; run_italics : bool; run_size : Z }.

Inductive Alignment : Type := AlignCenter | AlignLeft.

Record ParagraphOptions : Type :=
  { children : list TextRun;
    alignment : option Alignment;
    spacing_before : option Z;
    spacing_after : option Z;
    indent : option (Z * Z) (* left, hanging *) }.

Inductive Paragraph : Type :=
| ParagraphOfText (s : jsstring)          (* [new Paragraph("")] *)
| ParagraphOf (o : ParagraphOptions).     (* [new Paragraph({ ... })] *)

(** The branch of the loop body a line takes. *)
Inductive Role : Type := Heading | SubHeading | Label | Bullet | Body | Blank.

Definition run (text : jsstring) (bold : bool) (size : Z) : TextRun :=
  {| run_text := text; run_bold := bold; run_italics := false;
     run_size := size |}.

Definition titleParagraph : Paragraph :=
  ParagraphOf {| children := [run (js "ECM Assistant Report") true 32];
                 alignment := Some AlignCenter;
                 spacing_before := None; spacing_after := Some 100;
                 indent := None |}.

Definition generatedParagraph (ts : jsstring) : Paragraph :=
  ParagraphOf {| children := [run (js "Generated " ++ ts) true 24];
                 alignment := Some AlignCenter;
                 spacing_before := None; spacing_after := Some 300;
                 indent := None |}.

(** [replace(/\n{2,}/g, "\n")]: a run of newlines becomes one newline.  The
    flag tells whether the previous code unit was a newline. *)
Fixpoint collapse_newlines_from (after_nl : bool) (s : jsstring) : jsstring :=
  match s with
  | [] => []
  | c :: s' =>
      if (c =? 10)%N then
        if after_nl then collapse_newlines_from true s'
        else c :: collapse_newlines_from true s'
      else c :: collapse_newlines_from false s'
  end.

Definition collapse_newlines (s : jsstring) : jsstring :=
  collapse_newlines_from false s.

Definition cons_head (c : N) (pieces : list jsstring) : list jsstring :=
  match pieces with
  | p :: rest => (c :: p) :: rest
  | [] => [[c]]
  end.

(** [split(/\n| {2,}/)]: a newline separates, and so does a run of two or
    more spaces (as a whole).  The flag tells whether a run of spaces that
    separates is being consumed. *)
Fixpoint split_lines_from (inrun : bool) (s : jsstring) : list jsstring :=
  match s with
  | [] => [[]]
  | c :: s' =>
      if (c =? 10)%N then [] :: split_lines_from false s'
      else if (c =? 32)%N then
        if inrun then split_lines_from true s'
        else
          match s' with
          | c2 :: _ =>
              if (c2 =? 32)%N then [] :: split_lines_from true s'
              else cons_head c (split_lines_from false s')
          | [] => cons_head c (split_lines_from false s')
          end
      else cons_head c (split_lines_from false s')
  end.

(** [String(reportText || "").replace(/\n{2,}/g, "\n").split(/\n| {2,}/)] *)
Definition reportLines (reportText : jsstring) : list jsstring :=
  split_lines_from false (collapse_newlines reportText).

(** [[\).\s]] *)
Definition is_sep (c : N) : bool :=
  ((c =? 41) || (c =? 46))%N || is_space c.

(** [[-•]] *)
Definition is_bullet (c : N) : bool := ((c =? 45) || (c =? 8226))%N.

(** [\d*[\).\s]] at the head of [s]. *)
Fixpoint digits_sep (s : jsstring) : bool :=
  match s with
  | [] => false
  | c :: s' => is_sep c || (is_digit c && digits_sep s')
  end.

(** [/^\d+[\).\s]/.test(t)] *)
Definition heading_re (t : jsstring) : bool :=
  match t with
  | c :: s' => is_digit c && digits_sep s'
  | [] => false
  end.

(** [/^[A-Z][\).\s]/.test(t)] *)
Definition subheading_re (t : jsstring) : bool :=
  match t with
  | c :: d :: _ => is_upper c && is_sep d
  | _ => false
  end.

(** [t.replace(/^[A-Z][\).\s]+/, "")] *)
Definition strip_letter (t : jsstring) : jsstring :=
  match t with
  | c :: d :: s' =>
      if is_upper c && is_sep d then drop_while is_sep s' else t
  | _ => t
  end.

(** [.*:\s*$] against the whole of [s]. *)
Fixpoint any_colon_end (s : jsstring) : bool :=
  match s with
  | [] => false
  | c :: s' =>
      ((c =? 58)%N && forallb is_space s')
      || (negb (is_line_terminator c) && any_colon_end s')
  end.

(** [\s*[A-Z].*:\s*$] against the whole of [s]. *)
Fixpoint ws_upper_colon (s : jsstring) : bool :=
  match s with
  | [] => false
  | c :: s' =>
      (is_upper c && any_colon_end s') || (is_space c && ws_upper_colon s')
  end.

(** [/^[-•]?\s*[A-Z].*:\s*$/.test(t)] *)
Definition label_re (t : jsstring) : bool :=
  match t with
  | c :: s' => is_bullet c && ws_upper_colon s'
  | [] => false
  end || ws_upper_colon t.

(** [/^[-•]/.test(t)] *)
Definition bullet_re (t : jsstring) : bool :=
  match t with
  | c :: _ => is_bullet c
  | [] => false
  end.

(** [t.replace(/^[-•]\s*/, rep)] *)
Definition replace_bullet (rep t : jsstring) : jsstring :=
  match t with
  | c :: s' => if is_bullet c then rep ++ drop_while is_space s' else t
  | [] => t
  end.

Definition footerMarker : jsstring := js "This report was prepared using".

Definition styled (text : jsstring) (bold : bool) (size : Z)
  (before after : option Z) (ind : option (Z * Z)) : Paragraph :=
  ParagraphOf {| children := [run text bold size]; alignment := None;
                 spacing_before := before; spacing_after := after;
                 indent := ind |}.

(** What one turn of the loop does with the trimmed line [t]: push a
    paragraph and go on, or [break]. *)
Inductive Outcome : Type :=
| Emit (r : Role) (p : Paragraph)
| Break.

Definition classify (t : jsstring) : Outcome :=
  if negb (truthy t) then Emit Blank (ParagraphOfText [])
  else if startsWith footerMarker t then Break
  else if heading_re t then
    Emit Heading (styled t true 28 (Some 200) (Some 120) None)
  else if subheading_re t then
    let cleaned := trim (strip_letter t) in
    Emit SubHeading (styled cleaned true 24 (Some 120) (Some 80) None)
  else if label_re t then
    let labelText := trim (replace_bullet [] t) in
    Emit Label (styled labelText true 24 (Some 120) (Some 80) None)
  else if bullet_re t then
    let bulletText := trim (replace_bullet [8226; 32]%N t) in
    Emit Bullet (styled bulletText false 22 None (Some 60) (Some (680, 360)))
  else
    Emit Body (styled t false 22 None (Some 120) None).

(** The [for (const raw of lines)] loop, pushing onto [docParagraphs]. *)
Fixpoint pushLines (lines : list jsstring) (docParagraphs : list Paragraph)
  : list Paragraph :=
  match lines with
  | [] => docParagraphs
  | raw :: rest =>
      match classify (trim raw) with
      | Emit _ p => pushLines rest (docParagraphs ++ [p])
      | Break => docParagraphs
      end
  end.

(** The footer template of the handler. *)
Definition footerText (reg : jsstring) (n : Z) : jsstring :=
  join Report.nl
    ([ [] ] ++ Report.boilerplate
     ++ [ []; Report.regLine reg n; Report.copyrightLine ]).

Definition footerParagraph (text : jsstring) : Paragraph :=
  ParagraphOf {| children := [ {| run_text := text; run_bold := false;
                                  run_italics := true; run_size := 20 |} ];
                 alignment := Some AlignLeft;
                 spacing_before := Some 240; spacing_after := None;
                 indent := None |}.

(** [globalIndex ? globalIndex.length : 0] *)
Definition indexLength (Vec : Type) (globalIndex : option (list Vec)) : Z :=
  match globalIndex with
  | Some index => Z.of_nat (List.length index)
  | None => 0
  end.

(** [docParagraphs] as handed to [new Document]. *)
Definition docParagraphs (Vec : Type) (globalIndex : option (list Vec))
  (now : Report.Date) (r : Q) (ts reportText : jsstring) : list Paragraph :=
  pushLines (reportLines reportText)
    [titleParagraph; generatedParagraph ts]
  ++ [footerParagraph
        (footerText (Report.regRand now r) (indexLength globalIndex))].

(** The text a paragraph shows. *)
Definition paragraphText (p : Paragraph) : jsstring :=
  match p with
  | ParagraphOfText s => s
  | ParagraphOf o => List.concat (List.map run_text (children o))
  end.

End Docx.

(* ================================================================== *)
(** * The [/ask] handler *)
(* ================================================================== *)

Module Ask.

(** [req.body]: each field is absent or a string. *)
Record Request : Type :=
  { question : option jsstring;
    email : option jsstring;
    managerEmail : option jsstring;
    clientEmail : option jsstring }.

Inductive JsonBody : Type :=
| ErrorBody (error : jsstring)
| AnswerBody (question answer timestamp : jsstring).

(** [res.status(code).json(body)] *)
Record Response : Type := { status : Z; body : JsonBody }.

(** [s.split("\n")] *)
Fixpoint split_nl (s : jsstring) : list jsstring :=
  match s with
  | [] => [[]]
  | c :: s' =>
      if (c =? 10)%N then [] :: split_nl s'
      else Docx.cons_head c (split_nl s')
  end.

(** [reportText.split("\n").map((l) => `<p>${l}</p>`).join("")] *)
Definition htmlPart (reportText : jsstring) : jsstring :=
  join [] (List.map (fun l => js "<p>" ++ l ++ js "</p>")
             (split_nl reportText)).

(** [[...].filter((r) => r.Email)] *)
Definition recipients (req : Request) : list jsstring :=
  List.concat
    (List.map (fun e => match e with
                        | Some a => if truthy a then [a] else []
                        | None => []
                        end)
       [email req; managerEmail req; clientEmail req]).

Section Handler.
Variable Vec : Type.
Variable loadIndex : Z -> Result Error (list Vec).
Variable searchIndex :
  jsstring -> list Vec -> Result Error (list Retrieval.Match).
Variable chat : jsstring -> list Report.ChatMessage -> Result Error jsstring.
Variable widthOfTextAtSize : Pdf.Font -> jsstring -> Q -> Q.
Variable pageWidth pageHeight : Q.
Variable Buffer : Type.
Variable save : list Pdf.Page -> Result Error Buffer.
(** [Packer.toBuffer(new Document({ sections: [{ children }] }))] *)
Variable toBuffer : list Docx.Paragraph -> Result Error Buffer.

Record Attachment : Type :=
  { ContentType : jsstring; Filename : jsstring; Content : Buffer }.

Record Mail : Type :=
  { To : list jsstring;
    Subject : jsstring;
    TextPart : jsstring;
    HTMLPart : jsstring;
    Attachments : list Attachment }.

(** The Mailjet call: [fetch] and the reading of its JSON answer. *)
Variable send : Mail -> Result Error unit.

(** What the clock, [Math.random] and the preloaded index give during
    one request. *)
Record World : Type :=
  { ts : jsstring;              (* [new Date().toISOString()] *)
    globalIndex : option (list Vec);
    reportNow : Report.Date;    (* the clock in [generateECMAssistant] *)
    reportRandom : Q;
    docxNow : Report.Date;      (* the clock at the DOCX footer *)
    docxRandom : Q }.

Definition mailOf (req : Request) (w : World) (reportText : jsstring)
  (pdfBuf docBuf : Buffer) : Mail :=
  {| To := recipients req;
     Subject := js "Your AI ECM Assistant Report";
     TextPart := reportText;
     HTMLPart := htmlPart reportText;
     Attachments :=
       [ {| ContentType := js "application/pdf";
            Filename := js "ecm-audit-" ++ ts w ++ js ".pdf";
            Content := pdfBuf |};
         {| ContentType :=
              js "application/vnd.openxmlformats-officedocument.wordprocessingml.document";
            Filename := js "ecm-report.docx";
            Content := docBuf |} ] |}.

(** The body of the outer [try] block. *)
Definition answer (req : Request) (w : World) (q : jsstring)
  : Result Error Response :=
  reportText <-
    Report.generateECMAssistant loadIndex searchIndex chat
      (globalIndex w) (reportNow w) (reportRandom w) q ;;
  pdfBuf <-
    Pdf.buildPdfBufferStructured widthOfTextAtSize pageWidth pageHeight
      save (email req) (ts w) q reportText ;;
  let paragraphs :=
    Docx.docParagraphs (globalIndex w) (docxNow w) (docxRandom w)
      (ts w) reportText in
  docBuf <- toBuffer paragraphs ;;
  let mailed : unit :=
    try_catch (send (mailOf req w reportText pdfBuf docBuf))
      (fun _ => tt) in
  match mailed with
  | tt => Ok {| status := 200; body := AnswerBody q reportText (ts w) |}
  end.

Definition ask (req : Request) (w : World) : Response :=
  match question req with
  | None => {| status := 400; body := ErrorBody (js "Missing question") |}
  | Some q =>
      if negb (truthy q)
      then {| status := 400; body := ErrorBody (js "Missing question") |}
      else
        try_catch (answer req w q)
          (fun _ => {| status := 500;
                       body := ErrorBody (js "Report generation failed") |})
  end.
End Handler.

End Ask.

(* ================================================================== *)
(** * Sample inputs *)
(* ================================================================== *)

Module Samples.

(** A measurement that counts [size / 2] units for every code unit. *)
Definition monoWidth (_ : Pdf.Font) (s : jsstring) (size : Q) : Q :=
  inject_Z (Z.of_nat (List.length s)) * size / 2.

(** The size of an A4 page in points, [595.28] by [841.89]. *)
Definition a4Width : Q := Float64.round (59528 # 100).
Definition a4Height : Q := Float64.round (84189 # 100).

Definition october3rd : Report.Date :=
  {| Report.getFullYear := 2025; Report.getMonth := 9; Report.getDate := 3 |}.

Definition newYear10000 : Report.Date :=
  {| Report.getFullYear := 10000; Report.getMonth := 0; Report.getDate := 1 |}.

Definition sampleReport : jsstring :=
  js "1. Query" ++ [10%N] ++ js "What is required?" ++ [10%N]
  ++ js "- Item one" ++ [10; 10]%N
  ++ js "This report was prepared using the AIVS FAISS-indexed ECM knowledge base,"
  ++ [10%N] ++ js "Reg. No. AIVS/UK/251003-4321/2".

Definition samplePre : list jsstring :=
  [js "1. Query"; js "What is required?"; js "- Item one"].

Definition sampleMarkerLine : jsstring :=
  js "This report was prepared using the AIVS FAISS-indexed ECM knowledge base,".

Definition samplePost : list jsstring :=
  [js "Reg. No. AIVS/UK/251003-4321/2"].

Definition sampleTs : jsstring := js "2025-10-03T09:00:00.000Z".

Definition sampleIndex : list unit := [tt; tt; tt].

Definition sampleLoad (_ : Z) : Result Error (list unit) := Ok sampleIndex.

Definition sampleSearch (_ : jsstring) (_ : list unit)
  : Result Error (list Retrieval.Match) :=
  Ok [ {| Retrieval.score := 1 # 2; Retrieval.text := js "AIM Rule 11" |};
       {| Retrieval.score := 1 # 100; Retrieval.text := js "unrelated" |} ].

Definition sampleChat (_ : jsstring) (_ : list Report.ChatMessage)
  : Result Error jsstring :=
  Ok (js "1. Query" ++ [10%N] ++ js "What is required?").

Definition sampleSave (pages : list Pdf.Page) : Result Error nat :=
  Ok (List.length pages).

Definition sampleToBuffer (paragraphs : list Docx.Paragraph)
  : Result Error nat :=
  Ok (List.length paragraphs).

Definition failing : Error := {| message := js "connect ETIMEDOUT" |}.

Definition failingSend (_ : Ask.Mail nat) : Result Error unit :=
  Throw failing.

Definition sampleRequest : Ask.Request :=
  {| Ask.question := Some (js "What is required?");
     Ask.email := Some (js "adviser@example.com");
     Ask.managerEmail := None;
     Ask.clientEmail := Some [] |}.

Definition sampleWorld : Ask.World unit :=
  {| Ask.ts := sampleTs;
     Ask.globalIndex := Some sampleIndex;
     Ask.reportNow := october3rd;
     Ask.reportRandom := 1 # 2;
     Ask.docxNow := october3rd;
     Ask.docxRandom := 3 # 4 |}.

(** The report the sample collaborators produce. *)
Definition sampleGenerated : jsstring :=
  match
    Report.generateECMAssistant sampleLoad sampleSearch sampleChat
      (Some sampleIndex) october3rd (1 # 2) (js "What is required?")
  with
  | Ok text => text
  | Throw _ => []
  end.

Definition failingSearch (_ : jsstring) (_ : list unit)
  : Result Error (list Retrieval.Match) :=
  Throw failing.

End Samples.

(* ================================================================== *)
(** * Predicates used in the statements *)
(* ================================================================== *)

Module Statements.

(** A row is acceptable when it fits, or when it is one of the words and
    that word alone is too wide. *)
Definition acceptable (widthOf : Pdf.Font -> jsstring -> Q -> Q)
  (maxWidth size : Q) (font : Pdf.Font) (words : list jsstring)
  (r : jsstring) : Prop :=
  widthOf font r size <= maxWidth
  \/ (In r words /\ maxWidth < widthOf font r size).

(** Does the string begin with a whitespace code unit? *)
Definition starts_with_space (s : jsstring) : bool :=
  match s with
  | c :: _ => is_space c
  | [] => false
  end.

(** Every piece but the last one is non-empty. *)
Fixpoint inner_nonempty (pieces : list jsstring) : Prop :=
  match pieces with
  | [] => True
  | p :: rest =>
      match rest with
      | [] => True
      | _ :: _ => p <> [] /\ inner_nonempty rest
      end
  end.

Definition space : jsstring := [32%N].

(** The tokens [wrap] commits to rows: those of [split(/\s+/)], but for the
    empty first token of a text that begins with whitespace, which its loop
    passes over. *)
Definition committed (txt : jsstring) : list jsstring :=
  match split_ws txt with
  | [] :: w :: ws => w :: ws
  | tokens => tokens
  end.

(** The tokens of one row either fit together, or are one token that is
    too wide alone. *)
Definition fits_or_alone (widthOf : Pdf.Font -> jsstring -> Q -> Q)
  (maxWidth size : Q) (font : Pdf.Font) (g : list jsstring) : Prop :=
  widthOf font (join space g) size <= maxWidth
  \/ exists w, g = [w] /\ maxWidth < widthOf font w size.

(** A measurement under which a text is not narrower than what stands on
    either side of one of its spaces. *)
Definition monotone (widthOf : Pdf.Font -> jsstring -> Q -> Q)
  (size : Q) (font : Pdf.Font) : Prop :=
  forall a b : jsstring,
    widthOf font a size <= widthOf font (a ++ space ++ b) size
    /\ widthOf font b size <= widthOf font (a ++ space ++ b) size.

(** The words of a text: its non-empty pieces between runs of whitespace. *)
Definition words (s : jsstring) : list jsstring :=
  filter truthy (split_ws s).

(** The words of a text that reach the PDF: those of what is left of it
    once the code units [sanitizeForPdf] refuses are removed. *)
Definition pdfWords (s : jsstring) : list jsstring :=
  words (filter Pdf.pdf_safe s).

(** The first piece of [split(/\s+/)], which is empty for a text that
    begins with whitespace, and the words after it. *)
Definition firstPiece (s : jsstring) : jsstring := hd [] (split_ws s).
Definition laterWords (s : jsstring) : list jsstring :=
  filter truthy (tl (split_ws s)).

(** The code unit of a decimal digit. *)
Definition digit (k : Z) : N := Z.to_N (48 + k).

(** A number below one hundred on two digits, zero-padded. *)
Definition two_digits (k : Z) : jsstring := [digit (k / 10); digit (k mod 10)].

(** The calendar fields of a JavaScript date: the year within the range of
    [Date], the month counted from 0, the day of the month. *)
Definition valid_date (now : Report.Date) : Prop :=
  (-271821 <= Report.getFullYear now <= 275760
   /\ 0 <= Report.getMonth now <= 11
   /\ 1 <= Report.getDate now <= 31)%Z.

(** Two-digit year, zero-padded month, zero-padded day. *)
Definition yymmdd (now : Report.Date) : jsstring :=
  two_digits (Report.getFullYear now mod 100)
  ++ two_digits (Report.getMonth now + 1)
  ++ two_digits (Report.getDate now).

(** [Reg. No. AIVS/UK/<seed>-<suffix>/<n>] *)
Definition regNoLine (seed : jsstring) (suffix n : Z) : jsstring :=
  js "Reg. No. AIVS/UK/" ++ seed ++ [45%N] ++ String_of_int suffix
  ++ [47%N] ++ String_of_int n.

(** The roles that come with a marker. *)
Definition marker_role (r : Docx.Role) : bool :=
  match r with
  | Docx.Heading | Docx.SubHeading | Docx.Label | Docx.Bullet => true
  | Docx.Body | Docx.Blank => false
  end.

(** Does one of the four marker patterns of the classifier match? *)
Definition matches_marker (t : jsstring) : bool :=
  Docx.heading_re t || Docx.subheading_re t || Docx.label_re t
  || Docx.bullet_re t.

(** The rows of [wrap] once its loop has ended in the state [acc]:
    [rows.push(cur || "")]. *)
Definition rows_of (acc : list jsstring * jsstring) : list jsstring :=
  fst acc ++ [snd acc].

End Statements.
Import Statements.

(* ================================================================== *)
(** * Start-up: the preload of the index *)
(* ================================================================== *)

Module Startup.

(** The block that runs once when the server starts: [globalIndex] is
    [null] until [loadIndex(10000)] has answered, and stays [null] when it
    throws. *)
Definition preload (Vec : Type) (loadIndex : Z -> Result Error (list Vec))
  : option (list Vec) :=
  try_catch (index <- loadIndex 10000%Z ;; Ok (Some index)) (fun _ => None).

End Startup.

(* ================================================================== *)
(** * The page script: [public/script.js] *)
(* ================================================================== *)

Module Client.

(** The elements the script looks up: the value of each input that exists,
    and whether the [generate] button exists. *)
Record Form : Type :=
  { clarification : option jsstring;
    topic : option jsstring;
    questionField : option jsstring;
    emailField : option jsstring;
    managerField : option jsstring;
    clientField : option jsstring;
    generateBtn : bool }.

(** The body of the request. *)
Record Payload : Type :=
  { p_question : jsstring;
    p_email : jsstring;
    p_managerEmail : jsstring;
    p_clientEmail : jsstring;
    p_ts : jsstring }.

(** What the script reads of the JSON of the answer. *)
Record Data : Type :=
  { d_error : option jsstring;
    d_answer : option jsstring;
    d_reportText : option jsstring }.

Definition noData : Data :=
  {| d_error := None; d_answer := None; d_reportText := None |}.

(** What [fetch] gives: a rejection (an error with its name and message),
    or a response with [res.ok], [res.status] and its JSON when it parses. *)
Inductive FetchResult : Type :=
| Rejected (name msg : jsstring)
| Responded (ok : bool) (status : Z) (data : option Data).

(** What the script leaves in the [response] element. *)
Inductive Display : Type :=
| TextContent (s : jsstring)
| InnerHTML (s : jsstring).

Record Outcome : Type := { sent : option Payload; shown : Display }.

(** [$("clarification") || $("topic") || $("question")] *)
Definition clarificationInput (f : Form) : option jsstring :=
  match clarification f with
  | Some v => Some v
  | None =>
      match topic f with
      | Some v => Some v
      | None => questionField f
      end
  end.

(** [input?.value?.trim() || ""] *)
Definition valueOf (input : option jsstring) : jsstring :=
  match input with
  | Some v => trim v
  | None => []
  end.

Definition payloadOf (f : Form) (now : jsstring) : Payload :=
  {| p_question := valueOf (clarificationInput f);
     p_email := valueOf (emailField f);
     p_managerEmail := valueOf (managerField f);
     p_clientEmail := valueOf (clientField f);
     p_ts := now |}.

(** [a || b] where [a] is absent or a string. *)
Definition either (a : option jsstring) (b : jsstring) : jsstring :=
  Pdf.or_else a b.

Definition crossMark : jsstring := [10060%N].

Definition pleaseEnter : jsstring :=
  crossMark ++ js " Please enter a question or description.".

Definition noReport : jsstring :=
  [9888; 65039]%N ++ js " No report returned. Please check backend logs.".

(** The handling of what [fetch] gave. *)
Definition display (r : FetchResult) : Display :=
  match r with
  | Rejected name msg =>
      TextContent (crossMark ++ js " Failed to contact backend: "
                   ++ (if truthy msg then msg else name))
  | Responded ok status data =>
      let d := match data with Some d => d | None => noData end in
      if negb ok then
        TextContent (crossMark ++ js " Server error: "
                     ++ either (d_error d) (String_of_int status))
      else
        match d_answer d with
        | Some a =>
            if truthy a then InnerHTML a
            else InnerHTML (either (d_reportText d) noReport)
        | None => InnerHTML (either (d_reportText d) noReport)
        end
  end.

(** A click on [generate]: [now] is [new Date().toISOString()], [fetch]
    is the request to [/ask].  Without the button there is no listener. *)
Definition click (f : Form) (now : jsstring)
  (fetch : Payload -> FetchResult) : option Outcome :=
  if negb (generateBtn f) then None
  else
    let payload := payloadOf f now in
    if negb (truthy (p_question payload)) then
      Some {| sent := None; shown := TextContent pleaseEnter |}
    else
      Some {| sent := Some payload; shown := display (fetch payload) |}.

(** The request body [bodyParser.json()] parses of the payload, which the
    handler sees when the middleware lets the request through (see
    [served]). *)
Definition requestOf (p : Payload) : Ask.Request :=
  {| Ask.question := Some (p_question p);
     Ask.email := Some (p_email p);
     Ask.managerEmail := Some (p_managerEmail p);
     Ask.clientEmail := Some (p_clientEmail p) |}.

(** The answer of the handler as [fetch] and [res.json()] give it to the
    script: [res.ok] is a status from 200 to 299. *)
Definition responseOf (r : Ask.Response) : FetchResult :=
  Responded ((200 <=? Ask.status r)%Z && (Ask.status r <=? 299)%Z)
    (Ask.status r)
    (Some match Ask.body r with
          | Ask.ErrorBody e =>
              {| d_error := Some e; d_answer := None; d_reportText := None |}
          | Ask.AnswerBody _ a _ =>
              {| d_error := None; d_answer := Some a; d_reportText := None |}
          end).

(** [bodyParser.json()], installed before the routes with its default
    options, refuses a body of more than 100kb (102400 bytes). *)
Definition bodyLimit : N := 102400.

(** What [fetch] gives when the body is refused: the error handler of
    express answers 413 with a page that is not JSON, so that [res.json()]
    fails and the script falls back on no data. *)
Definition tooLarge : FetchResult := Responded false 413 None.

(** The server behind [fetch]: the middleware, then the handler.
    [bodyBytes] is the length in bytes of the JSON body of the request. *)
Definition served (bodyBytes : Payload -> N)
  (handler : Ask.Request -> Ask.Response) (p : Payload) : FetchResult :=
  if (bodyLimit <? bodyBytes p)%N then tooLarge
  else responseOf (handler (requestOf p)).

(** A form with a question, a recipient and the button. *)
Definition sampleForm : Form :=
  {| clarification := None;
     topic := Some (js "  What is required? ");
     questionField := Some (js "ignored");
     emailField := Some (js "adviser@example.com");
     managerField := None;
     clientField := Some (js "  ");
     generateBtn := true |}.

(** The sample server behind [fetch]. *)
Definition sampleServer (p : Payload) : FetchResult :=
  responseOf
    (Ask.ask Samples.sampleLoad Samples.sampleSearch Samples.sampleChat
       Samples.monoWidth Samples.a4Width Samples.a4Height Samples.sampleSave
       Samples.sampleToBuffer Samples.failingSend (requestOf p)
       Samples.sampleWorld).

Definition sampleOutcome : Outcome :=
  {| sent := Some (payloadOf sampleForm Samples.sampleTs);
     shown := display (sampleServer (payloadOf sampleForm Samples.sampleTs)) |}.

(** The sample server behind its middleware, for bodies of 512 bytes. *)
Definition sampleBodyBytes (_ : Payload) : N := 512.

Definition sampleServed : Payload -> FetchResult :=
  served sampleBodyBytes
    (fun req =>
       Ask.ask Samples.sampleLoad Samples.sampleSearch Samples.sampleChat
         Samples.monoWidth Samples.a4Width Samples.a4Height Samples.sampleSave
         Samples.sampleToBuffer Samples.failingSend req Samples.sampleWorld).

Definition sampleServedOutcome : Outcome :=
  {| sent := Some (payloadOf sampleForm Samples.sampleTs);
     shown := display (sampleServed (payloadOf sampleForm Samples.sampleTs)) |}.

End Client.

(* ================================================================== *)
(** * Predicates used in further statements *)
(* ================================================================== *)

Module Shape.

(** The code units [sanitizeForPdf] keeps that are not whitespace, and the
    space. *)
Definition printable (c : N) : bool :=
  (((32 <=? c) && (c <=? 126)) || (c =? 163) || (c =? 8211) || (c =? 8212))%N.

(** Every piece but the first one is non-empty. *)
Definition tail_nonempty (pieces : list jsstring) : Prop :=
  Forall (fun p => p <> []) (tl pieces).

(** [page.drawText(r, { x, y, size, font })] as a record. *)
Definition rowOp (r : jsstring) (x yy size : Q) (font : Pdf.Font)
  : Pdf.DrawOp :=
  {| Pdf.op_text := r; Pdf.op_x := x; Pdf.op_y := yy; Pdf.op_size := size;
     Pdf.op_font := font |}.

(** The style of every text but the title. *)
Definition body_style (o : Pdf.DrawOp) : Prop :=
  Pdf.op_x o = Pdf.margin /\ Pdf.op_size o = Pdf.fsBody
  /\ Pdf.op_font o = Pdf.Helvetica.

(** No two adjacent spaces. *)
Fixpoint no_double_space (s : jsstring) : Prop :=
  match s with
  | [] => True
  | c :: rest =>
      match rest with
      | [] => True
      | d :: _ => ~ (c = 32%N /\ d = 32%N) /\ no_double_space rest
      end
  end.

(** Does [/8\)\s*Appendix/i] match somewhere in [s]? *)
Fixpoint has_appendix (s : jsstring) : bool :=
  match s with
  | [] => false
  | _ :: s' => Report.appendix_here s || has_appendix s'
  end.

(** The last code unit, if any. *)
Definition last_code (s : jsstring) : option N :=
  match rev s with
  | [] => None
  | c :: _ => Some c
  end.

(** The first code unit, if any. *)
Definition first_code (s : jsstring) : option N :=
  match s with
  | [] => None
  | c :: _ => Some c
  end.

(** The last code unit, if there is one, is not whitespace. *)
Fixpoint no_trailing_space (s : jsstring) : Prop :=
  match s with
  | [] => True
  | c :: rest =>
      match rest with
      | [] => is_space c = false
      | _ :: _ => no_trailing_space rest
      end
  end.

(** The first line of the footer [generateECMAssistant] writes. *)
Definition ownFooterLine : jsstring := hd [] Report.boilerplate.

(** An address of the request that is kept as a recipient: one that is
    present and not empty. *)
Definition kept (e : option jsstring) : list jsstring :=
  match e with
  | Some a => if truthy a then [a] else []
  | None => []
  end.

End Shape.
Import Shape.

(* ================================================================== *)
(** * Properties of binary64 rounding *)
(* ================================================================== *)

Lemma pow2_pos (e : Z) : 0 < Float64.pow2 e.
Proof. apply Qpower_0_lt. reflexivity. Qed.

Lemma pow2_add (a b : Z) :
  Float64.pow2 (a + b) == Float64.pow2 a * Float64.pow2 b.
Proof. apply Qpower_plus. discriminate. Qed.

Lemma pow2_le (a b : Z) : (a <= b)%Z -> Float64.pow2 a <= Float64.pow2 b.
Proof. intro H. apply Qpower_le_compat_l; [exact H | discriminate]. Qed.

Lemma pow2_Z (n : Z) : (0 <= n)%Z -> Float64.pow2 n == inject_Z (2 ^ n).
Proof.
  intro H. unfold Float64.pow2. now rewrite Zpower_Qpower by exact H.
Qed.

Lemma pow2_split (k e : Z) :
  (e <= k)%Z -> Float64.pow2 k == inject_Z (2 ^ (k - e)) * Float64.pow2 e.
Proof.
  intro H. rewrite <- pow2_Z by lia. rewrite <- pow2_add.
  now replace (k - e + e)%Z with k by lia.
Qed.

Lemma ilog2_spec (x : Q) :
  0 < x ->
  Float64.pow2 (Float64.ilog2 x) <= x
  /\ x < Float64.pow2 (Float64.ilog2 x + 1).
Proof.
  intro Hx. unfold Float64.ilog2.
  destruct x as [n d]. simpl Qnum. simpl Qden.
  assert (Hn : (0 < n)%Z).
  { unfold Qlt in Hx. simpl in Hx. lia. }
  set (a := Z.log2 n). set (b := Z.log2 (Zpos d)).
  destruct (Z.log2_spec n Hn) as [Ha1 Ha2]. fold a in Ha1, Ha2.
  destruct (Z.log2_spec (Zpos d) (eq_refl : (0 < Zpos d)%Z)) as [Hb1 Hb2].
  fold b in Hb1, Hb2.
  assert (Ha0 : (0 <= a)%Z) by apply Z.log2_nonneg.
  assert (Hb0 : (0 <= b)%Z) by apply Z.log2_nonneg.
  assert (Hd : 0 < inject_Z (Zpos d)) by reflexivity.
  assert (Hq : n # d == inject_Z n / inject_Z (Zpos d)) by apply Qmake_Qdiv.
  assert (Hup : n # d < Float64.pow2 (a - b + 1)).
  { rewrite Hq. apply Qlt_shift_div_r; [exact Hd|].
    apply Qlt_le_trans with (inject_Z (2 ^ Z.succ a)).
    - rewrite <- Zlt_Qlt. exact Ha2.
    - rewrite <- pow2_Z by lia.
      replace (Z.succ a) with (a - b + 1 + b)%Z by lia.
      rewrite pow2_add. apply Qmult_le_l; [apply pow2_pos|].
      rewrite pow2_Z by lia. rewrite <- Zle_Qle. exact Hb1. }
  assert (Hlow : Float64.pow2 (a - b - 1) <= n # d).
  { rewrite Hq. apply Qle_shift_div_l; [exact Hd|].
    apply Qle_trans with (inject_Z (2 ^ a)).
    - rewrite <- pow2_Z by lia.
      replace a with (a - b - 1 + Z.succ b)%Z at 2 by lia.
      rewrite pow2_add. apply Qmult_le_l; [apply pow2_pos|].
      rewrite pow2_Z by lia. rewrite <- Zle_Qle. lia.
    - rewrite <- Zle_Qle. exact Ha1. }
  destruct (Qle_bool (Float64.pow2 (a - b)) (n # d)) eqn:E.
  - apply Qle_bool_iff in E. split; [exact E | exact Hup].
  - split; [exact Hlow|].
    replace (a - b - 1 + 1)%Z with (a - b)%Z by lia.
    apply Qnot_le_lt. intro H. apply Qle_bool_iff in H. congruence.
Qed.

Lemma ilog2_mono (x y : Q) :
  0 < x -> x <= y -> (Float64.ilog2 x <= Float64.ilog2 y)%Z.
Proof.
  intros Hx Hxy.
  assert (Hy : 0 < y) by (eapply Qlt_le_trans; eassumption).
  destruct (ilog2_spec Hx) as [Hx1 _].
  destruct (ilog2_spec Hy) as [_ Hy2].
  destruct (Z_le_gt_dec (Float64.ilog2 x) (Float64.ilog2 y)) as [H|H];
    [exact H|].
  exfalso.
  assert (Hp : Float64.pow2 (Float64.ilog2 y + 1)
               <= Float64.pow2 (Float64.ilog2 x)) by (apply pow2_le; lia).
  apply (Qlt_irrefl y).
  eapply Qlt_le_trans; [exact Hy2|].
  eapply Qle_trans; [exact Hp|].
  eapply Qle_trans; [exact Hx1 | exact Hxy].
Qed.

Lemma rne_bounds (t : Q) :
  (Qfloor t <= Float64.rne t <= Qfloor t + 1)%Z.
Proof.
  unfold Float64.rne.
  destruct (Qcompare (t - inject_Z (Qfloor t)) (1 # 2));
    [destruct (Z.even (Qfloor t))| |]; lia.
Qed.

Lemma rne_ge (c : Z) (t : Q) : inject_Z c <= t -> (c <= Float64.rne t)%Z.
Proof.
  intro H. apply Qfloor_resp_le in H. rewrite Qfloor_Z in H.
  pose proof (rne_bounds t). lia.
Qed.

Lemma rne_le (c : Z) (t : Q) : t <= inject_Z c -> (Float64.rne t <= c)%Z.
Proof.
  intro H.
  assert (Hf : (Qfloor t <= c)%Z).
  { apply Qfloor_resp_le in H. now rewrite Qfloor_Z in H. }
  destruct (Z.eq_dec (Qfloor t) c) as [E|E].
  - unfold Float64.rne.
    destruct (Qcompare_spec (t - inject_Z (Qfloor t)) (1 # 2)) as [H1|H1|H1];
      [exfalso | lia | exfalso]; rewrite E in H1; lra.
  - pose proof (rne_bounds t). lia.
Qed.

Lemma rne_mono (t u : Q) : t <= u -> (Float64.rne t <= Float64.rne u)%Z.
Proof.
  intro H.
  pose proof (Qfloor_resp_le _ _ H) as Hf.
  destruct (Z.eq_dec (Qfloor t) (Qfloor u)) as [E|E].
  - unfold Float64.rne. rewrite <- E.
    destruct (Qcompare_spec (t - inject_Z (Qfloor t)) (1 # 2)) as [H1|H1|H1];
      destruct (Qcompare_spec (u - inject_Z (Qfloor t)) (1 # 2)) as [H2|H2|H2];
      try (exfalso; lra); destruct (Z.even (Qfloor t)); lia.
  - pose proof (rne_bounds t). pose proof (rne_bounds u). lia.
Qed.

Lemma round_pos_mono (x y : Q) :
  0 < x -> x <= y -> Float64.round_pos x <= Float64.round_pos y.
Proof.
  intros Hx Hxy.
  assert (Hy : 0 < y) by (eapply Qlt_le_trans; eassumption).
  pose proof (ilog2_mono Hx Hxy) as Hk.
  unfold Float64.round_pos, Float64.ulp_exp.
  set (kx := Float64.ilog2 x) in *. set (ky := Float64.ilog2 y) in *.
  set (ex := Z.max (kx - 52) (-1074)). set (ey := Z.max (ky - 52) (-1074)).
  assert (He : (ex <= ey)%Z) by (unfold ex, ey; lia).
  destruct (Z.eq_dec ex ey) as [E|E].
  - rewrite <- E. apply Qmult_le_compat_r; [|apply Qlt_le_weak, pow2_pos].
    rewrite <- Zle_Qle. apply rne_mono.
    apply Qmult_le_compat_r; [exact Hxy|].
    apply Qlt_le_weak, Qinv_lt_0_compat, pow2_pos.
  - assert (Hey : ey = (ky - 52)%Z) by (unfold ex, ey in *; lia).
    assert (Hkk : (kx + 1 <= ky)%Z) by (unfold ex, ey in *; lia).
    destruct (ilog2_spec Hx) as [_ Hx2]. fold kx in Hx2.
    destruct (ilog2_spec Hy) as [Hy1 _]. fold ky in Hy1.
    apply Qle_trans with (Float64.pow2 ky).
    + rewrite (@pow2_split ky ex) by lia.
      apply Qmult_le_compat_r; [|apply Qlt_le_weak, pow2_pos].
      rewrite <- Zle_Qle. apply rne_le.
      apply Qle_shift_div_r; [apply pow2_pos|].
      rewrite <- pow2_split by lia.
      apply Qlt_le_weak. eapply Qlt_le_trans; [exact Hx2|].
      apply pow2_le. lia.
    + rewrite (@pow2_split ky ey) at 1 by lia.
      apply Qmult_le_compat_r; [|apply Qlt_le_weak, pow2_pos].
      rewrite <- Zle_Qle. apply rne_ge.
      apply Qle_shift_div_l; [apply pow2_pos|].
      rewrite <- pow2_split by lia. exact Hy1.
Qed.

Lemma round_pos_nonneg (x : Q) : 0 < x -> 0 <= Float64.round_pos x.
Proof.
  intro Hx. unfold Float64.round_pos.
  apply Qmult_le_0_compat; [|apply Qlt_le_weak, pow2_pos].
  change 0 with (inject_Z 0). rewrite <- Zle_Qle. apply rne_ge.
  apply Qle_shift_div_l; [apply pow2_pos|].
  change (inject_Z 0) with 0. rewrite Qmult_0_l. now apply Qlt_le_weak.
Qed.

(** Rounding to binary64 is monotone (on the non-negative numbers). *)
Lemma round_mono (x y : Q) :
  0 <= x -> x <= y -> Float64.round x <= Float64.round y.
Proof.
  intros Hx Hxy. unfold Float64.round.
  destruct (Qcompare_spec x 0) as [H1|H1|H1];
    destruct (Qcompare_spec y 0) as [H2|H2|H2]; try (exfalso; lra).
  - apply Qle_refl.
  - now apply round_pos_nonneg.
  - now apply round_pos_mono.
Qed.

(** The line height of the program, [11 * 1.4], is the binary64 value
    15.399999999999998578..., just below 15.4. *)
Example lh_value :
  Qred Pdf.lh = 2167357320672051 # 140737488355328 /\ Pdf.lh < 154 # 10.
Proof. split; [vm_compute; reflexivity | reflexivity]. Qed.

(** Rounding shows in the random suffix: for the value 0.45566666666666666
    of [Math.random()] the product rounds up to 4101, and the suffix is 5101
    where exact arithmetic would give 5100. *)
Example randomPart_rounds :
  Report.randomPart (513035057551289 # 1125899906842624) = 5101%Z
  /\ Qfloor (1000 + (513035057551289 # 1125899906842624) * 9000) = 5100%Z.
Proof. split; vm_compute; reflexivity. Qed.

(* ================================================================== *)
(** * Properties of the word wrapper *)
(* ================================================================== *)

Import Pdf.

Lemma Qltb_spec (a b : Q) : Qltb a b = true <-> a < b.
Proof.
  unfold Qltb. rewrite negb_true_iff. split; intro H.
  - apply Qnot_le_lt. intro Hle. apply Qle_bool_iff in Hle. congruence.
  - destruct (Qle_bool b a) eqn:E; [|reflexivity].
    apply Qle_bool_iff in E. exfalso. exact (Qlt_not_le _ _ H E).
Qed.

Lemma Qltb_false (a b : Q) : Qltb a b = false <-> b <= a.
Proof.
  unfold Qltb. rewrite negb_false_iff. apply Qle_bool_iff.
Qed.

Lemma split_ws_from_nonempty (b : bool) (s : jsstring) :
  split_ws_from b s <> [].
Proof.
  revert b. induction s as [|c s IH]; intros b; simpl; [discriminate|].
  destruct (is_space c).
  - destruct b; [apply IH | discriminate].
  - destruct (split_ws_from false s); discriminate.
Qed.

Section WrapFits.
Variable widthOf : Font -> jsstring -> Q -> Q.
Variables (maxWidth size : Q) (font : Font).
Variable words : list jsstring.

Local Abbreviation acceptable :=
  (Statements.acceptable widthOf maxWidth size font words).

Lemma word_acceptable (w : jsstring) : In w words -> acceptable w.
Proof.
  intro Hin. unfold Statements.acceptable.
  destruct (Qlt_le_dec maxWidth (widthOf font w size)); auto.
Qed.

Lemma wrap_step_acceptable acc w :
  In w words ->
  Forall acceptable (fst acc) ->
  (snd acc = [] \/ acceptable (snd acc)) ->
  Forall acceptable (fst (wrap_step widthOf maxWidth size font acc w))
  /\ acceptable (snd (wrap_step widthOf maxWidth size font acc w)).
Proof.
  destruct acc as [rows cur]. simpl. intros Hw Hrows Hcur.
  destruct cur as [|c cur]; simpl.
  - rewrite andb_false_r. simpl. split; [assumption|].
    now apply word_acceptable.
  - rewrite andb_true_r.
    destruct (Qltb maxWidth (widthOf font (c :: cur ++ 32%N :: w) size))
      eqn:E; simpl.
    + split; [|now apply word_acceptable].
      apply Forall_app. split; [assumption|].
      constructor; [|constructor].
      destruct Hcur as [Hnil|Hacc]; [discriminate | assumption].
    + split; [assumption|]. left. now apply Qltb_false.
Qed.

Lemma wrap_loop_acceptable ws acc :
  incl ws words ->
  Forall acceptable (fst acc) ->
  acceptable (snd acc) ->
  let out := fold_left (wrap_step widthOf maxWidth size font) ws acc in
  Forall acceptable (fst out) /\ acceptable (snd out).
Proof.
  revert acc. induction ws as [|w ws IH]; intros acc Hincl Hrows Hcur.
  - simpl. auto.
  - simpl.
    destruct (@wrap_step_acceptable acc w) as [H1 H2]; auto.
    + apply Hincl. now left.
    + apply IH; auto. intros v Hv. apply Hincl. now right.
Qed.
End WrapFits.

Lemma wrap_rows_acceptable
  (widthOf : Font -> jsstring -> Q -> Q) (txt : jsstring)
  (x maxWidth size : Q) (font : Font) :
  Forall (fun r =>
            widthOf font r size <= maxWidth
            \/ (In r (split_ws txt) /\ maxWidth < widthOf font r size))
    (wrap widthOf txt x maxWidth size font).
Proof.
  unfold wrap.
  destruct (split_ws txt) as [|w ws] eqn:Hsplit.
  - exfalso. exact (split_ws_from_nonempty false txt Hsplit).
  - change (fold_left (wrap_step widthOf maxWidth size font) (w :: ws) ([], []))
      with (fold_left (wrap_step widthOf maxWidth size font) ws
              (wrap_step widthOf maxWidth size font ([], []) w)).
    assert (Hw : In w (w :: ws)) by now left.
    destruct (@wrap_step_acceptable widthOf maxWidth size font (w :: ws)
                ([], []) w Hw (Forall_nil _) (or_introl eq_refl)) as [H1 H2].
    destruct (@wrap_loop_acceptable widthOf maxWidth size font (w :: ws) ws
                (wrap_step widthOf maxWidth size font ([], []) w))
      as [H3 H4]; auto.
    { intros v Hv. now right. }
    destruct (fold_left _ ws _) as [rows cur]. simpl in H3, H4.
    apply Forall_app. split; [exact H3|]. constructor; [exact H4|constructor].
Qed.

(** A word wider than the maximum width is given a row of its own. *)
Example wrap_oversized_word_alone :
  wrap Samples.monoWidth (js "aa bb cc dddddddd e") 50 30 11 Helvetica
  = [js "aa bb"; js "cc"; js "dddddddd"; js "e"].
Proof. vm_compute. reflexivity. Qed.

(* ------------------------------------------------------------------ *)
(** ** Rows and words *)

Lemma join_cons (sep x : jsstring) (l : list jsstring) :
  l <> [] -> join sep (x :: l) = x ++ sep ++ join sep l.
Proof.
  destruct l; [congruence | reflexivity].
Qed.

Lemma join_glue (sep a b : jsstring) (rows ws : list jsstring) :
  join sep (rows ++ (a ++ sep ++ b) :: ws) = join sep (rows ++ a :: b :: ws).
Proof.
  induction rows as [|r rows IH].
  - simpl app. rewrite (@join_cons sep a (b :: ws)) by discriminate.
    destruct ws as [|z ws].
    + reflexivity.
    + rewrite !join_cons by discriminate. now rewrite <- !app_assoc.
  - simpl app. rewrite !join_cons by (destruct rows; discriminate).
    now rewrite IH.
Qed.

Lemma inner_nonempty_tail (p : jsstring) (rest : list jsstring) :
  inner_nonempty (p :: rest) -> inner_nonempty rest.
Proof.
  destruct rest; simpl; tauto.
Qed.

Lemma inner_nonempty_head (p : jsstring) (rest : list jsstring) :
  inner_nonempty (p :: rest) -> rest = [] \/ p <> [].
Proof.
  destruct rest; simpl; [now left | tauto].
Qed.

Lemma inner_nonempty_cons (p : jsstring) (rest : list jsstring) :
  p <> [] -> inner_nonempty rest -> inner_nonempty (p :: rest).
Proof.
  destruct rest; simpl; tauto.
Qed.

Lemma split_ws_from_inner (s : jsstring) :
  inner_nonempty (split_ws_from true s)
  /\ inner_nonempty (tl (split_ws_from false s)).
Proof.
  induction s as [|c s [IHt IHf]]; simpl; [tauto|].
  destruct (is_space c); simpl.
  - tauto.
  - destruct (split_ws_from false s) as [|piece rest] eqn:E; simpl in *.
    + tauto.
    + split; [|assumption].
      apply inner_nonempty_cons; [discriminate | assumption].
Qed.

Lemma split_ws_inner (s : jsstring) :
  starts_with_space s = false -> inner_nonempty (split_ws s).
Proof.
  unfold split_ws. destruct s as [|c s]; simpl; [tauto|].
  intros ->.
  destruct (split_ws_from_inner s) as [_ Hf].
  destruct (split_ws_from false s) as [|piece rest]; simpl in *; [tauto|].
  apply inner_nonempty_cons; [discriminate | assumption].
Qed.

Section WrapJoin.
Variable widthOf : Font -> jsstring -> Q -> Q.
Variables (maxWidth size : Q) (font : Font).

Local Abbreviation step := (wrap_step widthOf maxWidth size font).

Lemma wrap_loop_join ws : forall rows cur,
  cur <> [] ->
  inner_nonempty ws ->
  join space (rows_of (fold_left step ws (rows, cur)))
  = join space (rows ++ cur :: ws).
Proof.
  induction ws as [|w ws IH]; intros rows cur Hcur Hws.
  - reflexivity.
  - change (fold_left step (w :: ws) (rows, cur))
      with (fold_left step ws (step (rows, cur) w)).
    assert (Hstep :
      step (rows, cur) w = (rows ++ [cur], w)
      \/ step (rows, cur) w = (rows, cur ++ space ++ w)).
    { unfold wrap_step. destruct cur as [|c cur]; [congruence|]. simpl.
      destruct (Qltb _ _); simpl; auto. }
    pose proof (inner_nonempty_tail _ _ Hws) as Htail.
    destruct Hstep as [-> | ->].
    + destruct (inner_nonempty_head _ _ Hws) as [-> | Hw].
      * simpl. unfold rows_of. simpl. now rewrite <- app_assoc.
      * rewrite IH by assumption. now rewrite <- app_assoc.
    + rewrite IH; [apply join_glue | | assumption].
      destruct cur; [congruence | discriminate].
Qed.
End WrapJoin.

Lemma wrap_rows_of (widthOf : Font -> jsstring -> Q -> Q) (txt : jsstring)
  (x maxWidth size : Q) (font : Font) :
  wrap widthOf txt x maxWidth size font
  = rows_of (fold_left (wrap_step widthOf maxWidth size font)
               (split_ws txt) ([], [])).
Proof.
  unfold wrap, rows_of. now destruct (fold_left _ _ _).
Qed.

Lemma join_snoc (sep w : jsstring) (g : list jsstring) :
  g <> [] -> join sep (g ++ [w]) = join sep g ++ sep ++ w.
Proof.
  induction g as [|a g IH]; [congruence|]. intros _.
  destruct g as [|b g]; [reflexivity|].
  change ((a :: b :: g) ++ [w]) with (a :: ((b :: g) ++ [w])).
  rewrite (@join_cons sep a ((b :: g) ++ [w])) by discriminate.
  rewrite (@join_cons sep a (b :: g)) by discriminate.
  rewrite IH by discriminate. now rewrite <- !app_assoc.
Qed.

Lemma join_singleton_nonempty (sep w : jsstring) (g : list jsstring) :
  join sep g <> [] -> join sep (g ++ [w]) <> [].
Proof.
  intro H. destruct g as [|a g]; [now elim H|].
  rewrite join_snoc by discriminate.
  destruct (join sep (a :: g)); [now elim H | discriminate].
Qed.

Section WrapGroups.
Variable widthOf : Font -> jsstring -> Q -> Q.
Variables (maxWidth size : Q) (font : Font).

Local Abbreviation step := (wrap_step widthOf maxWidth size font).
Local Abbreviation ok := (fits_or_alone widthOf maxWidth size font).

Lemma single_ok (w : jsstring) : ok [w].
Proof.
  unfold fits_or_alone. simpl.
  destruct (Qlt_le_dec maxWidth (widthOf font w size)); [right | left; auto].
  now exists w.
Qed.

(** The loop of [wrap], from the rows of the groups [gs] and the current
    row of the group [g]: the rows it ends with are those of groups that
    hold, in order, the tokens of [gs], of [g] and the remaining ones. *)
Lemma wrap_loop_groups ws : forall gs g,
  join space g <> [] ->
  inner_nonempty ws ->
  Forall ok gs ->
  Forall (fun g => g <> []) gs ->
  ((exists w, g = [w]) \/ widthOf font (join space g) size <= maxWidth) ->
  exists groups,
    rows_of (fold_left step ws (List.map (join space) gs, join space g))
    = List.map (join space) groups
    /\ List.concat groups = List.concat gs ++ g ++ ws
    /\ Forall ok groups
    /\ Forall (fun g => g <> []) groups.
Proof.
  induction ws as [|w ws IH]; intros gs g Hcur Hws Hgs Hne Hg.
  - exists (gs ++ [g]). unfold rows_of. simpl.
    assert (Hgne : g <> []) by (intros ->; now elim Hcur).
    split; [now rewrite map_app|].
    split; [rewrite concat_app; simpl; now rewrite !app_nil_r|].
    split; apply Forall_app; (split; [assumption|]);
      (constructor; [|constructor]); [|exact Hgne].
    destruct Hg as [[w ->] | Hfit]; [apply single_ok | now left].
  - change (fold_left step (w :: ws) (List.map (join space) gs, join space g))
      with (fold_left step ws
              (step (List.map (join space) gs, join space g) w)).
    assert (Hgne : g <> []) by (intros ->; now elim Hcur).
    assert (Hok : ok g).
    { destruct Hg as [[v ->] | Hfit]; [apply single_ok | now left]. }
    assert (Hstep :
      step (List.map (join space) gs, join space g) w
      = (List.map (join space) (gs ++ [g]), w)
      \/ (step (List.map (join space) gs, join space g) w
          = (List.map (join space) gs, join space (g ++ [w]))
          /\ widthOf font (join space (g ++ [w])) size <= maxWidth)).
    { unfold wrap_step. rewrite join_snoc by exact Hgne.
      destruct (join space g) as [|c cur] eqn:Ecur; [now elim Hcur|].
      cbn [truthy]. rewrite andb_true_r.
      destruct (Qltb maxWidth (widthOf font ((c :: cur) ++ [32%N] ++ w) size))
        eqn:E.
      - left. rewrite map_app. simpl. now rewrite Ecur.
      - right. split; [reflexivity|]. now apply Qltb_false in E. }
    pose proof (inner_nonempty_tail _ _ Hws) as Htail.
    destruct Hstep as [-> | [-> Hfit]].
    + destruct (inner_nonempty_head _ _ Hws) as [-> | Hw].
      * exists (gs ++ [g] ++ [[w]]). unfold rows_of. simpl.
        split; [rewrite !map_app; simpl; now rewrite <- !app_assoc|].
        split; [rewrite !concat_app; reflexivity|].
        split; apply Forall_app; (split; [assumption|]);
          (constructor; [|constructor; [|constructor]]);
          [exact Hok | apply single_ok | exact Hgne | discriminate].
      * destruct (IH (gs ++ [g]) [w]) as (groups & H1 & H2 & H3 & H4).
        -- exact Hw.
        -- exact Htail.
        -- apply Forall_app. split; [assumption|]. now constructor.
        -- apply Forall_app. split; [assumption|]. now constructor.
        -- left. now exists w.
        -- exists groups. split; [exact H1|]. split; [|now split].
           rewrite H2, concat_app. simpl. now rewrite app_nil_r, <- !app_assoc.
    + destruct (IH gs (g ++ [w])) as (groups & H1 & H2 & H3 & H4).
      * now apply join_singleton_nonempty.
      * exact Htail.
      * assumption.
      * assumption.
      * now right.
      * exists groups. split; [exact H1|]. split; [|now split].
        rewrite H2. now rewrite <- !app_assoc.
Qed.

Lemma wrap_step_first (w : jsstring) : step ([], []) w = ([], w).
Proof.
  unfold wrap_step. simpl. now rewrite andb_false_r.
Qed.

(** The rows of [wrap] are those of groups of the committed tokens. *)
Lemma wrap_groups (txt : jsstring) (x : Q) :
  exists groups,
    wrap widthOf txt x maxWidth size font = List.map (join space) groups
    /\ List.concat groups = committed txt
    /\ Forall ok groups
    /\ Forall (fun g => g <> []) groups.
Proof.
  rewrite wrap_rows_of. unfold committed.
  destruct (split_ws_from_inner txt) as [_ Htl]. fold (split_ws txt) in Htl.
  assert (Hfrom : forall w ws, inner_nonempty (w :: ws) ->
            exists groups,
              rows_of (fold_left step ws ([], w))
              = List.map (join space) groups
              /\ List.concat groups = w :: ws
              /\ Forall ok groups
              /\ Forall (fun g => g <> []) groups).
  { intros w ws Hin.
    destruct (inner_nonempty_head _ _ Hin) as [-> | Hw].
    - exists [[w]]. split; [reflexivity|]. split; [reflexivity|].
      split; (constructor; [|constructor]); [apply single_ok | discriminate].
    - destruct (@wrap_loop_groups ws [] [w]) as (groups & H1 & H2 & H3 & H4).
      + exact Hw.
      + exact (inner_nonempty_tail _ _ Hin).
      + constructor.
      + constructor.
      + left. now exists w.
      + exists groups. split; [exact H1|]. split; [exact H2 | now split]. }
  destruct (split_ws txt) as [|w ws] eqn:Hsplit.
  - exfalso. exact (split_ws_from_nonempty false txt Hsplit).
  - change (fold_left step (w :: ws) ([], []))
      with (fold_left step ws (step ([], []) w)).
    rewrite wrap_step_first. simpl in Htl.
    destruct w as [|c w].
    + destruct ws as [|w2 ws].
      * exists [[[]]]. split; [reflexivity|]. split; [reflexivity|].
        split; (constructor; [|constructor]); [apply single_ok | discriminate].
      * change (fold_left step (w2 :: ws) ([], []))
          with (fold_left step ws (step ([], []) w2)).
        rewrite wrap_step_first. now apply Hfrom.
    + apply Hfrom. apply inner_nonempty_cons; [discriminate | exact Htl].
Qed.

Lemma width_of_member (g : list jsstring) :
  monotone widthOf size font ->
  forall w, In w g -> widthOf font w size <= widthOf font (join space g) size.
Proof.
  intro Hmono. induction g as [|a g IH]; intros w Hin; [destruct Hin|].
  destruct g as [|b g].
  - destruct Hin as [-> | []]. apply Qle_refl.
  - rewrite (@join_cons space a (b :: g)) by discriminate.
    destruct (Hmono a (join space (b :: g))) as [Ha Hb].
    destruct Hin as [-> | Hin]; [exact Ha|].
    eapply Qle_trans; [apply IH; exact Hin | exact Hb].
Qed.

Lemma wide_token_alone (g : list jsstring) :
  monotone widthOf size font -> ok g ->
  forall w, In w g -> maxWidth < widthOf font w size -> g = [w].
Proof.
  intros Hmono [Hfit | [v [-> _]]] w Hin Hwide.
  - exfalso. pose proof (@width_of_member g Hmono w Hin) as H.
    apply (Qlt_irrefl maxWidth).
    eapply Qlt_le_trans; [exact Hwide|]. eapply Qle_trans; eassumption.
  - destruct Hin as [-> | []]. reflexivity.
Qed.
End WrapGroups.

(** C1. Every row [wrap] returns has measured width at most [maxWidth],
    unless the row is exactly one token of the input whose own measured
    width exceeds [maxWidth].  The rows are made of whole tokens: there are
    groups of tokens which, one after the other, are the tokens [wrap]
    commits (none lost, none split, none repeated), each row is the tokens of
    its group joined by single spaces, no group is empty, and a group either
    fits or is one token that is too wide alone.  Under a measurement that
    does not shrink when text is added, every token that is too wide alone
    has a row to itself.  [wrap] is a total function: there is no input on
    which it fails. *)
Theorem wrap_rows_fit_or_single_word
  (widthOf : Font -> jsstring -> Q -> Q) (txt : jsstring)
  (x maxWidth size : Q) (font : Font) :
  Forall (fun r =>
            widthOf font r size <= maxWidth
            \/ (In r (split_ws txt) /\ maxWidth < widthOf font r size))
    (wrap widthOf txt x maxWidth size font)
  /\ exists groups : list (list jsstring),
       wrap widthOf txt x maxWidth size font = List.map (join space) groups
       /\ List.concat groups = committed txt
       /\ Forall (fun g => g <> []) groups
       /\ Forall (fun g =>
                    widthOf font (join space g) size <= maxWidth
                    \/ exists w, g = [w] /\ maxWidth < widthOf font w size)
            groups
       /\ (monotone widthOf size font ->
           Forall (fun g =>
                     forall w, In w g -> maxWidth < widthOf font w size ->
                               g = [w])
             groups).
Proof.
  split; [apply wrap_rows_acceptable|].
  destruct (@wrap_groups widthOf maxWidth size font txt x)
    as (groups & H1 & H2 & H3 & H4).
  exists groups. split; [exact H1|]. split; [exact H2|].
  split; [exact H4|]. split; [exact H3|].
  intro Hmono. rewrite Forall_forall in *. intros g Hg.
  apply wide_token_alone; [exact Hmono | now apply H3].
Qed.

Lemma monoWidth_monotone : monotone Samples.monoWidth 11 Helvetica.
Proof.
  intros a b. unfold Samples.monoWidth.
  rewrite !length_app, !Nat2Z.inj_add, !inject_Z_plus.
  change (inject_Z (Z.of_nat (List.length space))) with 1.
  pose proof (Nat2Z.is_nonneg (List.length a)) as Ha.
  pose proof (Nat2Z.is_nonneg (List.length b)) as Hb.
  rewrite Zle_Qle in Ha, Hb. change (inject_Z 0) with 0 in Ha, Hb.
  set (la := inject_Z (Z.of_nat (List.length a))) in *.
  set (lb := inject_Z (Z.of_nat (List.length b))) in *.
  clearbody la lb.
  split; unfold Qdiv; (apply Qmult_le_compat_r; [lra | discriminate]).
Qed.

Lemma wrap_rows_fit_or_single_word_witness :
  exists groups : list (list jsstring),
    wrap Samples.monoWidth (js "aa bb cc dddddddd e") 50 30 11 Helvetica
    = List.map (join space) groups
    /\ List.concat groups = [js "aa"; js "bb"; js "cc"; js "dddddddd"; js "e"]
    /\ Forall (fun g =>
                 forall w, In w g -> 30 < Samples.monoWidth Helvetica w 11 ->
                           g = [w])
         groups.
Proof.
  destruct (@wrap_rows_fit_or_single_word Samples.monoWidth
              (js "aa bb cc dddddddd e") 50 30 11 Helvetica)
    as (_ & groups & H1 & H2 & _ & _ & H5).
  exists groups. split; [exact H1|]. split; [exact H2|].
  apply H5. exact monoWidth_monotone.
Defined.

(** C5, as the specification states it, fails: of the line [" a "], whose
    tokens are the empty one, [a] and the empty one, [wrap] drops the empty
    first token, so its rows rejoin to ["a "] and not to [" a "]. *)
Lemma wrap_drops_leading_empty_token :
  ~ (forall (widthOf : Font -> jsstring -> Q -> Q) (txt : jsstring)
       (x maxWidth size : Q) (font : Font),
        join space (wrap widthOf txt x maxWidth size font)
        = join space (split_ws txt)).
Proof.
  intro H.
  specialize (H Samples.monoWidth (js " a ") 50 100 11 Helvetica).
  vm_compute in H. discriminate H.
Qed.

Lemma wrap_join_tokens
  (widthOf : Font -> jsstring -> Q -> Q) (txt : jsstring)
  (x maxWidth size : Q) (font : Font) :
  starts_with_space txt = false ->
  join space (wrap widthOf txt x maxWidth size font)
  = join space (split_ws txt).
Proof.
  intro Hlead. rewrite wrap_rows_of.
  pose proof (split_ws_inner txt Hlead) as Hinner.
  destruct (split_ws txt) as [|w ws] eqn:Hsplit.
  - exfalso. exact (split_ws_from_nonempty false txt Hsplit).
  - change (fold_left (wrap_step widthOf maxWidth size font) (w :: ws) ([], []))
      with (fold_left (wrap_step widthOf maxWidth size font) ws
              (wrap_step widthOf maxWidth size font ([], []) w)).
    assert (Hfirst : wrap_step widthOf maxWidth size font ([], []) w = ([], w)).
    { unfold wrap_step. simpl. now rewrite andb_false_r. }
    rewrite Hfirst.
    destruct (inner_nonempty_head _ _ Hinner) as [-> | Hw].
    + reflexivity.
    + rewrite wrap_loop_join; [reflexivity | assumption |].
      exact (inner_nonempty_tail _ _ Hinner).
Qed.

(** C5 (amended). For every input line that does not begin with whitespace
    (as every text [para] hands to [wrap], which is trimmed), every maximum
    width and every measurement function, the rows of [wrap] joined with
    single spaces, in order, are the tokens of [split(/\s+/)] joined with
    single spaces. *)
Theorem wrap_join_words
  (widthOf : Font -> jsstring -> Q -> Q) (txt : jsstring)
  (x maxWidth size : Q) (font : Font) :
  starts_with_space txt = false ->
  join space (wrap widthOf txt x maxWidth size font)
  = join space (split_ws txt).
Proof.
  exact (@wrap_join_tokens widthOf txt x maxWidth size font).
Qed.

Lemma wrap_join_words_witness :
  join space (wrap Samples.monoWidth (js "aa bb cc dddddddd e") 50 30 11 Helvetica)
  = join space (split_ws (js "aa bb cc dddddddd e")).
Proof.
  apply (@wrap_join_words Samples.monoWidth (js "aa bb cc dddddddd e")
           50 30 11 Helvetica).
  reflexivity.
Defined.

(* ================================================================== *)
(** * Properties of the page layout *)
(* ================================================================== *)

Section Pagination.
Variable widthOf : Font -> jsstring -> Q -> Q.
Variables pw ph : Q.

Lemma ensure_cases (need : Q) (st : Layout) :
  (Float64.sub (y st) need < margin
   /\ ensure pw ph need st = newPage pw ph st)
  \/ (~ Float64.sub (y st) need < margin /\ ensure pw ph need st = st).
Proof.
  unfold ensure. destruct (Qltb (Float64.sub (y st) need) margin) eqn:E.
  - left. split; [now apply Qltb_spec | reflexivity].
  - right. split; [|reflexivity].
    apply Qltb_false in E. now apply Qle_not_lt.
Qed.

(** One turn of the loop of [para], in full: the page break, the row drawn
    at the cursor, and the cursor one line height further down. *)
Lemma place_cases x size font (st : Layout) (r : jsstring) :
  (Float64.sub (y st) lh < margin
   /\ place pw ph x size font st r
      = {| finished := finished st ++ [page st];
           page := [rowOp r x (Float64.sub ph margin) size font];
           width := pw; height := ph;
           y := Float64.sub (Float64.sub ph margin) lh |})
  \/ (~ Float64.sub (y st) lh < margin
      /\ place pw ph x size font st r
         = {| finished := finished st;
              page := page st ++ [rowOp r x (y st) size font];
              width := width st; height := height st;
              y := Float64.sub (y st) lh |}).
Proof.
  unfold place.
  destruct (ensure_cases lh st) as [[Hlt ->] | [Hge ->]].
  - left. split; [assumption | reflexivity].
  - right. split; [assumption | reflexivity].
Qed.

Lemma drawnTexts_newPage (st : Layout) :
  drawnTexts (newPage pw ph st) = drawnTexts st.
Proof.
  unfold drawnTexts, pagesOf, newPage. simpl.
  now rewrite !concat_app, !map_app, !app_nil_r.
Qed.

Lemma drawnTexts_ensure (need : Q) (st : Layout) :
  drawnTexts (ensure pw ph need st) = drawnTexts st.
Proof.
  unfold ensure. destruct (Qltb _ _); [apply drawnTexts_newPage | reflexivity].
Qed.

Lemma drawnTexts_draw txt x yy size font (st : Layout) :
  drawnTexts (draw txt x yy size font st) = drawnTexts st ++ [txt].
Proof.
  unfold drawnTexts, pagesOf, draw. simpl.
  rewrite !concat_app, !map_app. simpl.
  rewrite !app_nil_r, map_app. simpl. now rewrite app_assoc.
Qed.

Lemma drawnTexts_setY yy (st : Layout) :
  drawnTexts (setY yy st) = drawnTexts st.
Proof. reflexivity. Qed.

Lemma drawnTexts_place x size font (st : Layout) (r : jsstring) :
  drawnTexts (place pw ph x size font st r) = drawnTexts st ++ [r].
Proof.
  unfold place.
  now rewrite drawnTexts_setY, drawnTexts_draw, drawnTexts_ensure.
Qed.

Lemma drawnTexts_rows x size font (rows : list jsstring) : forall st,
  drawnTexts (fold_left (place pw ph x size font) rows st)
  = drawnTexts st ++ rows.
Proof.
  induction rows as [|r rows IH]; intro st; simpl.
  - now rewrite app_nil_r.
  - now rewrite IH, drawnTexts_place, <- app_assoc.
Qed.

Lemma drawnTexts_para txt x size font (st : Layout) :
  drawnTexts (para widthOf pw ph txt x size font st)
  = drawnTexts st
    ++ wrap widthOf (sanitizeForPdf txt) x
         (Float64.sub (Float64.sub (width st) x) margin) size font.
Proof.
  unfold para. apply drawnTexts_rows.
Qed.

Lemma width_rows x size font (rows : list jsstring) : forall st,
  width st = pw ->
  width (fold_left (place pw ph x size font) rows st) = pw.
Proof.
  induction rows as [|r rows IH]; intros st Hst; simpl; [assumption|].
  apply IH. unfold place, ensure.
  destruct (Qltb _ _); [reflexivity | exact Hst].
Qed.

Lemma width_para txt x size font (st : Layout) :
  width st = pw -> width (para widthOf pw ph txt x size font st) = pw.
Proof.
  unfold para. apply width_rows.
Qed.

Lemma drawnTexts_layoutReport fullName ts question reportText :
  drawnTexts (layoutReport widthOf pw ph fullName ts question reportText)
  = js "ECM Assistant Report"
    :: wrap widthOf
         (sanitizeForPdf (js "Prepared for: " ++ or_else fullName (js "N/A")))
         margin (Float64.sub (Float64.sub pw margin) margin) fsBody
         Helvetica
    ++ wrap widthOf (sanitizeForPdf (js "Timestamp (UK): " ++ ts))
         margin (Float64.sub (Float64.sub pw margin) margin) fsBody
         Helvetica
    ++ wrap widthOf (sanitizeForPdf question)
         margin (Float64.sub (Float64.sub pw margin) margin) fsBody
         Helvetica
    ++ wrap widthOf (sanitizeForPdf reportText)
         margin (Float64.sub (Float64.sub pw margin) margin) fsBody
         Helvetica.
Proof.
  unfold layoutReport.
  set (s0 := setY _ (draw _ _ _ _ _ (firstPage pw ph))).
  assert (W0 : width s0 = pw) by reflexivity.
  assert (D0 : drawnTexts s0 = [js "ECM Assistant Report"]) by reflexivity.
  set (s1 := para widthOf pw ph _ margin fsBody Helvetica s0).
  assert (W1 : width s1 = pw) by (now apply width_para).
  set (s2 := para widthOf pw ph _ margin fsBody Helvetica s1).
  assert (W2 : width s2 = pw) by (now apply width_para).
  set (s3 := setY _ s2).
  assert (W3 : width s3 = pw) by exact W2.
  set (s4 := para widthOf pw ph question margin fsBody Helvetica s3).
  assert (W4 : width s4 = pw) by (now apply width_para).
  rewrite drawnTexts_para, W4.
  unfold s4. rewrite drawnTexts_para, W3.
  unfold s3. rewrite drawnTexts_setY.
  unfold s2. rewrite drawnTexts_para, W1.
  unfold s1. rewrite drawnTexts_para, W0, D0.
  rewrite <- !app_assoc. rewrite <- app_comm_cons, app_nil_l.
  reflexivity.
Qed.
End Pagination.


(* ================================================================== *)
(** * Properties of the line classifier *)
(* ================================================================== *)

Import Docx.

Lemma footerMarker_head (c : N) (s : jsstring) :
  startsWith footerMarker (c :: s) = true -> c = 84%N.
Proof.
  assert (E : footerMarker = 84%N :: js "his report was prepared using")
    by reflexivity.
  rewrite E. cbn [startsWith]. intro H.
  apply andb_prop in H. destruct H as [H _].
  apply N.eqb_eq in H. now subst.
Qed.

Lemma footerMarker_truthy (t : jsstring) :
  startsWith footerMarker t = true -> truthy t = true.
Proof.
  destruct t; [discriminate | reflexivity].
Qed.

Lemma classify_break (t : jsstring) :
  startsWith footerMarker t = true -> classify t = Break.
Proof.
  intro H. unfold classify.
  now rewrite (footerMarker_truthy _ H), H.
Qed.

Lemma classify_emits (t : jsstring) :
  startsWith footerMarker t = false -> exists role p, classify t = Emit role p.
Proof.
  intro H. unfold classify. rewrite H.
  destruct (negb (truthy t)); [eauto|].
  destruct (heading_re t); [eauto|].
  destruct (subheading_re t); [eauto|].
  destruct (label_re t); [eauto|].
  destruct (bullet_re t); eauto.
Qed.

Lemma digit_not_T (c : N) : is_digit c = true -> c <> 84%N.
Proof.
  intros H ->. discriminate H.
Qed.

Lemma classify_heading (t : jsstring) :
  heading_re t = true ->
  classify t = Emit Heading (styled t true 28 (Some 200%Z) (Some 120%Z) None).
Proof.
  intro H. unfold classify. destruct t as [|c s]; [discriminate|].
  simpl truthy. simpl negb. cbv iota.
  destruct (startsWith footerMarker (c :: s)) eqn:E.
  - apply footerMarker_head in E. simpl in H. apply andb_prop in H.
    destruct H as [H _]. now apply digit_not_T in H.
  - now rewrite H.
Qed.

(** C4, as the specification states it, fails: the text of a Heading is not
    what remains of the line once a numeric marker is taken off its front. *)
Lemma heading_marker_not_stripped :
  ~ (forall t : jsstring,
        t <> [] -> trim t = t -> heading_re t = true ->
        exists marker rest p,
          marker <> [] /\ t = marker ++ rest
          /\ classify t = Emit Heading p /\ paragraphText p = rest).
Proof.
  intro H.
  destruct (H (js "1. Query")) as (marker & rest & p & Hm & Ht & Hc & Hp);
    [discriminate | reflexivity | reflexivity |].
  rewrite classify_heading in Hc by reflexivity.
  injection Hc as <-. cbn in Hp. subst rest.
  apply (f_equal (@List.length N)) in Ht. rewrite length_app in Ht.
  destruct marker; [congruence|]. simpl in Ht. lia.
Qed.

(** C4 (amended). Every line that begins with one or more digits followed
    by [)], [.] or whitespace is given the role Heading, and the text of its
    paragraph is the whole line, numeric marker included. *)
Theorem heading_keeps_whole_line (t : jsstring) :
  heading_re t = true ->
  exists p,
    classify t = Emit Heading p /\ paragraphText p = t
    /\ p = styled t true 28 (Some 200%Z) (Some 120%Z) None.
Proof.
  intro H. eexists. split; [now apply classify_heading|].
  split; [|reflexivity]. cbn. apply app_nil_r.
Qed.

Lemma heading_keeps_whole_line_witness :
  exists p,
    classify (js "1. Query") = Emit Heading p
    /\ paragraphText p = js "1. Query"
    /\ p = styled (js "1. Query") true 28 (Some 200%Z) (Some 120%Z) None.
Proof.
  apply (heading_keeps_whole_line (js "1. Query")). reflexivity.
Defined.

(* ================================================================== *)
(** * The empty report *)
(* ================================================================== *)

Lemma wrap_empty (widthOf : Font -> jsstring -> Q -> Q)
  (x maxWidth size : Q) (font : Font) :
  wrap widthOf [] x maxWidth size font = [[]].
Proof.
  unfold wrap. cbn [split_ws split_ws_from fold_left].
  unfold wrap_step. cbn [truthy]. now rewrite andb_false_r.
Qed.

(** C8, as the specification states it, fails: the document of an empty
    report is not made of the title, the timestamp and the footer alone. *)
Lemma empty_report_has_a_body_block :
  Docx.docParagraphs (@None (list unit)) Samples.october3rd (1 # 2)
    (js "2025-10-03T09:00:00.000Z") []
  <> [ titleParagraph;
       generatedParagraph (js "2025-10-03T09:00:00.000Z");
       footerParagraph
         (footerText (Report.regRand Samples.october3rd (1 # 2))
            (indexLength (@None (list unit)))) ].
Proof.
  intro H. apply (f_equal (@List.length Paragraph)) in H.
  vm_compute in H. discriminate H.
Qed.

(** C8 (amended). An empty report is not an error.  Its lines are the one
    empty line, so the DOCX document is the title, the timestamp, one empty
    paragraph (the Blank separator) and the footer; and the PDF draws, after
    the title and the three head texts, one empty row for the body. *)
Theorem empty_report_documents
  (Vec : Type) (globalIndex : option (list Vec)) (now : Report.Date) (r : Q)
  (ts : jsstring) (widthOf : Font -> jsstring -> Q -> Q) (pw ph : Q)
  (fullName : option jsstring) (question : jsstring) :
  reportLines [] = [[]]
  /\ Docx.docParagraphs globalIndex now r ts []
     = [ titleParagraph;
         generatedParagraph ts;
         ParagraphOfText [];
         footerParagraph
           (footerText (Report.regRand now r) (indexLength globalIndex)) ]
  /\ drawnTexts (layoutReport widthOf pw ph fullName ts question [])
     = js "ECM Assistant Report"
       :: wrap widthOf
            (sanitizeForPdf (js "Prepared for: " ++ or_else fullName (js "N/A")))
            margin (Float64.sub (Float64.sub pw margin) margin) fsBody
            Helvetica
       ++ wrap widthOf (sanitizeForPdf (js "Timestamp (UK): " ++ ts))
            margin (Float64.sub (Float64.sub pw margin) margin) fsBody
            Helvetica
       ++ wrap widthOf (sanitizeForPdf question)
            margin (Float64.sub (Float64.sub pw margin) margin) fsBody
            Helvetica
       ++ [[]].
Proof.
  split; [reflexivity|]. split; [reflexivity|].
  rewrite drawnTexts_layoutReport.
  change (sanitizeForPdf []) with (@nil N).
  now rewrite wrap_empty.
Qed.

(* ================================================================== *)
(** * Trimming *)
(* ================================================================== *)

Lemma drop_while_app (p : N -> bool) (a b : jsstring) :
  drop_while p (a ++ b)
  = match drop_while p a with
    | [] => drop_while p b
    | x :: d => (x :: d) ++ b
    end.
Proof.
  induction a as [|c a IH]; simpl; [reflexivity|].
  destruct (p c); [exact IH | reflexivity].
Qed.

Lemma drop_while_head (p : N -> bool) (s : jsstring) c s' :
  drop_while p s = c :: s' -> p c = false.
Proof.
  induction s as [|d s IH]; simpl; [discriminate|].
  destruct (p d) eqn:E; [exact IH|].
  intro H. injection H as -> _. exact E.
Qed.

Lemma drop_while_id (p : N -> bool) c (s : jsstring) :
  p c = false -> drop_while p (c :: s) = c :: s.
Proof.
  intro H. simpl. now rewrite H.
Qed.

Lemma trimEnd_cons (c : N) (s : jsstring) :
  trimEnd (c :: s)
  = match trimEnd s with
    | [] => if is_space c then [] else [c]
    | x :: l => c :: x :: l
    end.
Proof.
  unfold trimEnd. simpl rev. rewrite drop_while_app.
  destruct (drop_while is_space (rev s)) as [|x d]; simpl.
  - now destruct (is_space c).
  - rewrite rev_app_distr. simpl.
    destruct (rev d ++ [x]) eqn:E; [|reflexivity].
    now destruct (rev d).
Qed.

Lemma trimEnd_fixed_tail (c : N) (s : jsstring) :
  trimEnd (c :: s) = c :: s -> trimEnd s = s.
Proof.
  rewrite trimEnd_cons. destruct (trimEnd s) as [|x l].
  - destruct (is_space c); [discriminate|]. intro H. now injection H.
  - intro H. now injection H.
Qed.

Lemma trimEnd_fixed_drop (p : N -> bool) (s : jsstring) :
  trimEnd s = s -> trimEnd (drop_while p s) = drop_while p s.
Proof.
  induction s as [|c s IH]; simpl; [auto|].
  intro H. destruct (p c); [|exact H].
  apply IH. exact (trimEnd_fixed_tail H).
Qed.

Lemma trim_fixed_end (s : jsstring) : trim s = s -> trimEnd s = s.
Proof.
  unfold trim, trimStart. destruct s as [|c s]; [reflexivity|].
  simpl. destruct (is_space c) eqn:E; [|auto].
  intro H. exfalso.
  assert (Hlen : (List.length (trimEnd (drop_while is_space s))
                  <= List.length s)%nat).
  { clear. unfold trimEnd. rewrite length_rev.
    assert (A : forall l, (List.length (drop_while is_space l)
                           <= List.length l)%nat).
    { induction l as [|d l IH]; simpl; [lia|].
      destruct (is_space d); simpl; lia. }
    etransitivity; [apply A|]. rewrite length_rev.
    etransitivity; [apply A|]. lia. }
  rewrite H in Hlen. simpl in Hlen. lia.
Qed.

Lemma trim_no_leading_space (s : jsstring) :
  starts_with_space (trim s) = false.
Proof.
  unfold trim, trimStart.
  destruct (drop_while is_space s) as [|c d] eqn:E; [reflexivity|].
  apply drop_while_head in E. rewrite trimEnd_cons.
  destruct (trimEnd d); simpl; [now rewrite E | exact E].
Qed.

Lemma trimEnd_idempotent (s : jsstring) : trimEnd (trimEnd s) = trimEnd s.
Proof.
  induction s as [|c s IH]; [reflexivity|].
  rewrite (trimEnd_cons c s). destruct (trimEnd s) as [|x l] eqn:E.
  - destruct (is_space c) eqn:Ec; [reflexivity|].
    rewrite trimEnd_cons. change (trimEnd []) with (@nil N). now rewrite Ec.
  - rewrite trimEnd_cons, IH. reflexivity.
Qed.

Lemma trimStart_fixed (s : jsstring) :
  starts_with_space s = false -> trimStart s = s.
Proof.
  destruct s as [|c s]; [reflexivity|]. simpl. unfold trimStart. simpl.
  now intros ->.
Qed.

Lemma trim_idempotent (s : jsstring) : trim (trim s) = trim s.
Proof.
  unfold trim at 1. rewrite (@trimStart_fixed (trim s) (trim_no_leading_space s)).
  unfold trim. apply trimEnd_idempotent.
Qed.

Lemma trimEnd_fixed_no_trailing (s : jsstring) :
  trimEnd s = s -> no_trailing_space s.
Proof.
  induction s as [|c s IH]; [constructor|].
  intro H. pose proof (trimEnd_fixed_tail H) as Ht.
  destruct s as [|d s].
  - rewrite trimEnd_cons in H. change (trimEnd []) with (@nil N) in H.
    simpl. destruct (is_space c); [discriminate | reflexivity].
  - exact (IH Ht).
Qed.

Lemma no_trailing_space_tail (c : N) (s : jsstring) :
  no_trailing_space (c :: s) ->
  no_trailing_space s /\ (is_space c = true -> s <> []).
Proof.
  destruct s as [|d s]; simpl.
  - intro H. split; [exact I | congruence].
  - intro H. split; [exact H | discriminate].
Qed.

Lemma split_ws_from_nonempty_pieces (s : jsstring) :
  no_trailing_space s ->
  (s <> [] -> Forall (fun p => p <> []) (split_ws_from true s))
  /\ Forall (fun p => p <> []) (tl (split_ws_from false s)).
Proof.
  induction s as [|c s IH]; intro H.
  - split; [congruence | constructor].
  - destruct (no_trailing_space_tail _ _ H) as [Ht Hsp].
    destruct (IH Ht) as [IHa IHb]. simpl.
    destruct (is_space c) eqn:E; simpl.
    + split; [intros _|]; apply IHa; now apply Hsp.
    + destruct (split_ws_from false s) as [|piece rest]; simpl in *.
      * split; [intros _; repeat constructor; discriminate | constructor].
      * split; [intros _; constructor; [discriminate | exact IHb]
               | exact IHb].
Qed.

Lemma split_ws_trimmed_nonempty (txt : jsstring) :
  trim txt = txt -> txt <> [] ->
  Forall (fun p => p <> []) (split_ws txt).
Proof.
  intros Htrim Hne.
  pose proof (trim_no_leading_space txt) as Hlead. rewrite Htrim in Hlead.
  pose proof (trimEnd_fixed_no_trailing (trim_fixed_end Htrim)) as Hnt.
  destruct txt as [|c txt]; [congruence|]. simpl in Hlead.
  destruct (@split_ws_from_nonempty_pieces (c :: txt) Hnt) as [_ Hb].
  unfold split_ws in *. simpl in Hb |- *. rewrite Hlead in *.
  destruct (split_ws_from false txt) as [|piece rest]; simpl in *.
  - repeat constructor. discriminate.
  - constructor; [discriminate | exact Hb].
Qed.

Lemma drop_while_split (p : N -> bool) (s : jsstring) :
  exists pre, s = pre ++ drop_while p s /\ forallb p pre = true.
Proof.
  induction s as [|c s (pre & Hs & Hp)]; simpl.
  - now exists [].
  - destruct (p c) eqn:E.
    + exists (c :: pre). simpl. rewrite E, Hp. split; [now f_equal | reflexivity].
    + now exists [].
Qed.

Lemma forallb_rev (p : N -> bool) (l : jsstring) :
  forallb p l = true -> forallb p (rev l) = true.
Proof.
  rewrite !forallb_forall. intros H x Hx. apply H. now apply in_rev.
Qed.

Lemma split_lines_from_nonempty (s : jsstring) (b : bool) :
  split_lines_from b s <> [].
Proof.
  revert b. induction s as [|c s IH]; intro b; simpl; [discriminate|].
  destruct (c =? 10)%N; [discriminate|].
  assert (H : forall l, cons_head c l <> [])
    by (intros [|? ?]; discriminate).
  destruct (c =? 32)%N; [|apply H].
  destruct b; [apply IH|].
  destruct s as [|c2 s']; [apply H|].
  destruct (c2 =? 32)%N; [discriminate | apply H].
Qed.

(* ------------------------------------------------------------------ *)
(** ** The words of a text *)

Lemma split_ws_nonspace (b : bool) (c : N) (s : jsstring) :
  is_space c = false ->
  split_ws_from b (c :: s) = (c :: firstPiece s) :: tl (split_ws s).
Proof.
  intro H. simpl. rewrite H. unfold firstPiece, split_ws.
  pose proof (split_ws_from_nonempty false s) as Hne.
  destruct (split_ws_from false s); [congruence | reflexivity].
Qed.

Lemma words_from_run (s : jsstring) :
  filter truthy (split_ws_from true s) = words s.
Proof.
  unfold words, split_ws. destruct s as [|c s]; [reflexivity|]. simpl.
  destruct (is_space c); reflexivity.
Qed.

Lemma words_space (c : N) (s : jsstring) :
  is_space c = true -> words (c :: s) = words s.
Proof.
  intro H. rewrite <- (words_from_run s). unfold words, split_ws. simpl.
  now rewrite H.
Qed.

Lemma words_view (s : jsstring) :
  words s
  = (if truthy (firstPiece s) then [firstPiece s] else []) ++ laterWords s.
Proof.
  unfold words, firstPiece, laterWords, split_ws.
  pose proof (split_ws_from_nonempty false s) as Hne.
  destruct (split_ws_from false s) as [|p rest]; [congruence|]. simpl.
  destruct (truthy p); reflexivity.
Qed.

Lemma split_ws_app_space (w : N) (t : jsstring) :
  is_space w = true ->
  forall a,
    firstPiece (a ++ w :: t) = firstPiece a
    /\ laterWords (a ++ w :: t) = laterWords a ++ words t
    /\ words (a ++ w :: t) = words a ++ words t.
Proof.
  intros Hw a. induction a as [|c a (IH1 & IH2 & IH3)].
  - simpl app. unfold firstPiece, laterWords, split_ws. simpl. rewrite Hw.
    simpl. rewrite words_from_run, (@words_space w t Hw). auto.
  - simpl app. destruct (is_space c) eqn:Ec.
    + rewrite !(@words_space c _ Ec).
      unfold firstPiece, laterWords, split_ws. simpl. rewrite Ec. simpl.
      rewrite !words_from_run. auto.
    + unfold firstPiece, laterWords, words, split_ws.
      rewrite !(@split_ws_nonspace false c _ Ec). simpl.
      fold (laterWords (a ++ w :: t)). fold (laterWords a).
      rewrite IH1, IH2. auto.
Qed.

Lemma words_app_space (w : N) (a t : jsstring) :
  is_space w = true -> words (a ++ w :: t) = words a ++ words t.
Proof.
  intro Hw. now destruct (@split_ws_app_space w t Hw a) as (_ & _ & H).
Qed.

Lemma words_leading (ws s : jsstring) :
  forallb is_space ws = true -> words (ws ++ s) = words s.
Proof.
  induction ws as [|c ws IH]; [reflexivity|]. simpl. intro H.
  apply andb_prop in H. destruct H as [Hc Hws].
  rewrite (@words_space c _ Hc). now apply IH.
Qed.

Lemma words_trailing (s ws : jsstring) :
  forallb is_space ws = true -> words (s ++ ws) = words s.
Proof.
  destruct ws as [|w ws]; [now rewrite app_nil_r|]. simpl. intro H.
  apply andb_prop in H. destruct H as [Hw Hws].
  rewrite (@words_app_space w s ws Hw).
  rewrite <- (app_nil_r ws), (@words_leading ws [] Hws). apply app_nil_r.
Qed.

Lemma trim_decompose (u : jsstring) :
  exists lead trail,
    u = lead ++ trim u ++ trail
    /\ forallb is_space lead = true /\ forallb is_space trail = true.
Proof.
  destruct (drop_while_split is_space u) as (lead & Hu & Hlead).
  destruct (drop_while_split is_space (rev (drop_while is_space u)))
    as (pre & Hr & Hpre).
  exists lead, (rev pre). split; [|split; [exact Hlead|]].
  - unfold trim, trimStart, trimEnd.
    rewrite <- rev_app_distr, <- Hr, rev_involutive. exact Hu.
  - now apply forallb_rev.
Qed.

Lemma words_trim (u : jsstring) : words (trim u) = words u.
Proof.
  destruct (trim_decompose u) as (lead & trail & Hu & Hlead & Htrail).
  rewrite Hu at 2. rewrite (@words_leading lead _ Hlead).
  now rewrite (@words_trailing _ trail Htrail).
Qed.

Lemma filter_truthy_nonempty (l : list jsstring) :
  Forall (fun p => p <> []) l -> filter truthy l = l.
Proof.
  induction 1 as [|p l Hp _ IH]; [reflexivity|]. simpl.
  destruct p; [congruence|]. simpl. now rewrite IH.
Qed.

(** The tokens of a trimmed text are its words, or the one empty token when
    it has no word. *)
Lemma split_ws_trim (u : jsstring) :
  split_ws (trim u) = match words u with [] => [[]] | ws => ws end.
Proof.
  rewrite <- (words_trim u).
  destruct (trim u) as [|c t] eqn:E; [reflexivity|].
  assert (Hall : Forall (fun p => p <> []) (split_ws (c :: t))).
  { apply split_ws_trimmed_nonempty; [|discriminate].
    rewrite <- E. apply trim_idempotent. }
  unfold words. rewrite (@filter_truthy_nonempty _ Hall).
  pose proof (split_ws_from_nonempty false (c :: t)) as Hne.
  unfold split_ws. now destruct (split_ws_from false (c :: t)).
Qed.

Section PdfWords.
Local Abbreviation fp := (fun s => firstPiece (filter pdf_safe s)).
Local Abbreviation lw := (fun s => laterWords (filter pdf_safe s)).

Lemma pdf_unsafe (c : N) (s : jsstring) :
  pdf_safe c = false -> fp (c :: s) = fp s /\ lw (c :: s) = lw s.
Proof.
  intro H. simpl. now rewrite H.
Qed.

Lemma pdf_space (c : N) (s : jsstring) :
  pdf_safe c = true -> is_space c = true ->
  fp (c :: s) = [] /\ lw (c :: s) = pdfWords s.
Proof.
  intros Hs Hc. simpl. rewrite Hs.
  unfold firstPiece, laterWords, pdfWords, split_ws. simpl. rewrite Hc.
  simpl. now rewrite words_from_run.
Qed.

Lemma pdf_nonspace (c : N) (s : jsstring) :
  pdf_safe c = true -> is_space c = false ->
  fp (c :: s) = c :: fp s /\ lw (c :: s) = lw s.
Proof.
  intros Hs Hc. simpl. rewrite Hs.
  unfold firstPiece, laterWords, split_ws.
  now rewrite (@split_ws_nonspace false c _ Hc).
Qed.

Lemma pdfWords_view (s : jsstring) :
  pdfWords s = (if truthy (fp s) then [fp s] else []) ++ lw s.
Proof.
  apply words_view.
Qed.

Lemma pdfWords_space (c : N) (s : jsstring) :
  pdf_safe c = true -> is_space c = true -> pdfWords (c :: s) = pdfWords s.
Proof.
  intros Hs Hc. rewrite (pdfWords_view (c :: s)).
  destruct (@pdf_space _ s Hs Hc) as [-> ->]. reflexivity.
Qed.

Lemma pdf_view_cons (c : N) (a b : jsstring) :
  fp a = fp b -> lw a = lw b ->
  fp (c :: a) = fp (c :: b) /\ lw (c :: a) = lw (c :: b).
Proof.
  intros H1 H2.
  assert (H3 : pdfWords a = pdfWords b)
    by (rewrite !pdfWords_view; now rewrite H1, H2).
  destruct (pdf_safe c) eqn:Hs.
  - destruct (is_space c) eqn:Hc.
    + destruct (@pdf_space c a Hs Hc) as [-> ->].
      destruct (@pdf_space c b Hs Hc) as [-> ->]. now rewrite H3.
    + destruct (@pdf_nonspace c a Hs Hc) as [-> ->].
      destruct (@pdf_nonspace c b Hs Hc) as [-> ->]. now rewrite H1, H2.
  - destruct (@pdf_unsafe c a Hs) as [-> ->].
    destruct (@pdf_unsafe c b Hs) as [-> ->]. now split.
Qed.

Lemma cons_head_lines (c : N) (b : bool) (s : jsstring) :
  cons_head c (split_lines_from b s)
  = (c :: hd [] (split_lines_from b s)) :: tl (split_lines_from b s).
Proof.
  pose proof (split_lines_from_nonempty s b) as Hne.
  now destruct (split_lines_from b s).
Qed.

Lemma split_lines_from_cons (b : bool) (c : N) (s : jsstring) :
  split_lines_from b (c :: s)
  = if (c =? 10)%N then [] :: split_lines_from false s
    else if (c =? 32)%N then
      if b then split_lines_from true s
      else
        match s with
        | c2 :: _ =>
            if (c2 =? 32)%N then [] :: split_lines_from true s
            else cons_head c (split_lines_from false s)
        | [] => cons_head c (split_lines_from false s)
        end
    else cons_head c (split_lines_from false s).
Proof. reflexivity. Qed.

(** A piece that begins with [c] and goes on as the first line of [s], and
    then the other lines of [s]: their words are those of [c :: s]. *)
Lemma lines_words_cons (c : N) (s : jsstring) :
  fp (hd [] (split_lines_from false s)) = fp s ->
  lw (hd [] (split_lines_from false s))
  ++ List.concat (List.map pdfWords (tl (split_lines_from false s))) = lw s ->
  fp (c :: hd [] (split_lines_from false s)) = fp (c :: s)
  /\ lw (c :: hd [] (split_lines_from false s))
     ++ List.concat (List.map pdfWords (tl (split_lines_from false s)))
     = lw (c :: s).
Proof.
  set (p := hd [] (split_lines_from false s)).
  set (rest := List.concat (List.map pdfWords (tl (split_lines_from false s)))).
  intros H1 H2.
  assert (H3 : pdfWords p ++ rest = pdfWords s).
  { rewrite !pdfWords_view, H1, <- H2. now rewrite app_assoc. }
  destruct (pdf_safe c) eqn:Hs.
  - destruct (is_space c) eqn:Hc.
    + destruct (@pdf_space c p Hs Hc) as [-> ->].
      destruct (@pdf_space _ s Hs Hc) as [-> ->]. now split.
    + destruct (@pdf_nonspace c p Hs Hc) as [-> ->].
      destruct (@pdf_nonspace c s Hs Hc) as [-> ->]. now rewrite H1, H2.
  - destruct (@pdf_unsafe c p Hs) as [-> ->].
    destruct (@pdf_unsafe c s Hs) as [-> ->]. now split.
Qed.

Lemma lines_words (s : jsstring) :
  List.concat (List.map pdfWords (split_lines_from true s)) = pdfWords s
  /\ fp (hd [] (split_lines_from false s)) = fp s
  /\ lw (hd [] (split_lines_from false s))
     ++ List.concat (List.map pdfWords (tl (split_lines_from false s)))
     = lw s.
Proof.
  induction s as [|c s (IHa & IHb1 & IHb2)]; [now split|].
  assert (Hsum : List.concat (List.map pdfWords (split_lines_from false s))
                 = pdfWords s).
  { pose proof (split_lines_from_nonempty s false) as Hne.
    rewrite (pdfWords_view s), <- IHb1, <- IHb2.
    destruct (split_lines_from false s) as [|p rest]; [congruence|].
    cbn [hd tl List.map List.concat].
    rewrite (pdfWords_view p). now rewrite app_assoc. }
  assert (Hother :
    let L := cons_head c (split_lines_from false s) in
    fp (hd [] L) = fp (c :: s)
    /\ lw (hd [] L) ++ List.concat (List.map pdfWords (tl L)) = lw (c :: s)).
  { rewrite cons_head_lines. cbn [hd tl].
    now apply lines_words_cons. }
  assert (Hview : forall L,
    fp (hd [] L) = fp (c :: s)
    /\ lw (hd [] L) ++ List.concat (List.map pdfWords (tl L)) = lw (c :: s) ->
    L <> [] ->
    List.concat (List.map pdfWords L) = pdfWords (c :: s)).
  { intros L [G1 G2] HL. destruct L as [|p rest]; [congruence|].
    cbn [hd tl List.map List.concat] in *.
    rewrite (pdfWords_view p), (pdfWords_view (c :: s)).
    now rewrite G1, <- G2, app_assoc. }
  assert (Hcons : cons_head c (split_lines_from false s) <> []).
  { rewrite cons_head_lines. discriminate. }
  assert (Hnil : pdfWords [] = []) by reflexivity.
  assert (Hfp : firstPiece (filter pdf_safe []) = []) by reflexivity.
  assert (Hlw : laterWords (filter pdf_safe []) = []) by reflexivity.
  rewrite (split_lines_from_cons true c s), (split_lines_from_cons false c s).
  destruct (c =? 10)%N eqn:E10.
  - apply N.eqb_eq in E10. subst c.
    assert (Hs : pdf_safe 10 = true) by reflexivity.
    assert (Hc : is_space 10 = true) by reflexivity.
    destruct (@pdf_space _ s Hs Hc) as [-> ->].
    cbn [hd tl List.map List.concat].
    rewrite Hnil, Hfp, Hlw, Hsum, (@pdfWords_space _ s Hs Hc). auto.
  - destruct (c =? 32)%N eqn:E32.
    + apply N.eqb_eq in E32. subst c.
      assert (Hs : pdf_safe 32 = true) by reflexivity.
      assert (Hc : is_space 32 = true) by reflexivity.
      split; [rewrite IHa; now rewrite (@pdfWords_space _ s Hs Hc)|].
      destruct s as [|c2 s']; [exact Hother|].
      cbv beta iota.
      destruct (c2 =? 32)%N; [|exact Hother].
      destruct (@pdf_space _ (c2 :: s') Hs Hc) as [-> ->].
      cbn [hd tl]. rewrite Hfp, Hlw. split; [reflexivity | exact IHa].
    + split; [|exact Hother]. now apply Hview.
Qed.

Lemma collapse_words (s : jsstring) :
  pdfWords (collapse_newlines_from true s) = pdfWords s
  /\ fp (collapse_newlines_from false s) = fp s
  /\ lw (collapse_newlines_from false s) = lw s.
Proof.
  induction s as [|c s (IH1 & IH2 & IH3)]; [now split|].
  simpl collapse_newlines_from.
  destruct (c =? 10)%N eqn:E10.
  - apply N.eqb_eq in E10. subst c.
    assert (Hs : pdf_safe 10 = true) by reflexivity.
    assert (Hc : is_space 10 = true) by reflexivity.
    rewrite (@pdfWords_space _ s Hs Hc).
    destruct (@pdf_space _ s Hs Hc) as [-> ->].
    destruct (@pdf_space _ (collapse_newlines_from true s) Hs Hc) as [-> ->].
    auto.
  - destruct (@pdf_view_cons c _ _ IH2 IH3) as [G1 G2].
    split; [|now split].
    rewrite !pdfWords_view. now rewrite G1, G2.
Qed.

(** The words that reach the PDF are, in order, those of the lines of the
    report. *)
Lemma pdfWords_reportLines (reportText : jsstring) :
  List.concat (List.map pdfWords (reportLines reportText))
  = pdfWords reportText.
Proof.
  unfold reportLines, collapse_newlines.
  destruct (lines_words (collapse_newlines_from false reportText))
    as (_ & H1 & H2).
  destruct (collapse_words reportText) as (_ & H3 & H4).
  pose proof (split_lines_from_nonempty
                (collapse_newlines_from false reportText) false) as Hne.
  destruct (split_lines_from false (collapse_newlines_from false reportText))
    as [|p rest]; [congruence|].
  cbn [hd tl List.map List.concat] in *.
  rewrite (pdfWords_view p), (pdfWords_view reportText).
  now rewrite H1, H3, <- H4, <- H2, app_assoc.
Qed.
End PdfWords.

Lemma startsWith_prefix (p s : jsstring) :
  startsWith p s = true -> exists rest, s = p ++ rest.
Proof.
  revert s. induction p as [|a p IH]; intros s H; [now exists s|].
  destruct s as [|b s]; [discriminate|]. simpl in H.
  apply andb_prop in H. destruct H as [Hab Hps].
  apply N.eqb_eq in Hab. subst b.
  destruct (IH s Hps) as (rest & ->). now exists rest.
Qed.

Lemma forallb_filter (p q : N -> bool) (l : jsstring) :
  forallb p l = true -> forallb p (filter q l) = true.
Proof.
  rewrite !forallb_forall. intros H x Hx. apply H.
  apply filter_In in Hx. tauto.
Qed.

Lemma pdfWords_trim (l : jsstring) : pdfWords (trim l) = pdfWords l.
Proof.
  destruct (trim_decompose l) as (lead & trail & Hl & Hlead & Htrail).
  unfold pdfWords. rewrite Hl at 2. rewrite !filter_app.
  rewrite (@words_leading _ _ (@forallb_filter is_space pdf_safe _ Hlead)).
  now rewrite (@words_trailing _ _ (@forallb_filter is_space pdf_safe _ Htrail)).
Qed.

(** The words of a line that begins with the footer marker. *)
Lemma marker_words (l : jsstring) :
  startsWith footerMarker (trim l) = true ->
  exists more,
    pdfWords l = js "This" :: js "report" :: js "was" :: js "prepared" :: more.
Proof.
  intro H. destruct (@startsWith_prefix _ _ H) as (rest & Hrest).
  rewrite <- pdfWords_trim, Hrest. unfold pdfWords. rewrite filter_app.
  set (t := filter pdf_safe rest).
  assert (E : filter pdf_safe footerMarker ++ t
              = js "This"
                ++ 32%N :: (js "report"
                ++ 32%N :: (js "was"
                ++ 32%N :: (js "prepared" ++ 32%N :: (js "using" ++ t)))))
    by reflexivity.
  rewrite E. rewrite !words_app_space by reflexivity.
  exists (words (js "using" ++ t)). reflexivity.
Qed.

(* ================================================================== *)
(** * The footer marker: DOCX stops, PDF goes on *)
(* ================================================================== *)

Lemma pushLines_until_marker (pre : list jsstring) : forall acc l post,
  forallb (fun raw => negb (startsWith footerMarker (trim raw))) pre = true ->
  startsWith footerMarker (trim l) = true ->
  exists body,
    pushLines (pre ++ l :: post) acc = acc ++ body
    /\ Forall2 (fun raw p => exists role, classify (trim raw) = Emit role p)
         pre body.
Proof.
  induction pre as [|raw pre IH]; intros acc l post Hpre Hl.
  - exists []. simpl. rewrite (classify_break _ Hl).
    split; [now rewrite app_nil_r | constructor].
  - simpl in Hpre. apply andb_prop in Hpre. destruct Hpre as [Hraw Hpre].
    apply negb_true_iff in Hraw.
    destruct (classify_emits _ Hraw) as (role & p & Hc).
    destruct (IH (acc ++ [p]) l post Hpre Hl) as (body & Hpush & Hall).
    exists (p :: body). simpl. rewrite Hc, Hpush.
    split; [now rewrite <- app_assoc|].
    constructor; [now exists role | exact Hall].
Qed.



(* ================================================================== *)
(** * Classifying the text of a classified line again *)
(* ================================================================== *)

Ltac bool_false :=
  repeat match goal with
    | |- (_ || _) = false => apply orb_false_intro
    | |- (_ && _) = false =>
        apply andb_false_iff;
        first [ left; apply N.leb_gt; lia | right; apply N.leb_gt; lia ]
    | |- (_ =? _)%N = false => apply N.eqb_neq; lia
    | |- (_ <=? _)%N = false => apply N.leb_gt; lia
    end.

Lemma space_not_upper (c : N) : is_space c = true -> is_upper c = false.
Proof.
  intro H. destruct (is_upper c) eqn:U; [|reflexivity].
  unfold is_upper in U. apply andb_prop in U. destruct U as [U1 U2].
  apply N.leb_le in U1, U2.
  assert (F : is_space c = false) by (unfold is_space; bool_false).
  congruence.
Qed.

Lemma is_bullet_cases (b : N) :
  is_bullet b = true -> b = 45%N \/ b = 8226%N.
Proof.
  unfold is_bullet. intro H. apply orb_prop in H.
  destruct H as [H|H]; apply N.eqb_eq in H; auto.
Qed.

Lemma ws_upper_colon_drop (s : jsstring) :
  ws_upper_colon (drop_while is_space s) = ws_upper_colon s.
Proof.
  induction s as [|c s IH]; [reflexivity|].
  cbn [drop_while]. destruct (is_space c) eqn:E; [|reflexivity].
  cbn [ws_upper_colon]. rewrite E, (space_not_upper _ E). simpl. exact IH.
Qed.

Lemma paragraphText_styled text bold size before after ind :
  paragraphText (styled text bold size before after ind) = text.
Proof.
  cbn. apply app_nil_r.
Qed.

Lemma classify_heading_inv (t : jsstring) (p : Paragraph) :
  classify t = Emit Heading p ->
  heading_re t = true
  /\ p = styled t true 28 (Some 200%Z) (Some 120%Z) None.
Proof.
  unfold classify.
  destruct (negb (truthy t)); [discriminate|].
  destruct (startsWith footerMarker t); [discriminate|].
  destruct (heading_re t).
  - intro H. injection H as <-. auto.
  - destruct (subheading_re t); [discriminate|].
    destruct (label_re t); [discriminate|].
    destruct (bullet_re t); discriminate.
Qed.

Lemma classify_bullet_inv (t : jsstring) (p : Paragraph) :
  classify t = Emit Bullet p ->
  label_re t = false /\ bullet_re t = true
  /\ p = styled (trim (replace_bullet [8226; 32]%N t)) false 22 None
           (Some 60%Z) (Some (680%Z, 360%Z)).
Proof.
  unfold classify.
  destruct (negb (truthy t)); [discriminate|].
  destruct (startsWith footerMarker t); [discriminate|].
  destruct (heading_re t); [discriminate|].
  destruct (subheading_re t); [discriminate|].
  destruct (label_re t); [discriminate|].
  destruct (bullet_re t); [|discriminate].
  intro H. injection H as <-. auto.
Qed.

Lemma classify_bullet_form (x : N) (l : jsstring) :
  is_space x = false ->
  ws_upper_colon (x :: l) = false ->
  trim (8226 :: 32 :: x :: l)%N = (8226 :: 32 :: x :: l)%N ->
  classify (8226 :: 32 :: x :: l)%N
  = Emit Bullet (styled (8226 :: 32 :: x :: l)%N false 22 None
                   (Some 60%Z) (Some (680%Z, 360%Z))).
Proof.
  intros Hx Hlab Htrim. unfold classify.
  cbn [truthy negb].
  destruct (startsWith footerMarker (8226 :: 32 :: x :: l)%N) eqn:E.
  { apply footerMarker_head in E. discriminate E. }
  change (heading_re (8226 :: 32 :: x :: l)%N) with false.
  change (subheading_re (8226 :: 32 :: x :: l)%N) with false.
  assert (L : label_re (8226 :: 32 :: x :: l)%N = false).
  { unfold label_re.
    change (ws_upper_colon (8226 :: 32 :: x :: l)%N) with false.
    change (ws_upper_colon (32 :: x :: l)%N) with (ws_upper_colon (x :: l)).
    now rewrite Hlab. }
  rewrite L.
  change (bullet_re (8226 :: 32 :: x :: l)%N) with true. cbv iota.
  assert (R : replace_bullet [8226; 32]%N (8226 :: 32 :: x :: l)%N
              = (8226 :: 32 :: x :: l)%N).
  { unfold replace_bullet. change (is_bullet 8226) with true. cbv iota.
    change (drop_while is_space (32 :: x :: l)%N)
      with (drop_while is_space (x :: l)).
    now rewrite (@drop_while_id is_space x l Hx). }
  now rewrite R, Htrim.
Qed.

Lemma trim_bullet_text (r : jsstring) :
  trimEnd r = r ->
  trim (8226 :: 32 :: r)%N
  = match r with
    | [] => [8226%N]
    | _ :: _ => (8226 :: 32 :: r)%N
    end.
Proof.
  intro Hr. unfold trim, trimStart. cbn [drop_while].
  change (is_space 8226) with false. cbv iota.
  rewrite !trimEnd_cons, Hr. now destruct r.
Qed.

Lemma bullet_text_fixed (t : jsstring) (p : Paragraph) :
  trim t = t ->
  classify t = Emit Bullet p ->
  classify (paragraphText p) = Emit Bullet p.
Proof.
  intros Htrim Hc.
  destruct (classify_bullet_inv _ Hc) as (Hlab & Hbul & ->).
  rewrite paragraphText_styled.
  destruct t as [|b rest]; [discriminate|].
  cbn [bullet_re] in Hbul.
  apply trim_fixed_end in Htrim.
  assert (Hr : trimEnd (drop_while is_space rest) = drop_while is_space rest).
  { apply trimEnd_fixed_drop. exact (trimEnd_fixed_tail Htrim). }
  assert (Hw : ws_upper_colon (drop_while is_space rest) = false).
  { rewrite ws_upper_colon_drop. unfold label_re in Hlab.
    apply orb_false_elim in Hlab. destruct Hlab as [Hlab _].
    now rewrite Hbul in Hlab. }
  unfold replace_bullet. rewrite Hbul.
  change ([8226; 32]%N ++ drop_while is_space rest)
    with (8226 :: 32 :: drop_while is_space rest)%N.
  pose proof (trim_bullet_text Hr) as Hu.
  destruct (drop_while is_space rest) as [|x l] eqn:Er.
  - rewrite Hu. reflexivity.
  - rewrite Hu. apply classify_bullet_form.
    + exact (drop_while_head _ _ Er).
    + exact Hw.
    + exact Hu.
Qed.

(** Lines of each marker role whose text matches a marker pattern again. *)
Lemma marker_texts_match_again :
  (exists p, classify (js "1. Query") = Emit Heading p
             /\ heading_re (paragraphText p) = true)
  /\ (exists p, classify (js "A. B. Scope") = Emit SubHeading p
                /\ paragraphText p = js "B. Scope"
                /\ subheading_re (paragraphText p) = true)
  /\ (exists p, classify (45%N :: js " A. Scope:") = Emit Label p
                /\ paragraphText p = js "A. Scope:"
                /\ subheading_re (paragraphText p) = true)
  /\ (exists p, classify (45%N :: js " Item one") = Emit Bullet p
                /\ paragraphText p = 8226%N :: js " Item one"
                /\ bullet_re (paragraphText p) = true).
Proof.
  split; [|split; [|split]]; eexists; vm_compute; repeat split; reflexivity.
Qed.

(** C6, as the specification states it, fails: the text of the SubHeading
    [A. B. Scope] is [B. Scope], which matches the SubHeading pattern
    again. *)
Lemma stripped_text_matches_marker_again :
  ~ (forall (t : jsstring) (role : Role) (p : Paragraph),
        trim t = t ->
        classify t = Emit role p ->
        marker_role role = true ->
        matches_marker (paragraphText p) = false).
Proof.
  intro H.
  specialize (H (js "A. B. Scope") SubHeading
                (styled (js "B. Scope") true 24 (Some 120%Z) (Some 80%Z) None)
                eq_refl eq_refl eq_refl).
  vm_compute in H. discriminate H.
Qed.

(** C6 (amended). For every trimmed line classified Heading or Bullet,
    classifying the text of its paragraph again gives the same role and the
    same paragraph: the text is a fixed point and nothing more is stripped.
    (The text of a SubHeading or of a Label may match a marker pattern
    again and be stripped again.) *)
Theorem heading_and_bullet_text_fixed
  (t : jsstring) (role : Role) (p : Paragraph) :
  trim t = t ->
  classify t = Emit role p ->
  role = Heading \/ role = Bullet ->
  classify (paragraphText p) = Emit role p.
Proof.
  intros Htrim Hc [-> | ->].
  - destruct (classify_heading_inv _ Hc) as (Hre & ->).
    rewrite paragraphText_styled. now apply classify_heading.
  - exact (@bullet_text_fixed t p Htrim Hc).
Qed.

Lemma heading_and_bullet_text_fixed_witness :
  classify
    (paragraphText
       (styled (8226%N :: js " Item one") false 22 None (Some 60%Z)
          (Some (680%Z, 360%Z))))
  = Emit Bullet
      (styled (8226%N :: js " Item one") false 22 None (Some 60%Z)
         (Some (680%Z, 360%Z))).
Proof.
  apply (@heading_and_bullet_text_fixed (45%N :: js " Item one") Bullet
           (styled (8226%N :: js " Item one") false 22 None (Some 60%Z)
              (Some (680%Z, 360%Z)))).
  - reflexivity.
  - reflexivity.
  - right. reflexivity.
Defined.

(* ================================================================== *)
(** * The registration code of the footers *)
(* ================================================================== *)

Lemma year_digits_table :
  forallb (fun k =>
             str_eqb (slice_from 2 (String_of_int (1000 + Z.of_nat k)))
               (two_digits ((1000 + Z.of_nat k) mod 100)))
    (seq 0 (Z.to_nat 9000)) = true.
Proof. vm_compute. reflexivity. Qed.

Lemma padded_digits_table :
  forallb (fun k =>
             str_eqb (padStart0 2 (String_of_int (Z.of_nat k)))
               (two_digits (Z.of_nat k)))
    (seq 0 (Z.to_nat 100)) = true.
Proof. vm_compute. reflexivity. Qed.

Lemma str_eqb_eq (a b : jsstring) : str_eqb a b = true -> a = b.
Proof.
  unfold str_eqb. now destruct (code_eq_dec a b).
Qed.

Lemma year_digits (y : Z) :
  (1000 <= y <= 9999)%Z ->
  slice_from 2 (String_of_int y) = two_digits (y mod 100).
Proof.
  intro Hy. pose proof year_digits_table as T.
  rewrite forallb_forall in T.
  specialize (T (Z.to_nat (y - 1000))).
  replace (1000 + Z.of_nat (Z.to_nat (y - 1000)))%Z with y in T by lia.
  apply str_eqb_eq, T, in_seq. lia.
Qed.

Lemma padded_digits (m : Z) :
  (0 <= m <= 99)%Z -> padStart0 2 (String_of_int m) = two_digits m.
Proof.
  intro Hm. pose proof padded_digits_table as T.
  rewrite forallb_forall in T.
  specialize (T (Z.to_nat m)).
  replace (Z.of_nat (Z.to_nat m)) with m in T by lia.
  apply str_eqb_eq, T, in_seq. lia.
Qed.

Lemma dateSeed_yymmdd (now : Report.Date) :
  (1000 <= Report.getFullYear now <= 9999)%Z ->
  (0 <= Report.getMonth now <= 11)%Z ->
  (1 <= Report.getDate now <= 31)%Z ->
  Report.dateSeed now = yymmdd now.
Proof.
  intros Hy Hm Hd. unfold Report.dateSeed, yymmdd.
  rewrite (year_digits Hy).
  rewrite (@padded_digits (Report.getMonth now + 1)) by lia.
  now rewrite (@padded_digits (Report.getDate now)) by lia.
Qed.

(** The random suffix: the product is at most the rounded
    [(1 - 2^-53) * 9000], which is below 9000, and rounding is monotone. *)
Lemma randomPart_range (r : Q) :
  0 <= r -> r <= Float64.below_one ->
  (1000 <= Report.randomPart r <= 9999)%Z.
Proof.
  intros H0 H1. unfold Report.randomPart, Float64.add, Float64.mul.
  assert (Hp0 : 0 <= r * 9000) by lra.
  assert (Hm0 : 0 <= Float64.round (r * 9000)).
  { exact (round_mono (Qle_refl 0) Hp0). }
  assert (Hm1 : Float64.round (r * 9000)
                <= Float64.round (Float64.below_one * 9000)).
  { apply round_mono; [exact Hp0 | lra]. }
  split.
  - apply Z.le_trans with (Qfloor (Float64.round 1000));
      [vm_compute; discriminate|].
    apply Qfloor_resp_le. apply round_mono; lra.
  - apply Z.le_trans
      with (Qfloor (Float64.round
                      (1000 + Float64.round (Float64.below_one * 9000))));
      [|vm_compute; discriminate].
    apply Qfloor_resp_le. apply round_mono; lra.
Qed.

Lemma join_last_two (sep x a b : jsstring) (pre : list jsstring) :
  join sep ((x :: pre) ++ [a; b]) = join sep (x :: pre) ++ sep ++ a ++ sep ++ b.
Proof.
  revert x. induction pre as [|y pre IH]; intro x.
  - reflexivity.
  - change ((x :: y :: pre) ++ [a; b]) with (x :: ((y :: pre) ++ [a; b])).
    rewrite join_cons by discriminate.
    rewrite IH. rewrite (@join_cons sep x (y :: pre)) by discriminate.
    now rewrite <- !app_assoc.
Qed.

Lemma regLine_shape (now : Report.Date) (r : Q) (n : Z) :
  Report.dateSeed now = yymmdd now ->
  Report.regLine (Report.regRand now r) n
  = regNoLine (yymmdd now) (Report.randomPart r) n.
Proof.
  intro H. unfold Report.regLine, Report.regRand, regNoLine.
  rewrite H. now rewrite <- !app_assoc.
Qed.

Lemma report_footer_tail (fairness reg : jsstring) (n : Z) :
  exists head,
    Report.footer fairness reg n
    = head ++ Report.nl ++ Report.regLine reg n ++ Report.nl
      ++ Report.copyrightLine.
Proof.
  eexists. unfold Report.footer.
  exact (@join_last_two Report.nl [] (Report.regLine reg n)
           Report.copyrightLine
           ([ [] ] ++ Report.boilerplate
            ++ [ []; js "ISO 42001 Fairness Verification: " ++ fairness ])).
Qed.

Lemma docx_footer_tail (reg : jsstring) (n : Z) :
  exists head,
    footerText reg n
    = head ++ Report.nl ++ Report.regLine reg n ++ Report.nl
      ++ Report.copyrightLine.
Proof.
  eexists. unfold footerText.
  exact (@join_last_two Report.nl [] (Report.regLine reg n)
           Report.copyrightLine (Report.boilerplate ++ [ [] ])).
Qed.

Lemma generated_report_tail (Vec : Type)
  (loadIndex : Z -> Result Error (list Vec))
  (searchIndex : jsstring -> list Vec -> Result Error (list Retrieval.Match))
  (chat : jsstring -> list Report.ChatMessage -> Result Error jsstring)
  (globalIndex : option (list Vec)) (now : Report.Date) (r : Q)
  (query text : jsstring) :
  Report.generateECMAssistant loadIndex searchIndex chat globalIndex now r
    query = Ok text ->
  exists head,
    text
    = head ++ Report.nl
      ++ Report.regLine (Report.regRand now r)
           (Retrieval.count
              (Retrieval.queryFaissIndex loadIndex searchIndex globalIndex
                 query))
      ++ Report.nl ++ Report.copyrightLine.
Proof.
  unfold Report.generateECMAssistant, bind.
  destruct (chat _ _) as [completion|e]; [|discriminate].
  intro H. injection H as <-.
  match goal with
  | |- context [Report.footer ?f ?g ?n] =>
      destruct (report_footer_tail f g n) as (head & ->)
  end.
  match goal with
  | |- exists _, ?body ++ _ = _ => exists (body ++ [10; 10]%N ++ head)
  end.
  rewrite <- !app_assoc. reflexivity.
Qed.




(* ================================================================== *)
(** * Failures of the collaborators *)
(* ================================================================== *)

(** C10. When the retrieval lookup throws (loading the index, when none is
    preloaded, or searching it), [queryFaissIndex] returns the empty context,
    joined text [""] and count 0, and throws nothing; report generation then
    goes on with an empty Context in the prompt and 0 as the item count of
    the footer. *)
Theorem failed_lookup_gives_empty_context
  (Vec : Type) (loadIndex : Z -> Result Error (list Vec))
  (searchIndex : jsstring -> list Vec -> Result Error (list Retrieval.Match))
  (globalIndex : option (list Vec)) (question : jsstring) (e : Error) :
  (Retrieval.obtainIndex loadIndex globalIndex = Throw e
   \/ exists index,
        Retrieval.obtainIndex loadIndex globalIndex = Ok index
        /\ searchIndex question index = Throw e) ->
  Retrieval.queryFaissIndex loadIndex searchIndex globalIndex question
  = {| Retrieval.joined := []; Retrieval.count := 0 |}
  /\ (forall (chat : jsstring -> list Report.ChatMessage
                     -> Result Error jsstring)
        (now : Report.Date) (r : Q),
        Report.generateECMAssistant loadIndex searchIndex chat globalIndex
          now r question
        = (completion <-
             chat (js "gpt-5")
               [ {| Report.role := js "user";
                    Report.content :=
                      trim (Report.promptTemplate question []) |} ] ;;
           let text := trim (Report.strip_appendix (trim completion)) in
           Ok (text ++ [10; 10]%N
               ++ Report.footer (Report.fairnessOf chat text)
                    (Report.regRand now r) 0))).
Proof.
  intro Hfail.
  assert (Hq : Retrieval.queryFaissIndex loadIndex searchIndex globalIndex
                 question
               = {| Retrieval.joined := []; Retrieval.count := 0 |}).
  { unfold Retrieval.queryFaissIndex, Retrieval.lookup, bind, try_catch.
    destruct Hfail as [-> | (index & -> & ->)]; reflexivity. }
  split; [exact Hq|].
  intros chat now r. unfold Report.generateECMAssistant.
  rewrite Hq. reflexivity.
Qed.

Lemma failed_lookup_gives_empty_context_witness :
  Retrieval.queryFaissIndex Samples.sampleLoad Samples.failingSearch
    (Some Samples.sampleIndex) (js "What is required?")
  = {| Retrieval.joined := []; Retrieval.count := 0 |}
  /\ (forall (chat : jsstring -> list Report.ChatMessage
                     -> Result Error jsstring)
        (now : Report.Date) (r : Q),
        Report.generateECMAssistant Samples.sampleLoad Samples.failingSearch
          chat (Some Samples.sampleIndex) now r (js "What is required?")
        = (completion <-
             chat (js "gpt-5")
               [ {| Report.role := js "user";
                    Report.content :=
                      trim (Report.promptTemplate (js "What is required?")
                              []) |} ] ;;
           let text := trim (Report.strip_appendix (trim completion)) in
           Ok (text ++ [10; 10]%N
               ++ Report.footer (Report.fairnessOf chat text)
                    (Report.regRand now r) 0))).
Proof.
  apply (@failed_lookup_gives_empty_context unit Samples.sampleLoad
           Samples.failingSearch (Some Samples.sampleIndex)
           (js "What is required?") Samples.failing).
  right. exists Samples.sampleIndex. split; reflexivity.
Defined.

(** C9. When the question is present and the report, the PDF buffer and the
    DOCX buffer are produced, the handler answers with status 200 and the
    question, the report text and the timestamp, whatever the Mailjet call
    does: when it throws, the error is caught and the answer is the same. *)
Theorem mail_failure_is_swallowed
  (Vec : Type) (loadIndex : Z -> Result Error (list Vec))
  (searchIndex : jsstring -> list Vec -> Result Error (list Retrieval.Match))
  (chat : jsstring -> list Report.ChatMessage -> Result Error jsstring)
  (widthOf : Font -> jsstring -> Q -> Q) (pw ph : Q)
  (Buffer : Type) (save : list Page -> Result Error Buffer)
  (toBuffer : list Paragraph -> Result Error Buffer)
  (send : Ask.Mail Buffer -> Result Error unit)
  (req : Ask.Request) (w : Ask.World Vec)
  (q reportText : jsstring) (pdfBuf docBuf : Buffer) :
  Ask.question req = Some q ->
  truthy q = true ->
  Report.generateECMAssistant loadIndex searchIndex chat (Ask.globalIndex w)
    (Ask.reportNow w) (Ask.reportRandom w) q = Ok reportText ->
  buildPdfBufferStructured widthOf pw ph save (Ask.email req) (Ask.ts w) q
    reportText = Ok pdfBuf ->
  toBuffer (Docx.docParagraphs (Ask.globalIndex w) (Ask.docxNow w)
              (Ask.docxRandom w) (Ask.ts w) reportText) = Ok docBuf ->
  Ask.ask loadIndex searchIndex chat widthOf pw ph save toBuffer send req w
  = {| Ask.status := 200;
       Ask.body := Ask.AnswerBody q reportText (Ask.ts w) |}
  /\ (forall e : Error,
        send (Ask.mailOf req w reportText pdfBuf docBuf) = Throw e ->
        Ask.ask loadIndex searchIndex chat widthOf pw ph save toBuffer send
          req w
        = Ask.ask loadIndex searchIndex chat widthOf pw ph save toBuffer
            (fun _ => Ok tt) req w).
Proof.
  intros Hq Htruthy Hgen Hpdf Hdoc.
  assert (Hask : forall send',
    Ask.ask loadIndex searchIndex chat widthOf pw ph save toBuffer send' req w
    = {| Ask.status := 200;
         Ask.body := Ask.AnswerBody q reportText (Ask.ts w) |}).
  { intro send'. unfold Ask.ask. rewrite Hq, Htruthy. cbn [negb].
    unfold Ask.answer. rewrite Hgen. cbn [bind]. rewrite Hpdf. cbn [bind].
    rewrite Hdoc. cbn [bind].
    destruct (try_catch (send' _) _). reflexivity. }
  split; [apply Hask|]. intros e _. now rewrite !Hask.
Qed.

Lemma mail_failure_is_swallowed_witness :
  Ask.ask Samples.sampleLoad Samples.sampleSearch Samples.sampleChat
    Samples.monoWidth Samples.a4Width Samples.a4Height Samples.sampleSave
    Samples.sampleToBuffer Samples.failingSend Samples.sampleRequest
    Samples.sampleWorld
  = {| Ask.status := 200;
       Ask.body := Ask.AnswerBody (js "What is required?")
                     Samples.sampleGenerated Samples.sampleTs |}
  /\ (forall e : Error,
        Samples.failingSend
          (Ask.mailOf Samples.sampleRequest Samples.sampleWorld
             Samples.sampleGenerated 1%nat 5%nat) = Throw e ->
        Ask.ask Samples.sampleLoad Samples.sampleSearch Samples.sampleChat
          Samples.monoWidth Samples.a4Width Samples.a4Height
          Samples.sampleSave Samples.sampleToBuffer Samples.failingSend
          Samples.sampleRequest Samples.sampleWorld
        = Ask.ask Samples.sampleLoad Samples.sampleSearch Samples.sampleChat
            Samples.monoWidth Samples.a4Width Samples.a4Height
            Samples.sampleSave Samples.sampleToBuffer (fun _ => Ok tt)
            Samples.sampleRequest Samples.sampleWorld).
Proof.
  apply (@mail_failure_is_swallowed unit Samples.sampleLoad
           Samples.sampleSearch Samples.sampleChat Samples.monoWidth
           Samples.a4Width Samples.a4Height nat Samples.sampleSave
           Samples.sampleToBuffer Samples.failingSend Samples.sampleRequest
           Samples.sampleWorld (js "What is required?")
           Samples.sampleGenerated 1%nat 5%nat).
  - reflexivity.
  - reflexivity.
  - vm_compute. reflexivity.
  - vm_compute. reflexivity.
  - vm_compute. reflexivity.
Defined.

(* ================================================================== *)
(** * Further properties: trimming and the sanitizer *)
(* ================================================================== *)

Lemma drop_while_incl (p : N -> bool) (s : jsstring) (c : N) :
  In c (drop_while p s) -> In c s.
Proof.
  induction s as [|d s IH]; simpl; [auto|].
  destruct (p d); [right; auto | auto].
Qed.

Lemma trimEnd_incl (s : jsstring) (c : N) : In c (trimEnd s) -> In c s.
Proof.
  unfold trimEnd. intro H. apply in_rev in H.
  apply drop_while_incl in H. now apply in_rev.
Qed.

Lemma trim_incl (s : jsstring) (c : N) : In c (trim s) -> In c s.
Proof.
  unfold trim, trimStart. intro H.
  apply trimEnd_incl in H. now apply drop_while_incl in H.
Qed.

Lemma filter_fixed (p : N -> bool) (s : jsstring) :
  Forall (fun c => p c = true) s -> filter p s = s.
Proof.
  induction 1 as [|c s Hc _ IH]; simpl; [reflexivity|].
  now rewrite Hc, IH.
Qed.

Lemma sanitize_safe (txt : jsstring) :
  Forall (fun c => pdf_safe c = true) (sanitizeForPdf txt).
Proof.
  apply Forall_forall. intros c Hc. unfold sanitizeForPdf in Hc.
  apply trim_incl in Hc. apply filter_In in Hc. tauto.
Qed.

(** X1. What [sanitizeForPdf] returns holds only code units of the allowed
    set, neither begins nor ends with whitespace, and is left unchanged by
    sanitizing it again. *)
Theorem sanitize_allowed_trimmed_idempotent (txt : jsstring) :
  Forall (fun c => pdf_safe c = true) (sanitizeForPdf txt)
  /\ trim (sanitizeForPdf txt) = sanitizeForPdf txt
  /\ sanitizeForPdf (sanitizeForPdf txt) = sanitizeForPdf txt.
Proof.
  split; [apply sanitize_safe|]. split.
  - unfold sanitizeForPdf. apply trim_idempotent.
  - unfold sanitizeForPdf at 1.
    rewrite (@filter_fixed pdf_safe _ (sanitize_safe txt)).
    unfold sanitizeForPdf. apply trim_idempotent.
Qed.

(* ================================================================== *)
(** * Further properties of the word wrapper *)
(* ================================================================== *)

Lemma split_ws_from_chars (P : N -> Prop) (s : jsstring) : forall b,
  (forall c, In c s -> is_space c = false -> P c) ->
  Forall (Forall P) (split_ws_from b s).
Proof.
  induction s as [|c s IH]; intros b HP; simpl.
  - repeat constructor.
  - assert (HP' : forall d, In d s -> is_space d = false -> P d)
      by (intros d Hd; apply HP; now right).
    destruct (is_space c) eqn:E.
    + destruct b; [now apply IH|]. constructor; [constructor | now apply IH].
    + specialize (IH false HP').
      destruct (split_ws_from false s) as [|piece rest].
      * repeat constructor. apply HP; [now left | exact E].
      * inversion IH as [|? ? Hp Hr]; subst.
        constructor; [|exact Hr].
        constructor; [|exact Hp]. apply HP; [now left | exact E].
Qed.

Section WrapShape.
Variable widthOf : Font -> jsstring -> Q -> Q.
Variables (maxWidth size : Q) (font : Font).

Local Abbreviation step := (wrap_step widthOf maxWidth size font).

Lemma wrap_loop_chars (P : N -> Prop) (ws : list jsstring) : forall acc,
  P 32%N ->
  Forall (Forall P) ws ->
  Forall (Forall P) (fst acc) -> Forall P (snd acc) ->
  Forall (Forall P) (rows_of (fold_left step ws acc)).
Proof.
  induction ws as [|w ws IH]; intros [rows cur] Hsp Hws Hrows Hcur.
  - unfold rows_of. simpl. apply Forall_app. split; [assumption|].
    now constructor.
  - inversion Hws as [|? ? Hw Hws']; subst.
    change (fold_left step (w :: ws) (rows, cur))
      with (fold_left step ws (step (rows, cur) w)).
    apply IH; try assumption.
    + unfold wrap_step. simpl in *.
      destruct (Qltb _ _ && truthy cur); simpl; [|assumption].
      apply Forall_app. split; [assumption | now constructor].
    + unfold wrap_step. simpl in *.
      destruct (Qltb _ _ && truthy cur); simpl; [assumption|].
      destruct (truthy cur); [|assumption].
      apply Forall_app. split; [assumption|]. now constructor.
Qed.

Lemma wrap_loop_count (ws : list jsstring) : forall acc,
  (List.length (fst (fold_left step ws acc))
   <= List.length (fst acc) + List.length ws)%nat.
Proof.
  induction ws as [|w ws IH]; intros [rows cur]; simpl fold_left.
  - simpl. lia.
  - etransitivity; [apply IH|].
    unfold wrap_step. destruct (Qltb _ _ && truthy cur); simpl.
    + rewrite length_app. simpl. lia.
    + lia.
Qed.

Lemma wrap_first_step (w : jsstring) : step ([], []) w = ([], w).
Proof.
  unfold wrap_step. simpl. now rewrite andb_false_r.
Qed.

Lemma wrap_loop_rows_nonempty (ws : list jsstring) : forall acc,
  Forall (fun r => r <> []) (fst acc) ->
  Forall (fun r => r <> []) (fst (fold_left step ws acc)).
Proof.
  induction ws as [|w ws IH]; intros [rows cur] Hrows; [assumption|].
  change (fold_left step (w :: ws) (rows, cur))
    with (fold_left step ws (step (rows, cur) w)).
  apply IH. unfold wrap_step. simpl in *.
  destruct cur as [|c cur]; simpl.
  - now rewrite andb_false_r.
  - rewrite andb_true_r. destruct (Qltb _ _); simpl; [|assumption].
    apply Forall_app. split; [assumption|]. constructor; [discriminate|].
    constructor.
Qed.

Lemma wrap_loop_cur_nonempty (ws : list jsstring) : forall acc,
  Forall (fun w => w <> []) ws ->
  snd acc <> [] ->
  snd (fold_left step ws acc) <> [].
Proof.
  induction ws as [|w ws IH]; intros [rows cur] Hws Hcur; [assumption|].
  inversion Hws as [|? ? Hw Hws']; subst.
  change (fold_left step (w :: ws) (rows, cur))
    with (fold_left step ws (step (rows, cur) w)).
  apply IH; [assumption|]. unfold wrap_step. simpl in *.
  destruct (Qltb _ _ && truthy cur); simpl; [assumption|].
  destruct cur; [congruence | discriminate].
Qed.
End WrapShape.

(** X2. Every code unit of every row of [wrap] is a code unit of the text
    that is not whitespace, or a space: a row holds no tab and no line
    break, whatever the text. *)
Theorem wrap_rows_hold_no_line_break
  (widthOf : Font -> jsstring -> Q -> Q) (txt : jsstring)
  (x maxWidth size : Q) (font : Font) :
  Forall (Forall (fun c => (In c txt /\ is_space c = false) \/ c = 32%N))
    (wrap widthOf txt x maxWidth size font).
Proof.
  rewrite wrap_rows_of. apply wrap_loop_chars.
  - now right.
  - apply split_ws_from_chars. intros c Hin Hsp. now left.
  - constructor.
  - constructor.
Qed.

(** X3. [wrap] returns at least one row and at most as many rows as the
    text has [split(/\s+/)] tokens. *)
Theorem wrap_row_count
  (widthOf : Font -> jsstring -> Q -> Q) (txt : jsstring)
  (x maxWidth size : Q) (font : Font) :
  (1 <= List.length (wrap widthOf txt x maxWidth size font)
   <= List.length (split_ws txt))%nat.
Proof.
  rewrite wrap_rows_of. unfold rows_of. rewrite length_app. simpl.
  split; [lia|].
  destruct (split_ws txt) as [|w ws] eqn:E.
  - exfalso. exact (split_ws_from_nonempty false txt E).
  - change (fold_left (wrap_step widthOf maxWidth size font) (w :: ws)
              ([], []))
      with (fold_left (wrap_step widthOf maxWidth size font) ws
              (wrap_step widthOf maxWidth size font ([], []) w)).
    rewrite wrap_first_step.
    pose proof (wrap_loop_count widthOf maxWidth size font ws ([], w)) as H.
    simpl in *. lia.
Qed.

(** X4. Of a text that is trimmed and not empty, [wrap] returns no empty
    row. *)
Theorem wrap_rows_nonempty
  (widthOf : Font -> jsstring -> Q -> Q) (txt : jsstring)
  (x maxWidth size : Q) (font : Font) :
  trim txt = txt -> txt <> [] ->
  Forall (fun r => r <> []) (wrap widthOf txt x maxWidth size font).
Proof.
  intros Htrim Hne. rewrite wrap_rows_of. unfold rows_of.
  pose proof (split_ws_trimmed_nonempty Htrim Hne) as Hws.
  destruct (split_ws txt) as [|w ws] eqn:E.
  - exfalso. exact (split_ws_from_nonempty false txt E).
  - inversion Hws as [|? ? Hw Hws']; subst.
    change (fold_left (wrap_step widthOf maxWidth size font) (w :: ws)
              ([], []))
      with (fold_left (wrap_step widthOf maxWidth size font) ws
              (wrap_step widthOf maxWidth size font ([], []) w)).
    rewrite wrap_first_step. apply Forall_app. split.
    + apply wrap_loop_rows_nonempty. constructor.
    + constructor; [|constructor].
      now apply wrap_loop_cur_nonempty.
Qed.

Lemma wrap_rows_nonempty_witness :
  Forall (fun r => r <> [])
    (wrap Samples.monoWidth (js "aa bb cc dddddddd e") 50 30 11 Helvetica).
Proof.
  apply (@wrap_rows_nonempty Samples.monoWidth (js "aa bb cc dddddddd e")
           50 30 11 Helvetica).
  - reflexivity.
  - discriminate.
Defined.

Lemma join_head_nonempty (sep a : jsstring) (l : list jsstring) :
  a <> [] -> join sep (a :: l) <> [].
Proof.
  intro Ha. destruct l as [|b l].
  - exact Ha.
  - rewrite join_cons by discriminate.
    destruct a as [|c a]; [now elim Ha | discriminate].
Qed.

Section WrapFitting.
Variable widthOf : Font -> jsstring -> Q -> Q.
Variables (maxWidth size : Q) (font : Font).

Lemma wrap_loop_fitting (ws : list jsstring) : forall a pre,
  a <> [] ->
  (forall k,
      widthOf font (join space (firstn k ((a :: pre) ++ ws))) size
      <= maxWidth) ->
  fold_left (wrap_step widthOf maxWidth size font) ws
    ([], join space (a :: pre))
  = ([], join space ((a :: pre) ++ ws)).
Proof.
  induction ws as [|w ws IH]; intros a pre Ha Hfit.
  - now rewrite app_nil_r.
  - change (fold_left (wrap_step widthOf maxWidth size font) (w :: ws)
              ([], join space (a :: pre)))
      with (fold_left (wrap_step widthOf maxWidth size font) ws
              (wrap_step widthOf maxWidth size font
                 ([], join space (a :: pre)) w)).
    assert (Hstep :
      wrap_step widthOf maxWidth size font ([], join space (a :: pre)) w
      = ([], join space (a :: pre ++ [w]))).
    { unfold wrap_step.
      pose proof (@join_head_nonempty space a pre Ha) as Hne.
      destruct (join space (a :: pre)) as [|c cur] eqn:E; [now elim Hne|].
      cbn [truthy]. rewrite andb_true_r.
      assert (Htest : (c :: cur) ++ [32%N] ++ w
                      = join space (a :: pre ++ [w])).
      { rewrite <- E. change (a :: pre ++ [w]) with ((a :: pre) ++ [w]).
        rewrite join_snoc by discriminate. reflexivity. }
      rewrite Htest.
      assert (Hle : widthOf font (join space (a :: pre ++ [w])) size
                    <= maxWidth).
      { specialize (Hfit (List.length ((a :: pre) ++ [w]))).
        replace ((a :: pre) ++ w :: ws) with (((a :: pre) ++ [w]) ++ ws)
          in Hfit by (now rewrite <- app_assoc).
        rewrite firstn_app, firstn_all, Nat.sub_diag in Hfit.
        simpl firstn in Hfit. rewrite app_nil_r in Hfit. exact Hfit. }
      apply Qltb_false in Hle. now rewrite Hle. }
    rewrite Hstep.
    change (a :: pre ++ [w]) with (a :: (pre ++ [w])).
    rewrite IH; [|exact Ha|].
    + simpl. now rewrite <- app_assoc.
    + intro k. specialize (Hfit k).
      replace ((a :: pre ++ [w]) ++ ws) with ((a :: pre) ++ w :: ws)
        by (simpl; now rewrite <- app_assoc).
      exact Hfit.
Qed.
End WrapFitting.

(** X5. When the text does not begin with whitespace and its tokens,
    joined with single spaces, fit the maximum width at every token (as does
    a line that fits, under a measurement that grows with the text), [wrap]
    returns one row: the tokens joined with single spaces. *)
Theorem wrap_fitting_line_is_one_row
  (widthOf : Font -> jsstring -> Q -> Q) (txt : jsstring)
  (x maxWidth size : Q) (font : Font) :
  starts_with_space txt = false ->
  (forall k,
      widthOf font (join space (firstn k (split_ws txt))) size <= maxWidth) ->
  wrap widthOf txt x maxWidth size font = [join space (split_ws txt)].
Proof.
  intros Hlead Hfit. rewrite wrap_rows_of. unfold rows_of.
  pose proof (split_ws_inner txt Hlead) as Hinner.
  destruct (split_ws txt) as [|w ws] eqn:E.
  - exfalso. exact (split_ws_from_nonempty false txt E).
  - change (fold_left (wrap_step widthOf maxWidth size font) (w :: ws)
              ([], []))
      with (fold_left (wrap_step widthOf maxWidth size font) ws
              (wrap_step widthOf maxWidth size font ([], []) w)).
    rewrite wrap_first_step.
    destruct (inner_nonempty_head _ _ Hinner) as [-> | Hw].
    + reflexivity.
    + pose proof (@wrap_loop_fitting widthOf maxWidth size font ws w []
                    Hw Hfit) as H.
      change (join space [w]) with w in H. now rewrite H.
Qed.

Lemma wrap_fitting_line_is_one_row_witness :
  wrap Samples.monoWidth (js "aa  bb") 50 100 11 Helvetica
  = [join space (split_ws (js "aa  bb"))].
Proof.
  apply (@wrap_fitting_line_is_one_row Samples.monoWidth (js "aa  bb")
           50 100 11 Helvetica).
  - reflexivity.
  - intros [|[|[|k]]]; vm_compute; intro H; discriminate H.
Defined.

(* ================================================================== *)
(** * Further properties of the page layout *)
(* ================================================================== *)

Section LayoutInvariants.
Variable widthOf : Font -> jsstring -> Q -> Q.
Variables pw ph : Q.

Lemma para_invariant (I : Layout -> Prop) x size font :
  (forall st r, I st -> I (place pw ph x size font st r)) ->
  forall txt st, I st -> I (para widthOf pw ph txt x size font st).
Proof.
  intros Hplace txt st. unfold para.
  generalize (wrap widthOf (sanitizeForPdf txt) x
                (Float64.sub (Float64.sub (width st) x) margin) size font).
  intro rows. revert st. induction rows as [|r rows IH]; intros st Hst.
  - exact Hst.
  - simpl. apply IH. now apply Hplace.
Qed.

(** What holds once the title is drawn, and is kept by every row placed and
    by every move of the cursor, holds of the whole document. *)
Lemma layout_invariant (I : Layout -> Prop)
  fullName ts question reportText :
  (forall st r, I st -> I (place pw ph margin fsBody Helvetica st r)) ->
  (forall st yy, I st -> I (setY yy st)) ->
  I (draw (js "ECM Assistant Report") margin (Float64.sub ph margin) fsTitle
       HelveticaBold (firstPage pw ph)) ->
  I (layoutReport widthOf pw ph fullName ts question reportText).
Proof.
  intros Hplace Hset Htitle. unfold layoutReport.
  apply para_invariant; [exact Hplace|].
  apply para_invariant; [exact Hplace|].
  apply Hset.
  apply para_invariant; [exact Hplace|].
  apply para_invariant; [exact Hplace|].
  apply Hset. exact Htitle.
Qed.

Lemma ops_place x size font (st : Layout) (r : jsstring) :
  exists yy,
    List.concat (pagesOf (place pw ph x size font st r))
    = List.concat (pagesOf st) ++ [rowOp r x yy size font]
    /\ ((Float64.sub (y st) lh < margin /\ yy = Float64.sub ph margin)
        \/ (~ Float64.sub (y st) lh < margin /\ yy = y st)).
Proof.
  destruct (place_cases pw ph x size font st r) as [[Hlt ->] | [Hge ->]].
  - exists (Float64.sub ph margin). split; [|left; now split].
    unfold pagesOf. simpl. rewrite !concat_app. simpl.
    now rewrite !app_nil_r.
  - exists (y st). split; [|right; now split].
    unfold pagesOf. simpl. rewrite !concat_app. simpl.
    now rewrite !app_nil_r, app_assoc.
Qed.

Lemma nonempty_pages_place x size font (st : Layout) (r : jsstring) :
  Forall (fun p => p <> []) (pagesOf st) ->
  Forall (fun p => p <> []) (pagesOf (place pw ph x size font st r)).
Proof.
  intro H. unfold pagesOf in H. apply Forall_app in H. destruct H as [H1 H2].
  destruct (place_cases pw ph x size font st r) as [[_ ->] | [_ ->]];
    unfold pagesOf; simpl.
  - apply Forall_app. split; [now apply Forall_app|].
    constructor; [discriminate | constructor].
  - apply Forall_app. split; [assumption|].
    constructor; [|constructor]. destruct (page st); discriminate.
Qed.
End LayoutInvariants.


(** X7. Every text of the document is drawn either at the top margin of
    its page, or at a height from which one line height can be taken without
    passing below the bottom margin (the difference and the comparison being
    those [ensure] computes): a row is never drawn where [ensure] would have
    asked for a new page. *)
Theorem rows_drawn_at_top_or_above_margin
  (widthOf : Font -> jsstring -> Q -> Q) (pw ph : Q)
  (fullName : option jsstring) (ts question reportText : jsstring) :
  Forall (fun o =>
            op_y o = Float64.sub ph margin
            \/ ~ Float64.sub (op_y o) lh < margin)
    (List.concat
       (pagesOf (layoutReport widthOf pw ph fullName ts question reportText))).
Proof.
  apply (@layout_invariant widthOf pw ph
           (fun st =>
              Forall (fun o =>
                        op_y o = Float64.sub ph margin
                        \/ ~ Float64.sub (op_y o) lh < margin)
                (List.concat (pagesOf st)))).
  - intros st r H.
    destruct (ops_place pw ph margin fsBody Helvetica st r)
      as (yy & -> & Hyy).
    apply Forall_app. split; [exact H|].
    constructor; [|constructor]. simpl.
    destruct Hyy as [[_ ->] | [Hge ->]]; [now left | now right].
  - intros st yy H. exact H.
  - constructor; [now left | constructor].
Qed.

(** X8. The document draws the title first, bold at size 16, at the left
    margin and the top margin; every other text is drawn at the left margin
    in the regular font at size 11, whatever its role. *)
Theorem title_then_uniform_body
  (widthOf : Font -> jsstring -> Q -> Q) (pw ph : Q)
  (fullName : option jsstring) (ts question reportText : jsstring) :
  exists rest,
    List.concat
      (pagesOf (layoutReport widthOf pw ph fullName ts question reportText))
    = rowOp (js "ECM Assistant Report") margin (Float64.sub ph margin)
        fsTitle HelveticaBold :: rest
    /\ Forall body_style rest.
Proof.
  apply (@layout_invariant widthOf pw ph
           (fun st => exists rest,
                List.concat (pagesOf st)
                = rowOp (js "ECM Assistant Report") margin
                    (Float64.sub ph margin) fsTitle HelveticaBold :: rest
                /\ Forall body_style rest)).
  - intros st r (rest & Heq & Hrest).
    destruct (ops_place pw ph margin fsBody Helvetica st r)
      as (yy & Hops & _).
    exists (rest ++ [rowOp r margin yy fsBody Helvetica]).
    rewrite Hops, Heq. split; [reflexivity|].
    apply Forall_app. split; [assumption|].
    constructor; [|constructor]. repeat split.
  - intros st yy H. exact H.
  - exists []. split; [reflexivity | constructor].
Qed.

Lemma safe_nonspace_printable (c : N) :
  pdf_safe c = true -> is_space c = false -> printable c = true.
Proof.
  unfold pdf_safe, printable. intros Hs Hn.
  repeat (apply orb_prop in Hs; destruct Hs as [Hs|Hs]);
    try (apply N.eqb_eq in Hs; subst c; try discriminate Hn; reflexivity).
  now rewrite Hs.
Qed.

Lemma wrap_sanitized_printable
  (widthOf : Font -> jsstring -> Q -> Q) (txt : jsstring)
  (x maxWidth size : Q) (font : Font) :
  Forall (Forall (fun c => printable c = true))
    (wrap widthOf (sanitizeForPdf txt) x maxWidth size font).
Proof.
  rewrite wrap_rows_of. apply wrap_loop_chars.
  - reflexivity.
  - apply split_ws_from_chars. intros c Hin Hsp.
    apply safe_nonspace_printable; [|exact Hsp].
    pose proof (sanitize_safe txt) as Hsafe.
    rewrite Forall_forall in Hsafe. now apply Hsafe.
  - constructor.
  - constructor.
Qed.

(** X9. Every text the document draws is made of printable code units
    only: the ASCII range from the space to the tilde, the pound sign and the
    two dashes.  No tab, line break or other code unit reaches
    [page.drawText]. *)
Theorem drawn_texts_printable
  (widthOf : Font -> jsstring -> Q -> Q) (pw ph : Q)
  (fullName : option jsstring) (ts question reportText : jsstring) :
  Forall (Forall (fun c => printable c = true))
    (drawnTexts (layoutReport widthOf pw ph fullName ts question reportText)).
Proof.
  rewrite drawnTexts_layoutReport.
  constructor.
  - apply Forall_forall. intros c Hc.
    repeat (destruct Hc as [<- | Hc]; [reflexivity|]). destruct Hc.
  - repeat (apply Forall_app; split); apply wrap_sanitized_printable.
Qed.

(* ================================================================== *)
(** * Further properties: the lines of the report *)
(* ================================================================== *)

Lemma cons_head_shape (c : N) (pieces : list jsstring) :
  exists q rest, cons_head c pieces = (c :: q) :: rest
                 /\ (pieces = [] /\ q = [] /\ rest = []
                     \/ pieces = q :: rest).
Proof.
  destruct pieces as [|p rest]; simpl.
  - exists [], []. auto.
  - exists p, rest. auto.
Qed.

Lemma split_lines_from_no_newline (s : jsstring) : forall b,
  Forall (fun l => ~ In 10%N l) (split_lines_from b s).
Proof.
  induction s as [|c s IH]; intro b.
  - simpl. constructor; [tauto | constructor].
  - assert (Hcons : (c =? 10)%N = false ->
                    Forall (fun l => ~ In 10%N l)
                      (cons_head c (split_lines_from false s))).
    { intro Hc. apply N.eqb_neq in Hc. specialize (IH false).
      destruct (split_lines_from false s) as [|p rest]; simpl.
      - constructor; [|constructor]. simpl. intros [H|[]]. congruence.
      - inversion IH; subst. constructor; [|assumption].
        simpl. intros [H|H]; [congruence | tauto]. }
    simpl. destruct (c =? 10)%N eqn:E10.
    + constructor; [tauto | apply IH].
    + destruct (c =? 32)%N; [|now apply Hcons].
      destruct b; [apply IH|].
      destruct s as [|c2 s']; [now apply Hcons|].
      destruct (c2 =? 32)%N; [|now apply Hcons].
      constructor; [tauto | apply IH].
Qed.

Lemma split_lines_head (s : jsstring) :
  match split_lines_from false s with
  | [] => False
  | p :: _ => p = [] \/ exists c t q, s = c :: t /\ p = c :: q
  end.
Proof.
  destruct s as [|c s]; simpl; [now left|].
  assert (H : match cons_head c (split_lines_from false s) with
              | [] => False
              | p :: _ => p = [] \/ exists c0 t q, c :: s = c0 :: t /\ p = c0 :: q
              end).
  { destruct (cons_head_shape c (split_lines_from false s))
      as (q & rest & -> & _).
    right. now exists c, s, q. }
  destruct (c =? 10)%N; [now left|].
  destruct (c =? 32)%N; [|exact H].
  destruct s as [|c2 s']; [exact H|].
  destruct (c2 =? 32)%N; [now left | exact H].
Qed.

Lemma no_double_space_cons (c : N) (p : jsstring) :
  no_double_space p ->
  (c = 32%N -> first_code p <> Some 32%N) ->
  no_double_space (c :: p).
Proof.
  intros Hp Hc. destruct p as [|d p]; [exact I|].
  change (~ (c = 32%N /\ d = 32%N) /\ no_double_space (d :: p)).
  split; [|exact Hp]. intros [H1 H2]. apply (Hc H1). simpl. now subst.
Qed.

Lemma split_lines_from_no_double_space (s : jsstring) : forall b,
  Forall no_double_space (split_lines_from b s).
Proof.
  induction s as [|c s IH]; intro b.
  - simpl. constructor; [exact I | constructor].
  - assert (Hcons : (c = 32%N -> first_code s <> Some 32%N) ->
                    Forall no_double_space
                      (cons_head c (split_lines_from false s))).
    { intro Hc. specialize (IH false).
      pose proof (split_lines_head s) as Hhead.
      destruct (split_lines_from false s) as [|p rest]; [contradiction|].
      simpl. inversion IH; subst. constructor; [|assumption].
      apply no_double_space_cons; [assumption|].
      intros H32 Hp. destruct Hhead as [-> | (c0 & t & q & -> & ->)].
      - discriminate Hp.
      - apply (Hc H32). exact Hp. }
    simpl. destruct (c =? 10)%N eqn:E10.
    + constructor; [exact I | apply IH].
    + destruct (c =? 32)%N eqn:E32.
      * destruct b; [apply IH|].
        destruct s as [|c2 s']; [apply Hcons; discriminate|].
        destruct (c2 =? 32)%N eqn:E2.
        -- constructor; [exact I | apply IH].
        -- apply Hcons. intros _ H. simpl in H. injection H as ->.
           discriminate E2.
      * apply Hcons. intro H. subst c. discriminate E32.
Qed.

(** X10. The report always splits into at least one line, and no line
    holds a line feed or two adjacent spaces: both are separators and are
    consumed by the split. *)
Theorem report_lines_hold_no_separator (reportText : jsstring) :
  reportLines reportText <> []
  /\ Forall (fun l => ~ In 10%N l /\ no_double_space l)
       (reportLines reportText).
Proof.
  unfold reportLines. split; [apply split_lines_from_nonempty|].
  apply Forall_forall. intros l Hl. split.
  - pose proof (split_lines_from_no_newline
                  (collapse_newlines reportText) false) as H.
    rewrite Forall_forall in H. now apply H.
  - pose proof (split_lines_from_no_double_space
                  (collapse_newlines reportText) false) as H.
    rewrite Forall_forall in H. now apply H.
Qed.

Lemma split_nl_nonempty (s : jsstring) : Ask.split_nl s <> [].
Proof.
  destruct s as [|c s]; simpl; [discriminate|].
  destruct (c =? 10)%N; [discriminate|].
  destruct (Ask.split_nl s); discriminate.
Qed.

(** X11. Splitting a text at its line feeds and joining the pieces with
    line feeds gives the text back, and no piece holds a line feed: the lines
    of the HTML part of the mail are the lines of the report. *)
Theorem split_nl_join_roundtrip (s : jsstring) :
  join [10%N] (Ask.split_nl s) = s
  /\ Forall (fun l => ~ In 10%N l) (Ask.split_nl s)
  /\ Ask.htmlPart s
     = List.concat
         (List.map (fun l => js "<p>" ++ l ++ js "</p>") (Ask.split_nl s)).
Proof.
  split; [|split].
  - induction s as [|c s IH]; [reflexivity|]. simpl.
    pose proof (split_nl_nonempty s) as Hne.
    destruct (c =? 10)%N eqn:E.
    + apply N.eqb_eq in E. subst c.
      rewrite join_cons by assumption. simpl. now rewrite IH.
    + destruct (Ask.split_nl s) as [|p rest]; [congruence|]. simpl.
      destruct rest as [|p2 rest].
      * simpl in IH. now rewrite IH.
      * rewrite join_cons in IH by discriminate. simpl. simpl in IH.
        now rewrite IH.
  - induction s as [|c s IH]; simpl.
    + constructor; [tauto | constructor].
    + destruct (c =? 10)%N eqn:E.
      * constructor; [tauto | assumption].
      * apply N.eqb_neq in E.
        destruct (Ask.split_nl s) as [|p rest]; simpl.
        -- constructor; [|constructor]. simpl. intros [H|[]]. congruence.
        -- inversion IH; subst. constructor; [|assumption].
           simpl. intros [H|H]; [congruence | tauto].
  - unfold Ask.htmlPart.
    generalize (List.map (fun l => js "<p>" ++ l ++ js "</p>")
                  (Ask.split_nl s)).
    intro l. induction l as [|a l IH]; [reflexivity|].
    destruct l as [|b l]; [simpl; now rewrite app_nil_r|].
    rewrite join_cons by discriminate. simpl in *. now rewrite IH.
Qed.

(* ================================================================== *)
(** * Further properties of the line classifier *)
(* ================================================================== *)

Lemma classify_emit_inv (t : jsstring) (role : Role) (p : Paragraph) :
  classify t = Emit role p ->
  (role = Blank /\ t = [] /\ p = ParagraphOfText [])
  \/ (role = Heading /\ heading_re t = true
      /\ p = styled t true 28 (Some 200%Z) (Some 120%Z) None)
  \/ (role = SubHeading /\ subheading_re t = true
      /\ p = styled (trim (strip_letter t)) true 24 (Some 120%Z)
               (Some 80%Z) None)
  \/ (role = Label /\ label_re t = true
      /\ p = styled (trim (replace_bullet [] t)) true 24 (Some 120%Z)
               (Some 80%Z) None)
  \/ (role = Bullet /\ bullet_re t = true
      /\ p = styled (trim (replace_bullet [8226; 32]%N t)) false 22 None
               (Some 60%Z) (Some (680%Z, 360%Z)))
  \/ (role = Body /\ p = styled t false 22 None (Some 120%Z) None).
Proof.
  unfold classify.
  destruct t as [|c t'] eqn:Et.
  - simpl. intro H. injection H as <- <-. left. auto.
  - cbn [truthy negb]. rewrite <- Et.
    destruct (startsWith footerMarker t); [discriminate|].
    destruct (heading_re t) eqn:E1.
    { intro H. injection H as <- <-. right. left. auto. }
    destruct (subheading_re t) eqn:E2.
    { intro H. injection H as <- <-. right. right. left. auto. }
    destruct (label_re t) eqn:E3.
    { intro H. injection H as <- <-. right. right. right. left. auto. }
    destruct (bullet_re t) eqn:E4.
    { intro H. injection H as <- <-. right. right. right. right. left. auto. }
    intro H. injection H as <- <-. right. right. right. right. right. auto.
Qed.

(** X12. For every trimmed line, the text of the paragraph the classifier
    makes of it neither begins nor ends with whitespace. *)
Theorem paragraph_text_is_trimmed
  (t : jsstring) (role : Role) (p : Paragraph) :
  trim t = t ->
  classify t = Emit role p ->
  trim (paragraphText p) = paragraphText p.
Proof.
  intros Htrim Hc.
  destruct (classify_emit_inv _ Hc)
    as [(_ & _ & ->) | [(_ & _ & ->) | [(_ & _ & ->) | [(_ & _ & ->)
        | [(_ & _ & ->) | (_ & ->)]]]]];
    try rewrite paragraphText_styled;
    try apply trim_idempotent; try exact Htrim.
  reflexivity.
Qed.

Lemma paragraph_text_is_trimmed_witness :
  trim (paragraphText
          (styled (js "Scope") true 24 (Some 120%Z) (Some 80%Z) None))
  = paragraphText
      (styled (js "Scope") true 24 (Some 120%Z) (Some 80%Z) None).
Proof.
  apply (@paragraph_text_is_trimmed (js "B.  Scope") SubHeading
           (styled (js "Scope") true 24 (Some 120%Z) (Some 80%Z) None)).
  - reflexivity.
  - reflexivity.
Defined.

Lemma trimEnd_head (s : jsstring) (x : N) (l : jsstring) :
  trimEnd s = x :: l -> exists s', s = x :: s'.
Proof.
  destruct s as [|c s]; [discriminate|].
  rewrite trimEnd_cons. destruct (trimEnd s).
  - destruct (is_space c); [discriminate|]. intro H. injection H as -> _.
    now exists s.
  - intro H. injection H as -> _. now exists s.
Qed.

(** X13. The text of a Bullet is the glyph [•] alone, or [•], one space
    and a text that begins with a code unit that is not whitespace, whether
    the line began with [-] or with [•] and whatever whitespace followed. *)
Theorem bullet_text_is_normalized (t : jsstring) (p : Paragraph) :
  classify t = Emit Bullet p ->
  paragraphText p = [8226%N]
  \/ exists x l, paragraphText p = (8226 :: 32 :: x :: l)%N
                 /\ is_space x = false.
Proof.
  intro Hc.
  destruct (classify_bullet_inv _ Hc) as (_ & Hbul & ->).
  rewrite paragraphText_styled.
  destruct t as [|b rest]; [discriminate|]. cbn [bullet_re] in Hbul.
  unfold replace_bullet. rewrite Hbul.
  change ([8226; 32]%N ++ drop_while is_space rest)
    with (8226 :: 32 :: drop_while is_space rest)%N.
  unfold trim, trimStart. cbn [drop_while].
  change (is_space 8226) with false. cbv iota.
  rewrite !trimEnd_cons.
  destruct (trimEnd (drop_while is_space rest)) as [|x l] eqn:E.
  - left. reflexivity.
  - right. exists x, l. split; [reflexivity|].
    destruct (trimEnd_head _ E) as (s' & Hs).
    exact (drop_while_head _ _ Hs).
Qed.

Lemma bullet_text_is_normalized_witness :
  paragraphText
    (styled (8226%N :: js " Item one") false 22 None (Some 60%Z)
       (Some (680%Z, 360%Z))) = [8226%N]
  \/ exists x l,
       paragraphText
         (styled (8226%N :: js " Item one") false 22 None (Some 60%Z)
            (Some (680%Z, 360%Z))) = (8226 :: 32 :: x :: l)%N
       /\ is_space x = false.
Proof.
  apply (@bullet_text_is_normalized (45%N :: js "    Item one")
           (styled (8226%N :: js " Item one") false 22 None (Some 60%Z)
              (Some (680%Z, 360%Z)))).
  reflexivity.
Defined.

Lemma sep_of_space (c : N) : is_sep c = false -> is_space c = false.
Proof.
  unfold is_sep. intro H. now apply orb_false_elim in H.
Qed.

(** X14. The text of a SubHeading of a trimmed line is what follows the
    capital letter and the whole run of [)], [.] and whitespace after it: the
    line is the letter, that run (not empty), and the text, and the text does
    not begin with one of them. *)
Theorem subheading_text_follows_marker (t : jsstring) (p : Paragraph) :
  trim t = t ->
  classify t = Emit SubHeading p ->
  exists c seps,
    t = c :: seps ++ paragraphText p
    /\ is_upper c = true /\ seps <> [] /\ forallb is_sep seps = true
    /\ match paragraphText p with
       | [] => True
       | x :: _ => is_sep x = false
       end.
Proof.
  intros Htrim Hc.
  destruct (classify_emit_inv _ Hc)
    as [(H & _) | [(H & _) | [(_ & Hre & ->) | [(H & _)
        | [(H & _) | (H & _)]]]]]; try discriminate H.
  rewrite paragraphText_styled.
  destruct t as [|c [|d s]]; try discriminate Hre.
  cbn [subheading_re] in Hre. apply andb_prop in Hre.
  destruct Hre as [Hup Hsep].
  unfold strip_letter. rewrite Hup, Hsep. cbn [andb].
  apply trim_fixed_end in Htrim.
  pose proof (trimEnd_fixed_tail (trimEnd_fixed_tail Htrim)) as Hs.
  pose proof (@trimEnd_fixed_drop is_sep s Hs) as Hd.
  destruct (drop_while_split is_sep s) as (pre & Hsplit & Hpre).
  assert (Htext : trim (drop_while is_sep s) = drop_while is_sep s).
  { unfold trim. rewrite trimStart_fixed; [exact Hd|].
    destruct (drop_while is_sep s) as [|x l] eqn:E; [reflexivity|].
    simpl. apply sep_of_space. exact (drop_while_head _ _ E). }
  rewrite Htext. exists c, (d :: pre). repeat split.
  - simpl. now rewrite <- Hsplit.
  - exact Hup.
  - discriminate.
  - simpl. now rewrite Hsep, Hpre.
  - destruct (drop_while is_sep s) as [|x l] eqn:E; [exact I|].
    exact (drop_while_head _ _ E).
Qed.

Lemma subheading_text_follows_marker_witness :
  exists c seps,
    js "B.  Scope"
    = c :: seps
           ++ paragraphText
                (styled (js "Scope") true 24 (Some 120%Z) (Some 80%Z) None)
    /\ is_upper c = true /\ seps <> [] /\ forallb is_sep seps = true
    /\ match paragraphText
               (styled (js "Scope") true 24 (Some 120%Z) (Some 80%Z) None)
       with
       | [] => True
       | x :: _ => is_sep x = false
       end.
Proof.
  apply (@subheading_text_follows_marker (js "B.  Scope")
           (styled (js "Scope") true 24 (Some 120%Z) (Some 80%Z) None)).
  - reflexivity.
  - reflexivity.
Defined.

Lemma ws_upper_colon_inv (v : jsstring) :
  ws_upper_colon v = true ->
  exists u rest,
    drop_while is_space v = u :: rest
    /\ is_upper u = true /\ any_colon_end rest = true.
Proof.
  induction v as [|c v IH]; [discriminate|].
  cbn [ws_upper_colon drop_while]. intro H.
  destruct (is_space c) eqn:E.
  - rewrite (space_not_upper _ E) in H. simpl in H. now apply IH.
  - rewrite andb_false_l, orb_false_r in H. apply andb_prop in H.
    exists c, v. tauto.
Qed.

Lemma any_colon_end_inv (s : jsstring) :
  any_colon_end s = true ->
  exists a b, s = a ++ 58%N :: b /\ forallb is_space b = true.
Proof.
  induction s as [|c s IH]; [discriminate|].
  cbn [any_colon_end]. intro H. apply orb_prop in H. destruct H as [H|H].
  - apply andb_prop in H. destruct H as [Hc Hb].
    apply N.eqb_eq in Hc. subst c. now exists [], s.
  - apply andb_prop in H. destruct H as [_ H].
    destruct (IH H) as (a & b & -> & Hb). now exists (c :: a), b.
Qed.

Lemma drop_while_all (p : N -> bool) (l m : jsstring) :
  forallb p l = true -> drop_while p (l ++ m) = drop_while p m.
Proof.
  induction l as [|c l IH]; [reflexivity|]. simpl. intro H.
  apply andb_prop in H. destruct H as [Hc Hl]. rewrite Hc. now apply IH.
Qed.

Lemma trimEnd_spaces_after (x b : jsstring) (c : N) :
  is_space c = false -> forallb is_space b = true ->
  trimEnd (x ++ c :: b) = x ++ [c].
Proof.
  intros Hc Hb. unfold trimEnd.
  rewrite rev_app_distr. simpl rev. rewrite <- app_assoc.
  rewrite drop_while_all by (now apply forallb_rev).
  simpl. rewrite Hc. simpl. now rewrite rev_involutive.
Qed.

Lemma label_source (t : jsstring) :
  label_re t = true -> ws_upper_colon (replace_bullet [] t) = true.
Proof.
  unfold label_re, replace_bullet. destruct t as [|c s]; [discriminate|].
  intro H. destruct (is_bullet c) eqn:Eb.
  - simpl app. rewrite ws_upper_colon_drop.
    apply orb_prop in H. destruct H as [H|H]; [exact H|].
    exfalso. cbn [ws_upper_colon] in H.
    destruct (is_bullet_cases _ Eb) as [-> | ->]; discriminate H.
  - exact H.
Qed.

(** X15. The text of a Label begins with a capital letter and ends with
    the colon: a bullet marker before the label is removed and the colon is
    kept. *)
Theorem label_text_keeps_colon (t : jsstring) (p : Paragraph) :
  classify t = Emit Label p ->
  exists u a, paragraphText p = u :: a ++ [58%N] /\ is_upper u = true.
Proof.
  intro Hc.
  destruct (classify_emit_inv _ Hc)
    as [(H & _) | [(H & _) | [(H & _) | [(_ & Hre & ->)
        | [(H & _) | (H & _)]]]]]; try discriminate H.
  rewrite paragraphText_styled.
  destruct (ws_upper_colon_inv _ (label_source _ Hre))
    as (u & rest & Hdrop & Hup & Hcolon).
  destruct (any_colon_end_inv _ Hcolon) as (a & b & -> & Hb).
  exists u, a. split; [|exact Hup].
  unfold trim, trimStart. rewrite Hdrop.
  change (u :: a ++ 58%N :: b) with ((u :: a) ++ 58%N :: b).
  now rewrite trimEnd_spaces_after.
Qed.

Lemma label_text_keeps_colon_witness :
  exists u a,
    paragraphText
      (styled (js "Key risks:") true 24 (Some 120%Z) (Some 80%Z) None)
    = u :: a ++ [58%N]
    /\ is_upper u = true.
Proof.
  apply (@label_text_keeps_colon (8226%N :: js "  Key risks:")
           (styled (js "Key risks:") true 24 (Some 120%Z) (Some 80%Z) None)).
  reflexivity.
Defined.

(* ================================================================== *)
(** * Further properties: the paragraphs of the DOCX document *)
(* ================================================================== *)

Lemma pushLines_extends (lines : list jsstring) : forall acc,
  exists body,
    pushLines lines acc = acc ++ body
    /\ (List.length body <= List.length lines)%nat.
Proof.
  induction lines as [|raw lines IH]; intro acc; simpl.
  - exists []. split; [now rewrite app_nil_r | simpl; lia].
  - destruct (classify (trim raw)) as [role p|].
    + destruct (IH (acc ++ [p])) as (body & -> & Hlen).
      exists (p :: body). split; [now rewrite <- app_assoc | simpl; lia].
    + exists []. split; [now rewrite app_nil_r | simpl; lia].
Qed.

Lemma pushLines_cut (pre : list jsstring) : forall acc l post,
  startsWith footerMarker (trim l) = true ->
  pushLines (pre ++ l :: post) acc = pushLines pre acc.
Proof.
  induction pre as [|raw pre IH]; intros acc l post Hl; simpl.
  - now rewrite (classify_break _ Hl).
  - destruct (classify (trim raw)); [now apply IH | reflexivity].
Qed.

(** X16. The DOCX document always begins with the title and the
    timestamp paragraphs and ends with the footer paragraph; between them
    there is at most one paragraph for each line of the report. *)
Theorem docx_frame_and_size
  (Vec : Type) (globalIndex : option (list Vec)) (now : Report.Date) (r : Q)
  (ts reportText : jsstring) :
  exists body,
    Docx.docParagraphs globalIndex now r ts reportText
    = titleParagraph :: generatedParagraph ts :: body
      ++ [footerParagraph
            (footerText (Report.regRand now r) (indexLength globalIndex))]
    /\ (List.length body <= List.length (reportLines reportText))%nat.
Proof.
  unfold Docx.docParagraphs.
  destruct (pushLines_extends (reportLines reportText)
              [titleParagraph; generatedParagraph ts]) as (body & -> & Hlen).
  exists body. split; [reflexivity | exact Hlen].
Qed.

(** X17. Nothing from a line that, trimmed, begins with the footer marker
    reaches the DOCX body, also when an earlier line has ended the loop: the
    paragraphs are those of the lines before it. *)
Theorem docx_ignores_lines_from_marker
  (pre : list jsstring) (l : jsstring) (post : list jsstring)
  (acc : list Paragraph) :
  startsWith footerMarker (trim l) = true ->
  pushLines (pre ++ l :: post) acc = pushLines pre acc.
Proof.
  apply pushLines_cut.
Qed.

Lemma docx_ignores_lines_from_marker_witness :
  pushLines (Samples.samplePre ++ Samples.sampleMarkerLine
             :: Samples.samplePost) []
  = pushLines Samples.samplePre [].
Proof.
  apply (@docx_ignores_lines_from_marker Samples.samplePre
           Samples.sampleMarkerLine Samples.samplePost []).
  reflexivity.
Defined.

(* ================================================================== *)
(** * Further properties: the generated report in the DOCX document *)
(* ================================================================== *)

Lemma collapse_app_nl (a s : jsstring) : forall b,
  collapse_newlines_from b (a ++ 10%N :: s)
  = collapse_newlines_from b (a ++ [10%N]) ++ collapse_newlines_from true s.
Proof.
  induction a as [|c a IH]; intro b.
  - simpl. now destruct b.
  - simpl. destruct (c =? 10)%N.
    + destruct b; [apply IH|]. simpl. now rewrite IH.
    + simpl. now rewrite IH.
Qed.

Lemma collapse_snoc_nl (a : jsstring) : forall b,
  no_trailing_space a -> (a = [] -> b = false) ->
  collapse_newlines_from b (a ++ [10%N])
  = collapse_newlines_from b a ++ [10%N].
Proof.
  induction a as [|c a IH]; intros b Hnt Hb.
  - rewrite (Hb eq_refl). reflexivity.
  - destruct (no_trailing_space_tail _ _ Hnt) as [Ht Hsp]. simpl.
    destruct (c =? 10)%N eqn:E.
    + apply N.eqb_eq in E. subst c.
      assert (Hne : a <> []) by (now apply Hsp).
      destruct b.
      * apply IH; [assumption | congruence].
      * simpl. rewrite IH; [reflexivity | assumption | congruence].
    + simpl. rewrite IH; [reflexivity | assumption | reflexivity].
Qed.

Lemma cons_head_app (c : N) (l m : list jsstring) :
  l <> [] -> cons_head c (l ++ m) = cons_head c l ++ m.
Proof.
  destruct l; [congruence | reflexivity].
Qed.

Lemma split_lines_app_nl (a s : jsstring) : forall b,
  split_lines_from b (a ++ 10%N :: s)
  = split_lines_from b a ++ split_lines_from false s.
Proof.
  induction a as [|c a IH]; intro b.
  - reflexivity.
  - assert (Hcons : cons_head c (split_lines_from false (a ++ 10%N :: s))
                    = cons_head c (split_lines_from false a)
                      ++ split_lines_from false s).
    { rewrite IH. apply cons_head_app. apply split_lines_from_nonempty. }
    change ((c :: a) ++ 10%N :: s) with (c :: (a ++ 10%N :: s)).
    cbn [split_lines_from].
    destruct (c =? 10)%N; [simpl; now rewrite IH|].
    destruct (c =? 32)%N; [|exact Hcons].
    destruct b; [apply IH|].
    destruct a as [|c2 a']; [exact Hcons|].
    change ((c2 :: a') ++ 10%N :: s) with (c2 :: (a' ++ 10%N :: s)).
    cbv iota beta.
    destruct (c2 =? 32)%N; [|exact Hcons].
    simpl app. f_equal. apply IH.
Qed.

Lemma footer_opening (fairness reg : jsstring) (n : Z) :
  exists tail,
    Report.footer fairness reg n
    = (10 :: 10 :: ownFooterLine ++ 10%N :: tail)%N.
Proof.
  eexists. unfold Report.footer, Report.boilerplate, ownFooterLine.
  cbn [app hd]. rewrite !join_cons by discriminate. reflexivity.
Qed.

Lemma trim_no_trailing (s : jsstring) : no_trailing_space (trim s).
Proof.
  apply trimEnd_fixed_no_trailing, trim_fixed_end, trim_idempotent.
Qed.

Lemma lines_of_report_with_footer (body tail : jsstring) :
  no_trailing_space body ->
  exists post,
    reportLines (body ++ [10; 10]%N
                 ++ (10 :: 10 :: ownFooterLine ++ 10%N :: tail)%N)
    = reportLines body ++ ownFooterLine :: post.
Proof.
  intro Hnt. unfold reportLines, collapse_newlines.
  change (body ++ [10; 10]%N
          ++ (10 :: 10 :: ownFooterLine ++ 10%N :: tail)%N)
    with (body ++ 10%N
               :: (10 :: 10 :: 10 :: ownFooterLine ++ 10%N :: tail)%N).
  rewrite collapse_app_nl.
  rewrite collapse_snoc_nl by (assumption || reflexivity).
  assert (Hskip : forall s,
             collapse_newlines_from true (10%N :: s)
             = collapse_newlines_from true s) by reflexivity.
  rewrite !Hskip.
  rewrite collapse_app_nl.
  assert (Hline : collapse_newlines_from true (ownFooterLine ++ [10%N])
                  = ownFooterLine ++ [10%N]) by (vm_compute; reflexivity).
  rewrite Hline. rewrite <- !app_assoc.
  assert (Hone : forall (c : N) (l : jsstring), [c] ++ l = c :: l)
    by reflexivity.
  rewrite !Hone.
  rewrite !split_lines_app_nl.
  assert (Hsplit : split_lines_from false ownFooterLine = [ownFooterLine])
    by (vm_compute; reflexivity).
  rewrite Hsplit.
  exists (split_lines_from false (collapse_newlines_from true tail)).
  reflexivity.
Qed.

(** X18. For every report [generateECMAssistant] returns, the lines of
    the report are the lines of the model's answer (trimmed and cut at the
    appendix) followed by the first line of the report's own footer and the
    rest; so the DOCX document made of the report is the one made of the
    answer alone: the footer written into the report text never shows in it. *)
Theorem generated_footer_never_in_docx
  (Vec : Type) (loadIndex : Z -> Result Error (list Vec))
  (searchIndex : jsstring -> list Vec -> Result Error (list Retrieval.Match))
  (chat : jsstring -> list Report.ChatMessage -> Result Error jsstring)
  (globalIndex : option (list Vec)) (now : Report.Date) (r : Q)
  (query text : jsstring) :
  Report.generateECMAssistant loadIndex searchIndex chat globalIndex now r
    query = Ok text ->
  exists prompt completion,
    chat (js "gpt-5")
      [ {| Report.role := js "user"; Report.content := prompt |} ]
    = Ok completion
    /\ let answer := trim (Report.strip_appendix (trim completion)) in
       (exists post,
           reportLines text = reportLines answer ++ ownFooterLine :: post)
       /\ forall (Vec' : Type) (index : option (list Vec'))
            (now' : Report.Date) (r' : Q) (ts : jsstring),
            Docx.docParagraphs index now' r' ts text
            = Docx.docParagraphs index now' r' ts answer.
Proof.
  unfold Report.generateECMAssistant, bind. intro H.
  match type of H with
  | context [chat ?m [ {| Report.role := _; Report.content := ?pr |} ]] =>
      destruct (chat m [ {| Report.role := js "user";
                            Report.content := pr |} ])
        as [completion|e] eqn:Echat; [exists pr, completion | discriminate H]
  end.
  injection H as <-. split; [exact Echat|].
  cbv zeta.
  match goal with
  | |- context [Report.footer ?f ?g ?n] =>
      destruct (footer_opening f g n) as (tail & ->)
  end.
  destruct (@lines_of_report_with_footer
              (trim (Report.strip_appendix (trim completion))) tail
              (trim_no_trailing _)) as (post & Hlines).
  split; [now exists post|].
  intros Vec' index now' r' ts. unfold Docx.docParagraphs.
  change (trim (Report.strip_appendix (trim completion))
          ++ (10 :: 10 :: 10 :: 10 :: ownFooterLine ++ 10%N :: tail)%N)
    with (trim (Report.strip_appendix (trim completion)) ++ [10; 10]%N
          ++ (10 :: 10 :: ownFooterLine ++ 10%N :: tail)%N).
  rewrite Hlines. rewrite pushLines_cut; [reflexivity|].
  vm_compute. reflexivity.
Qed.

Lemma generated_footer_never_in_docx_witness :
  exists prompt completion,
    Samples.sampleChat (js "gpt-5")
      [ {| Report.role := js "user"; Report.content := prompt |} ]
    = Ok completion
    /\ let answer := trim (Report.strip_appendix (trim completion)) in
       (exists post,
           reportLines Samples.sampleGenerated
           = reportLines answer ++ ownFooterLine :: post)
       /\ forall (Vec' : Type) (index : option (list Vec'))
            (now' : Report.Date) (r' : Q) (ts : jsstring),
            Docx.docParagraphs index now' r' ts Samples.sampleGenerated
            = Docx.docParagraphs index now' r' ts answer.
Proof.
  apply (@generated_footer_never_in_docx unit Samples.sampleLoad
           Samples.sampleSearch Samples.sampleChat (Some Samples.sampleIndex)
           Samples.october3rd (1 # 2) (js "What is required?")
           Samples.sampleGenerated).
  vm_compute. reflexivity.
Defined.

(* ================================================================== *)
(** * Further properties of report generation *)
(* ================================================================== *)

Lemma startsWith_ci_app (p s t : jsstring) :
  Report.startsWith_ci p s = true -> Report.startsWith_ci p (s ++ t) = true.
Proof.
  revert s. induction p as [|a p IH]; intros s H; [reflexivity|].
  destruct s as [|b s]; [discriminate|]. simpl in *.
  apply andb_prop in H. destruct H as [H1 H2]. now rewrite H1, IH.
Qed.

Lemma drop_while_app_nonempty (p : N -> bool) (s t : jsstring) :
  drop_while p s <> [] -> drop_while p (s ++ t) = drop_while p s ++ t.
Proof.
  intro H. rewrite drop_while_app. destruct (drop_while p s); congruence.
Qed.

Lemma appendix_here_inv (s : jsstring) :
  Report.appendix_here s = true ->
  exists s',
    s = (56 :: 41 :: s')%N
    /\ Report.startsWith_ci (js "Appendix") (drop_while is_space s') = true.
Proof.
  unfold Report.appendix_here. intro H.
  repeat match type of H with
         | context [match ?x with _ => _ end] =>
             is_var x; destruct x; try discriminate H
         end.
  eexists. split; [reflexivity | exact H].
Qed.

Lemma appendix_here_app (s t : jsstring) :
  Report.appendix_here s = true -> Report.appendix_here (s ++ t) = true.
Proof.
  intro H. destruct (appendix_here_inv _ H) as (s' & -> & Hs).
  simpl app. unfold Report.appendix_here.
  rewrite drop_while_app_nonempty.
  - now apply startsWith_ci_app.
  - intro E. rewrite E in Hs. discriminate Hs.
Qed.

Lemma strip_appendix_prefix (s : jsstring) :
  exists tail, s = Report.strip_appendix s ++ tail.
Proof.
  induction s as [|c s (tail & IH)]; [now exists []|].
  cbn [Report.strip_appendix]. destruct (Report.appendix_here (c :: s)).
  - now exists (c :: s).
  - exists tail. simpl. now rewrite <- IH.
Qed.

Lemma strip_appendix_clean (s : jsstring) :
  has_appendix (Report.strip_appendix s) = false.
Proof.
  induction s as [|c s IH]; [reflexivity|].
  cbn [Report.strip_appendix].
  destruct (Report.appendix_here (c :: s)) eqn:E; [reflexivity|].
  cbn [has_appendix]. rewrite IH, orb_false_r.
  destruct (Report.appendix_here (c :: Report.strip_appendix s)) eqn:E';
    [|reflexivity].
  destruct (strip_appendix_prefix s) as (tail & Hs).
  apply appendix_here_app with (t := tail) in E'.
  simpl app in E'. rewrite <- Hs in E'. congruence.
Qed.

Lemma strip_appendix_unchanged (s : jsstring) :
  has_appendix s = false -> Report.strip_appendix s = s.
Proof.
  induction s as [|c s IH]; [reflexivity|].
  cbn [has_appendix Report.strip_appendix]. intro H.
  apply orb_false_elim in H. destruct H as [H1 H2].
  rewrite H1. now rewrite IH.
Qed.

(** X19. Cutting the appendix keeps a prefix of the text in which the
    pattern [8) Appendix] (any case, any whitespace between) matches nowhere;
    a text without a match is unchanged, and cutting twice is cutting once. *)
Theorem strip_appendix_cuts_once (s : jsstring) :
  (exists tail, s = Report.strip_appendix s ++ tail)
  /\ has_appendix (Report.strip_appendix s) = false
  /\ Report.strip_appendix (Report.strip_appendix s)
     = Report.strip_appendix s
  /\ (has_appendix s = false /\ Report.strip_appendix s = s
      \/ has_appendix s = true).
Proof.
  split; [apply strip_appendix_prefix|].
  split; [apply strip_appendix_clean|].
  split; [apply strip_appendix_unchanged, strip_appendix_clean|].
  destruct (has_appendix s) eqn:E; [now right | left].
  split; [reflexivity | now apply strip_appendix_unchanged].
Qed.

(** X20. The context put into the prompt is a prefix of the joined
    passages of at most 50000 code units, and all of them when they are no
    more than 50000. *)
Theorem context_is_bounded_prefix (joined : jsstring) :
  (N.of_nat (List.length (Report.truncateContext joined)) <= 50000)%N
  /\ (exists rest, joined = Report.truncateContext joined ++ rest)
  /\ ((50000 <? N.of_nat (List.length joined))%N = false
      /\ Report.truncateContext joined = joined
      \/ (50000 <? N.of_nat (List.length joined))%N = true
         /\ Report.truncateContext joined = firstn (N.to_nat 50000) joined).
Proof.
  unfold Report.truncateContext.
  destruct (50000 <? N.of_nat (List.length joined))%N eqn:E.
  - split; [|split].
    + pose proof (firstn_le_length (N.to_nat 50000) joined) as H. lia.
    + exists (skipn (N.to_nat 50000) joined). now rewrite firstn_skipn.
    + right. now split.
  - split; [|split].
    + apply N.ltb_ge in E. exact E.
    + exists []. now rewrite app_nil_r.
    + left. now split.
Qed.

(** X21. [generateECMAssistant] throws exactly the error of the report
    completion when that call throws, and returns a report whenever it
    answers: a fairness check that throws does not fail the report, its error
    message is written into the footer in place of the verdict. *)
Theorem fairness_failure_is_absorbed
  (Vec : Type) (loadIndex : Z -> Result Error (list Vec))
  (searchIndex : jsstring -> list Vec -> Result Error (list Retrieval.Match))
  (chat : jsstring -> list Report.ChatMessage -> Result Error jsstring)
  (globalIndex : option (list Vec)) (now : Report.Date) (r : Q)
  (query : jsstring) :
  let ctx :=
    Retrieval.queryFaissIndex loadIndex searchIndex globalIndex query in
  let prompt :=
    trim (Report.promptTemplate query
            (Report.truncateContext (Retrieval.joined ctx))) in
  let asked :=
    chat (js "gpt-5")
      [ {| Report.role := js "user"; Report.content := prompt |} ] in
  (forall e, asked = Throw e ->
     Report.generateECMAssistant loadIndex searchIndex chat globalIndex now r
       query = Throw e)
  /\ (forall completion, asked = Ok completion ->
        let answer := trim (Report.strip_appendix (trim completion)) in
        let checked :=
          chat (js "gpt-5")
            [ {| Report.role := js "system";
                 Report.content := Report.fairnessInstruction |};
              {| Report.role := js "user"; Report.content := answer |} ] in
        exists verdict,
          Report.generateECMAssistant loadIndex searchIndex chat globalIndex
            now r query
          = Ok (answer ++ [10; 10]%N
                ++ Report.footer verdict (Report.regRand now r)
                     (Retrieval.count ctx))
          /\ (forall e, checked = Throw e ->
                verdict = js "Fairness verification not completed ("
                          ++ message e ++ js ")")
          /\ (forall c, checked = Ok c -> verdict = trim c)).
Proof.
  cbv zeta. split.
  - intros e He. unfold Report.generateECMAssistant, bind. now rewrite He.
  - intros completion Hc.
    exists (Report.fairnessOf chat
              (trim (Report.strip_appendix (trim completion)))).
    split; [|split].
    + unfold Report.generateECMAssistant, bind. now rewrite Hc.
    + intros e He. unfold Report.fairnessOf, bind, try_catch. now rewrite He.
    + intros c Hok. unfold Report.fairnessOf, bind, try_catch. now rewrite Hok.
Qed.

(** X22. The count [queryFaissIndex] returns is never negative; when it
    is 0 the joined text is empty; when the search answers, the count is at
    most the number of its hits; and with a preloaded index the result does
    not depend on [loadIndex], which is not called. *)
Theorem query_count_and_preloaded_index
  (Vec : Type) (loadIndex loadIndex' : Z -> Result Error (list Vec))
  (searchIndex : jsstring -> list Vec -> Result Error (list Retrieval.Match))
  (globalIndex : option (list Vec)) (question : jsstring) :
  let ctx :=
    Retrieval.queryFaissIndex loadIndex searchIndex globalIndex question in
  (0 <= Retrieval.count ctx)%Z
  /\ (Retrieval.count ctx = 0%Z -> Retrieval.joined ctx = [])
  /\ (forall index hits,
        Retrieval.obtainIndex loadIndex globalIndex = Ok index ->
        searchIndex question index = Ok hits ->
        (Retrieval.count ctx <= Z.of_nat (List.length hits))%Z)
  /\ (forall index,
        Retrieval.queryFaissIndex loadIndex searchIndex (Some index) question
        = Retrieval.queryFaissIndex loadIndex' searchIndex (Some index)
            question).
Proof.
  cbv zeta.
  unfold Retrieval.queryFaissIndex, Retrieval.lookup, bind, try_catch.
  split; [|split; [|split]].
  - destruct (Retrieval.obtainIndex loadIndex globalIndex) as [index|e];
      [|simpl; lia].
    destruct (searchIndex question index) as [hits|e]; simpl; lia.
  - destruct (Retrieval.obtainIndex loadIndex globalIndex) as [index|e];
      [|reflexivity].
    destruct (searchIndex question index) as [hits|e]; [|reflexivity].
    simpl. intro H.
    destruct (filter _ hits); [reflexivity | simpl in H; lia].
  - intros index hits -> ->. simpl.
    pose proof (filter_length_le
                  (fun m => Qle_bool (Float64.round (3 # 100))
                             (Retrieval.score m)) hits).
    lia.
  - intro index. reflexivity.
Qed.

(** X23. The preload leaves an index exactly when [loadIndex] answers at
    start-up, and every query then uses that index without loading; when the
    preload throws, no index is kept and every query loads the index itself. *)
Theorem preload_then_query
  (Vec : Type) (atStart later : Z -> Result Error (list Vec)) :
  (forall index,
      atStart 10000%Z = Ok index ->
      Startup.preload atStart = Some index
      /\ Retrieval.obtainIndex later (Startup.preload atStart) = Ok index)
  /\ (forall e,
        atStart 10000%Z = Throw e ->
        Startup.preload atStart = None
        /\ Retrieval.obtainIndex later (Startup.preload atStart)
           = later 10000%Z).
Proof.
  unfold Startup.preload, bind, try_catch.
  split; intros x ->; split; reflexivity.
Qed.

(* ================================================================== *)
(** * Further properties of the [/ask] handler *)
(* ================================================================== *)

Section AskAnswers.
Variable Vec : Type.
Variable loadIndex : Z -> Result Error (list Vec).
Variable searchIndex :
  jsstring -> list Vec -> Result Error (list Retrieval.Match).
Variable chat : jsstring -> list Report.ChatMessage -> Result Error jsstring.
Variable widthOf : Font -> jsstring -> Q -> Q.
Variables pw ph : Q.
Variable Buffer : Type.
Variable save : list Page -> Result Error Buffer.
Variable toBuffer : list Paragraph -> Result Error Buffer.
Variable send : Ask.Mail Buffer -> Result Error unit.

Local Abbreviation ask :=
  (Ask.ask loadIndex searchIndex chat widthOf pw ph save toBuffer send).

Local Abbreviation generated w q :=
  (Report.generateECMAssistant loadIndex searchIndex chat (Ask.globalIndex w)
     (Ask.reportNow w) (Ask.reportRandom w) q).

Lemma ask_cases (req : Ask.Request) (w : Ask.World Vec) :
  ((Ask.question req = None \/ Ask.question req = Some [])
   /\ ask req w
      = {| Ask.status := 400;
           Ask.body := Ask.ErrorBody (js "Missing question") |})
  \/ (exists q,
        Ask.question req = Some q /\ q <> []
        /\ ((ask req w
             = {| Ask.status := 500;
                  Ask.body := Ask.ErrorBody (js "Report generation failed") |}
             /\ ((exists e, generated w q = Throw e)
                 \/ (exists reportText,
                       generated w q = Ok reportText
                       /\ ((exists e,
                              buildPdfBufferStructured widthOf pw ph save
                                (Ask.email req) (Ask.ts w) q reportText
                              = Throw e)
                           \/ (exists e,
                                 toBuffer
                                   (Docx.docParagraphs (Ask.globalIndex w)
                                      (Ask.docxNow w) (Ask.docxRandom w)
                                      (Ask.ts w) reportText)
                                 = Throw e)))))
            \/ (exists reportText pdfBuf docBuf,
                  generated w q = Ok reportText
                  /\ buildPdfBufferStructured widthOf pw ph save
                       (Ask.email req) (Ask.ts w) q reportText = Ok pdfBuf
                  /\ toBuffer
                       (Docx.docParagraphs (Ask.globalIndex w)
                          (Ask.docxNow w) (Ask.docxRandom w) (Ask.ts w)
                          reportText) = Ok docBuf
                  /\ ask req w
                     = {| Ask.status := 200;
                          Ask.body :=
                            Ask.AnswerBody q reportText (Ask.ts w) |}))).
Proof.
  unfold Ask.ask.
  destruct (Ask.question req) as [q|]; [|left; split; [now left | reflexivity]].
  destruct q as [|c q]; [left; split; [now right | reflexivity]|].
  right. exists (c :: q). split; [reflexivity|]. split; [discriminate|].
  cbn [truthy negb]. unfold Ask.answer, bind, try_catch.
  destruct (generated w (c :: q)) as [reportText|e] eqn:Eg.
  - destruct (buildPdfBufferStructured widthOf pw ph save (Ask.email req)
                (Ask.ts w) (c :: q) reportText) as [pdfBuf|e] eqn:Ep.
    + destruct (toBuffer _) as [docBuf|e] eqn:Ed.
      * right. exists reportText, pdfBuf, docBuf.
        repeat (split; [reflexivity || assumption|]).
        now destruct (send _) as [[]|].
      * left. split; [reflexivity|]. right. exists reportText.
        split; [reflexivity|]. right. now exists e.
    + left. split; [reflexivity|]. right. exists reportText.
      split; [reflexivity|]. left. now exists e.
  - left. split; [reflexivity|]. left. now exists e.
Qed.
End AskAnswers.

(** X24. The handler gives one of three answers.  It answers 400 with
    [Missing question] when the question is absent or empty, calling nothing.
    With a question, it answers 500 with the fixed text
    [Report generation failed], whatever the error was, when the report
    generation, the PDF or the DOCX throws; and 200 with the question, the
    generated report and the timestamp when all three succeed. *)
Theorem ask_answers_one_of_three
  (Vec : Type) (loadIndex : Z -> Result Error (list Vec))
  (searchIndex : jsstring -> list Vec -> Result Error (list Retrieval.Match))
  (chat : jsstring -> list Report.ChatMessage -> Result Error jsstring)
  (widthOf : Font -> jsstring -> Q -> Q) (pw ph : Q)
  (Buffer : Type) (save : list Page -> Result Error Buffer)
  (toBuffer : list Paragraph -> Result Error Buffer)
  (send : Ask.Mail Buffer -> Result Error unit)
  (req : Ask.Request) (w : Ask.World Vec) :
  let ask :=
    Ask.ask loadIndex searchIndex chat widthOf pw ph save toBuffer send in
  let generated q :=
    Report.generateECMAssistant loadIndex searchIndex chat (Ask.globalIndex w)
      (Ask.reportNow w) (Ask.reportRandom w) q in
  let pdf q reportText :=
    buildPdfBufferStructured widthOf pw ph save (Ask.email req) (Ask.ts w) q
      reportText in
  let docx reportText :=
    toBuffer (Docx.docParagraphs (Ask.globalIndex w) (Ask.docxNow w)
                (Ask.docxRandom w) (Ask.ts w) reportText) in
  ((Ask.question req = None \/ Ask.question req = Some [])
   /\ ask req w
      = {| Ask.status := 400;
           Ask.body := Ask.ErrorBody (js "Missing question") |})
  \/ (exists q,
        Ask.question req = Some q /\ q <> []
        /\ ((ask req w
             = {| Ask.status := 500;
                  Ask.body := Ask.ErrorBody (js "Report generation failed") |}
             /\ ((exists e, generated q = Throw e)
                 \/ (exists reportText,
                       generated q = Ok reportText
                       /\ ((exists e, pdf q reportText = Throw e)
                           \/ (exists e, docx reportText = Throw e)))))
            \/ (exists reportText pdfBuf docBuf,
                  generated q = Ok reportText
                  /\ pdf q reportText = Ok pdfBuf
                  /\ docx reportText = Ok docBuf
                  /\ ask req w
                     = {| Ask.status := 200;
                          Ask.body :=
                            Ask.AnswerBody q reportText (Ask.ts w) |}))).
Proof.
  cbv zeta. apply ask_cases.
Qed.

Lemma kept_address (e : option jsstring) (a : jsstring) :
  In a match e with
       | Some x => if truthy x then [x] else []
       | None => []
       end
  <-> a <> [] /\ e = Some a.
Proof.
  destruct e as [[|c x]|]; simpl.
  - split; [tauto | intros [Ha H]; injection H as <-; now elim Ha].
  - split.
    + intros [<- | []]. split; [discriminate | reflexivity].
    + intros [_ H]. injection H as <-. now left.
  - split; [tauto | intros [_ H]; discriminate H].
Qed.

(** X25. The mail goes to the addresses of the request that are present
    and not empty, in the order user, manager, client: the recipients are
    the user's address if it is kept, then the manager's if it is kept, then
    the client's if it is kept; so they are at most three, none is empty,
    and every one of them is an address of the request. *)
Theorem recipients_are_the_given_addresses (req : Ask.Request) :
  Ask.recipients req
  = kept (Ask.email req) ++ kept (Ask.managerEmail req)
    ++ kept (Ask.clientEmail req)
  /\ (List.length (Ask.recipients req) <= 3)%nat
  /\ Forall (fun a => a <> []) (Ask.recipients req)
  /\ (forall a,
        In a (Ask.recipients req)
        <-> a <> []
            /\ (Ask.email req = Some a \/ Ask.managerEmail req = Some a
                \/ Ask.clientEmail req = Some a)).
Proof.
  assert (Hin : forall a,
    In a (Ask.recipients req)
    <-> a <> []
        /\ (Ask.email req = Some a \/ Ask.managerEmail req = Some a
            \/ Ask.clientEmail req = Some a)).
  { intro a. unfold Ask.recipients. cbn [List.map List.concat].
    rewrite !in_app_iff, !kept_address. simpl. tauto. }
  split; [|split; [|split]].
  - unfold Ask.recipients, kept. cbn [List.map List.concat].
    now rewrite app_nil_r.
  - unfold Ask.recipients. cbn [List.map List.concat].
    rewrite !length_app.
    destruct (Ask.email req) as [[|? ?]|];
      destruct (Ask.managerEmail req) as [[|? ?]|];
      destruct (Ask.clientEmail req) as [[|? ?]|]; simpl; lia.
  - apply Forall_forall. intros a Ha. now apply Hin in Ha.
  - exact Hin.
Qed.

(* ================================================================== *)
(** * Properties of the page script *)
(* ================================================================== *)

Lemma trim_all_space (v : jsstring) : forallb is_space v = true -> trim v = [].
Proof.
  intro H. unfold trim, trimStart.
  rewrite <- (app_nil_r v). now rewrite drop_while_all.
Qed.

(** X26. When there is no question input, or its value is empty or only
    whitespace, a click sends no request and shows the message that asks for
    a question. *)
Theorem client_refuses_empty_question
  (f : Client.Form) (now : jsstring)
  (fetch : Client.Payload -> Client.FetchResult) :
  Client.generateBtn f = true ->
  (Client.clarificationInput f = None
   \/ exists v, Client.clarificationInput f = Some v
                /\ forallb is_space v = true) ->
  Client.click f now fetch
  = Some {| Client.sent := None;
            Client.shown := Client.TextContent Client.pleaseEnter |}.
Proof.
  intros Hbtn Hq. unfold Client.click, Client.payloadOf. rewrite Hbtn.
  cbn [negb Client.p_question].
  assert (Hv : Client.valueOf (Client.clarificationInput f) = []).
  { destruct Hq as [-> | (v & -> & Hv)]; [reflexivity|].
    simpl. now apply trim_all_space. }
  now rewrite Hv.
Qed.

Lemma client_refuses_empty_question_witness :
  Client.click
    {| Client.clarification := Some (js "   ");
       Client.topic := Some (js "ignored");
       Client.questionField := None;
       Client.emailField := None;
       Client.managerField := None;
       Client.clientField := None;
       Client.generateBtn := true |}
    Samples.sampleTs (fun _ => Client.Rejected (js "TypeError") [])
  = Some {| Client.sent := None;
            Client.shown := Client.TextContent Client.pleaseEnter |}.
Proof.
  apply client_refuses_empty_question.
  - reflexivity.
  - right. exists (js "   "). split; reflexivity.
Defined.

Section ClientAndServer.
Variable Vec : Type.
Variable loadIndex : Z -> Result Error (list Vec).
Variable searchIndex :
  jsstring -> list Vec -> Result Error (list Retrieval.Match).
Variable chat : jsstring -> list Report.ChatMessage -> Result Error jsstring.
Variable widthOf : Font -> jsstring -> Q -> Q.
Variables pw ph : Q.
Variable Buffer : Type.
Variable save : list Page -> Result Error Buffer.
Variable toBuffer : list Paragraph -> Result Error Buffer.
Variable send : Ask.Mail Buffer -> Result Error unit.
Variable w : Ask.World Vec.

Local Abbreviation server :=
  (fun p : Client.Payload =>
     Ask.ask loadIndex searchIndex chat widthOf pw ph save toBuffer send
       (Client.requestOf p) w).

Lemma click_sent (f : Client.Form) (now : jsstring)
  (fetch : Client.Payload -> Client.FetchResult)
  (o : Client.Outcome) (p : Client.Payload) :
  Client.click f now fetch = Some o ->
  Client.sent o = Some p ->
  p = Client.payloadOf f now /\ Client.p_question p <> []
  /\ Client.shown o = Client.display (fetch p).
Proof.
  unfold Client.click. destruct (Client.generateBtn f); [|discriminate].
  cbn [negb].
  destruct (Client.p_question (Client.payloadOf f now)) as [|c q] eqn:E.
  - simpl. intro H. injection H as <-. discriminate.
  - simpl. intro H. injection H as <-. simpl. intro H. injection H as <-.
    rewrite E. repeat split. discriminate.
Qed.

Lemma server_never_400 (p : Client.Payload) :
  Client.p_question p <> [] -> Ask.status (server p) <> 400%Z.
Proof.
  intro Hq.
  destruct (ask_cases loadIndex searchIndex chat widthOf pw ph save toBuffer
              send (Client.requestOf p) w)
    as [[[H|H] _] | (q & Hsome & Hne & [[-> _] | (rt & pb & db & _ & _ & _ & ->)])].
  - discriminate H.
  - simpl in H. injection H as H. congruence.
  - discriminate.
  - discriminate.
Qed.

Lemma generated_nonempty
  (globalIndex : option (list Vec)) (now : Report.Date) (r : Q)
  (query text : jsstring) :
  Report.generateECMAssistant loadIndex searchIndex chat globalIndex now r
    query = Ok text ->
  truthy text = true.
Proof.
  intro H.
  destruct (generated_report_tail _ _ _ _ _ _ _ H) as (head & ->).
  destruct head; reflexivity.
Qed.

Lemma display_of_server (p : Client.Payload) :
  Client.p_question p <> [] ->
  Client.display (Client.responseOf (server p))
  = Client.TextContent
      (Client.crossMark ++ js " Server error: Report generation failed")
  \/ exists text,
       Report.generateECMAssistant loadIndex searchIndex chat
         (Ask.globalIndex w) (Ask.reportNow w) (Ask.reportRandom w)
         (Client.p_question p) = Ok text
       /\ Client.display (Client.responseOf (server p))
          = Client.InnerHTML text.
Proof.
  intro Hq.
  destruct (ask_cases loadIndex searchIndex chat widthOf pw ph save toBuffer
              send (Client.requestOf p) w)
    as [[[H|H] _]
       | (q & Hsome & Hne & [[-> _] | (rt & pb & db & Hg & _ & _ & ->)])].
  - discriminate H.
  - simpl in H. injection H as H. congruence.
  - left. reflexivity.
  - right. simpl in Hsome. injection Hsome as <-.
    exists rt. split; [exact Hg|].
    unfold Client.responseOf, Client.display. simpl.
    now rewrite (generated_nonempty _ _ _ _ Hg).
Qed.
End ClientAndServer.

(** X27. Every request the page script sends carries a question that is
    trimmed and not empty, so the handler never answers such a request with
    400 [Missing question]. *)
Theorem client_request_is_never_refused
  (Vec : Type) (loadIndex : Z -> Result Error (list Vec))
  (searchIndex : jsstring -> list Vec -> Result Error (list Retrieval.Match))
  (chat : jsstring -> list Report.ChatMessage -> Result Error jsstring)
  (widthOf : Font -> jsstring -> Q -> Q) (pw ph : Q)
  (Buffer : Type) (save : list Page -> Result Error Buffer)
  (toBuffer : list Paragraph -> Result Error Buffer)
  (send : Ask.Mail Buffer -> Result Error unit) (w : Ask.World Vec)
  (f : Client.Form) (now : jsstring)
  (fetch : Client.Payload -> Client.FetchResult)
  (o : Client.Outcome) (p : Client.Payload) :
  Client.click f now fetch = Some o ->
  Client.sent o = Some p ->
  Client.p_question p <> []
  /\ trim (Client.p_question p) = Client.p_question p
  /\ Ask.status
       (Ask.ask loadIndex searchIndex chat widthOf pw ph save toBuffer send
          (Client.requestOf p) w) <> 400%Z.
Proof.
  intros Hclick Hsent.
  destruct (click_sent _ _ _ Hclick Hsent) as (-> & Hq & _).
  split; [exact Hq|]. split.
  - unfold Client.payloadOf, Client.valueOf. simpl.
    destruct (Client.clarificationInput f); [apply trim_idempotent|].
    reflexivity.
  - now apply server_never_400.
Qed.

Lemma client_request_is_never_refused_witness :
  Client.p_question (Client.payloadOf Client.sampleForm Samples.sampleTs)
  <> []
  /\ trim (Client.p_question
             (Client.payloadOf Client.sampleForm Samples.sampleTs))
     = Client.p_question (Client.payloadOf Client.sampleForm Samples.sampleTs)
  /\ Ask.status
       (Ask.ask Samples.sampleLoad Samples.sampleSearch Samples.sampleChat
          Samples.monoWidth Samples.a4Width Samples.a4Height
          Samples.sampleSave Samples.sampleToBuffer Samples.failingSend
          (Client.requestOf
             (Client.payloadOf Client.sampleForm Samples.sampleTs))
          Samples.sampleWorld) <> 400%Z.
Proof.
  apply (@client_request_is_never_refused unit Samples.sampleLoad
           Samples.sampleSearch Samples.sampleChat Samples.monoWidth
           Samples.a4Width Samples.a4Height nat Samples.sampleSave
           Samples.sampleToBuffer Samples.failingSend Samples.sampleWorld
           Client.sampleForm Samples.sampleTs Client.sampleServer
           Client.sampleOutcome
           (Client.payloadOf Client.sampleForm Samples.sampleTs)).
  - vm_compute. reflexivity.
  - reflexivity.
Defined.

(** X28. When the page script sends a request to the server (the JSON
    middleware with its limit of 100kb, then the handler), it ends by showing
    [Server error: 413] when the body is over the limit, and otherwise either
    the generated report, as HTML, or the text
    [Server error: Report generation failed]; the warning that no report was
    returned and the [Missing question] error are never shown. *)
Theorem client_shows_report_or_failure
  (Vec : Type) (loadIndex : Z -> Result Error (list Vec))
  (searchIndex : jsstring -> list Vec -> Result Error (list Retrieval.Match))
  (chat : jsstring -> list Report.ChatMessage -> Result Error jsstring)
  (widthOf : Font -> jsstring -> Q -> Q) (pw ph : Q)
  (Buffer : Type) (save : list Page -> Result Error Buffer)
  (toBuffer : list Paragraph -> Result Error Buffer)
  (send : Ask.Mail Buffer -> Result Error unit) (w : Ask.World Vec)
  (bodyBytes : Client.Payload -> N)
  (f : Client.Form) (now : jsstring)
  (o : Client.Outcome) (p : Client.Payload) :
  Client.click f now
    (Client.served bodyBytes
       (fun req =>
          Ask.ask loadIndex searchIndex chat widthOf pw ph save toBuffer
            send req w)) = Some o ->
  Client.sent o = Some p ->
  ((Client.bodyLimit < bodyBytes p)%N
   /\ Client.shown o
      = Client.TextContent (Client.crossMark ++ js " Server error: 413"))
  \/ ((bodyBytes p <= Client.bodyLimit)%N
      /\ (Client.shown o
          = Client.TextContent
              (Client.crossMark
               ++ js " Server error: Report generation failed")
          \/ exists text,
               Report.generateECMAssistant loadIndex searchIndex chat
                 (Ask.globalIndex w) (Ask.reportNow w) (Ask.reportRandom w)
                 (Client.p_question p) = Ok text
               /\ Client.shown o = Client.InnerHTML text)).
Proof.
  intros Hclick Hsent.
  destruct (click_sent _ _ _ Hclick Hsent) as (_ & Hq & ->).
  unfold Client.served.
  destruct (Client.bodyLimit <? bodyBytes p)%N eqn:E.
  - left. apply N.ltb_lt in E. split; [exact E | reflexivity].
  - right. apply N.ltb_ge in E. split; [exact E|].
    now apply display_of_server.
Qed.

Lemma client_shows_report_or_failure_witness :
  ((Client.bodyLimit
    < Client.sampleBodyBytes
        (Client.payloadOf Client.sampleForm Samples.sampleTs))%N
   /\ Client.shown Client.sampleServedOutcome
      = Client.TextContent (Client.crossMark ++ js " Server error: 413"))
  \/ ((Client.sampleBodyBytes
         (Client.payloadOf Client.sampleForm Samples.sampleTs)
       <= Client.bodyLimit)%N
      /\ (Client.shown Client.sampleServedOutcome
          = Client.TextContent
              (Client.crossMark
               ++ js " Server error: Report generation failed")
          \/ exists text,
               Report.generateECMAssistant Samples.sampleLoad
                 Samples.sampleSearch Samples.sampleChat
                 (Ask.globalIndex Samples.sampleWorld)
                 (Ask.reportNow Samples.sampleWorld)
                 (Ask.reportRandom Samples.sampleWorld)
                 (Client.p_question
                    (Client.payloadOf Client.sampleForm Samples.sampleTs))
               = Ok text
               /\ Client.shown Client.sampleServedOutcome
                  = Client.InnerHTML text)).
Proof.
  apply (@client_shows_report_or_failure unit Samples.sampleLoad
           Samples.sampleSearch Samples.sampleChat Samples.monoWidth
           Samples.a4Width Samples.a4Height nat Samples.sampleSave
           Samples.sampleToBuffer Samples.failingSend Samples.sampleWorld
           Client.sampleBodyBytes
           Client.sampleForm Samples.sampleTs Client.sampleServedOutcome
           (Client.payloadOf Client.sampleForm Samples.sampleTs)).
  - vm_compute. reflexivity.
  - reflexivity.
Defined.
